(** * Proxy pipeline: extraction, validation and freshness cache

    A shallow embedding of the proxy scraper ([proxy_scraper.py]), the two
    checkers ([proxy_checker.py], [proxy_checker_fast.py]) and the proxy
    cache of [database.py], with the properties the specification states
    about them.  The second part covers the runs of the scraper and of the
    checkers, the other tables of [database.py] and the loop of [bot.py]
    that caches what a check found.

    Conventions of the embedding.
    - A Python [str] is a Rocq [string]; its characters are read as the code
      points U+0000 to U+00FF, and the character classes below ([\d], [\w],
      white space, [lower()]) are the ones Python uses on that range.
    - [int(s)] is CPython's decimal parser with its default limit of 4300
      digits; a [ValueError] is the [None] of [py_int].
    - [re] is embedded as a backtracking matcher over a regular-expression
      syntax tree, with the priorities of Python's engine (leftmost
      alternative first, greedy bounded repetition).
    - Wall-clock durations (Python floats, in seconds) are rationals.
    - Network and storage are the environment: what a request returns is an
      input of the model.
    - The tasks of an [asyncio.gather] change the object one after the
      other, between their awaits; a list of candidates or of sources stands
      for the order in which they complete.
    - [urlparse] is the library's: whether it takes a URL or raises is an
      input of the model.
    - An SQLite table is the list of its rows in rowid order, with the
      counter of its AUTOINCREMENT key; a call whose statement raises is
      rolled back and leaves the tables as they were. *)

From Stdlib Require Import ZArith QArith Qround List String Ascii Bool Lia Sorted.
From Stdlib Require Import DecimalString.
From stdpp Require Import base strings gmap sets list.

Local Open Scope string_scope.
Local Open Scope Z_scope.

#[local] Set Warnings "-clear-no-such-hyp".

(** ** Python strings *)

Module PyStr.

Definition code (c : ascii) : N := N_of_ascii c.

Definition in_range (lo hi : N) (c : ascii) : bool :=
  ((lo <=? code c) && (code c <=? hi))%N.

(** [\d] of [re] and the digits of [int()]: on U+0000..U+00FF only 0-9. *)
Definition is_digit (c : ascii) : bool := in_range 48 57 c.

Definition digit_val (c : ascii) : Z := Z.of_N (code c) - 48.

(** [str.isspace] on U+0000..U+00FF: TAB..CR, FS..US, SPACE, NEL, NBSP. *)
Definition is_space (c : ascii) : bool :=
  in_range 9 13 c || in_range 28 32 c || (code c =? 133)%N || (code c =? 160)%N.

(** Alphabetic, decimal, digit or numeric code points below 256. *)
Definition is_alnum (c : ascii) : bool :=
  in_range 48 57 c || in_range 65 90 c || in_range 97 122 c
  || (code c =? 170)%N || (code c =? 178)%N || (code c =? 179)%N
  || (code c =? 181)%N || (code c =? 185)%N || (code c =? 186)%N
  || in_range 188 190 c || in_range 192 214 c || in_range 216 246 c
  || in_range 248 255 c.

(** [\w] of [re]: alphanumeric or underscore. *)
Definition is_word (c : ascii) : bool := is_alnum c || (code c =? 95)%N.

(** [str.lower] on one character: A-Z and the Latin-1 capitals. *)
Definition lower_char (c : ascii) : ascii :=
  if in_range 65 90 c || (in_range 192 222 c && negb (code c =? 215)%N)
  then ascii_of_N (code c + 32) else c.

Fixpoint lower (s : string) : string :=
  match s with
  | "" => ""
  | String c s' => String (lower_char c) (lower s')
  end.

Fixpoint lstrip (s : string) : string :=
  match s with
  | "" => ""
  | String c s' => if is_space c then lstrip s' else s
  end.

Fixpoint rstrip (s : string) : string :=
  match s with
  | "" => ""
  | String c s' =>
      match rstrip s' with
      | "" => if is_space c then "" else String c ""
      | r => String c r
      end
  end.

(** [s.strip()] *)
Definition strip (s : string) : string := rstrip (lstrip s).

Fixpoint drop (n : nat) (s : string) : string :=
  match n, s with
  | O, _ => s
  | S n', String _ s' => drop n' s'
  | S _, "" => ""
  end.

(** [s.split(sep, 1)] when [sep] occurs in [s]: the text before and after
    the first occurrence; [None] when [sep] does not occur. *)
Fixpoint split_first (sep s : string) : option (string * string) :=
  if String.prefix sep s then Some ("", drop (String.length sep) s)
  else match s with
       | "" => None
       | String c s' =>
           match split_first sep s' with
           | Some (a, b) => Some (String c a, b)
           | None => None
           end
       end.

(** [sub in s] *)
Definition contains (sub s : string) : bool :=
  match split_first sub s with Some _ => true | None => false end.

(** [s.rsplit(c, 1)] for a one-character separator occurring in [s]: the
    text before and after the last occurrence. *)
Fixpoint rsplit_char (c : ascii) (s : string) : option (string * string) :=
  match s with
  | "" => None
  | String a s' =>
      match rsplit_char c s' with
      | Some (h, p) => Some (String a h, p)
      | None => if Ascii.eqb a c then Some ("", s') else None
      end
  end.

(** [s.split(c)] for a one-character separator. *)
Fixpoint split_char (c : ascii) (s : string) : list string :=
  match s with
  | "" => [""]
  | String a s' =>
      match split_char c s' with
      | cur :: rest =>
          if Ascii.eqb a c then "" :: cur :: rest else String a cur :: rest
      | [] => []
      end
  end.

(** [sep.join(l)] *)
Fixpoint join (sep : string) (l : list string) : string :=
  match l with
  | [] => ""
  | [x] => x
  | x :: rest => x +:+ sep +:+ join sep rest
  end.

(** Digits of a decimal literal, single underscores allowed between two
    digits ([prev] tells whether the previous character was a digit). *)
Fixpoint parse_digits (prev : bool) (acc : Z) (s : string) : option Z :=
  match s with
  | "" => if prev then Some acc else None
  | String c s' =>
      if is_digit c then parse_digits true (acc * 10 + digit_val c) s'
      else if Ascii.eqb c "_" && prev then parse_digits false acc s'
      else None
  end.

(** The white space [int()] skips around a number, on U+0000..U+00FF:
    TAB..CR, SPACE, NEL and NBSP.  The separators FS..US, which [str.strip]
    removes, are not among them: [int] rejects a text that holds one. *)
Definition is_int_space (c : ascii) : bool :=
  in_range 9 13 c || (code c =? 32)%N || (code c =? 133)%N || (code c =? 160)%N.

Fixpoint int_lstrip (s : string) : string :=
  match s with
  | "" => ""
  | String c s' => if is_int_space c then int_lstrip s' else s
  end.

Fixpoint int_rstrip (s : string) : string :=
  match s with
  | "" => ""
  | String c s' =>
      match int_rstrip s' with
      | "" => if is_int_space c then "" else String c ""
      | r => String c r
      end
  end.

(** The number of digits of a literal, underscores not counted. *)
Fixpoint digit_count (s : string) : Z :=
  match s with
  | "" => 0
  | String c s' => (if is_digit c then 1 else 0) + digit_count s'
  end.

(** [sys.get_int_max_str_digits()], which the program leaves at its
    default. *)
Definition max_str_digits : Z := 4300.

(** The digits of [int(s)] after the sign: a literal of more than
    [max_str_digits] digits is refused. *)
Definition int_digits (d : string) : option Z :=
  if (max_str_digits <? digit_count d)%Z then None
  else parse_digits false 0 d.

(** [int(s)]: surrounding white space, an optional sign, then digits.
    [None] stands for [ValueError]. *)
Definition py_int (s : string) : option Z :=
  match int_rstrip (int_lstrip s) with
  | String "-" d => Z.opp <$> int_digits d
  | String "+" d => int_digits d
  | d => int_digits d
  end.

(** [str(n)] for an integer. *)
Definition str_of_Z (n : Z) : string := NilZero.string_of_int (Z.to_int n).

End PyStr.

Import PyStr.

(** ** Regular expressions ([re]) *)

Module Re.

(** The part of the pattern syntax the two scraper patterns use. *)
Inductive regex : Type :=
| Eps                                           (* empty pattern *)
| Chr (c : ascii)                               (* a literal character *)
| Cls (p : ascii -> bool)                       (* a character class *)
| Seq (r1 r2 : regex)                           (* r1 r2 *)
| Alt (r1 r2 : regex)                           (* r1|r2 *)
| Rep (r : regex) (lo : nat) (hi : option nat)  (* r{lo,hi}, greedy *)
| Grp (n : nat) (r : regex)                     (* capture group n *)
| Bol                                           (* ^ *)
| Eol.                                          (* $ *)

(** Captured groups, most recent first. *)
Definition captures := list (nat * string).

Fixpoint take (n : nat) (s : string) : string :=
  match n, s with
  | S n', String c s' => String c (take n' s')
  | _, _ => ""
  end.

(** [m.group(n)]; a group that did not take part reads as the empty
    string, as in the tuples [findall] returns. *)
Fixpoint group (n : nat) (caps : captures) : string :=
  match caps with
  | [] => ""
  | (k, v) :: rest => if Nat.eqb k n then v else group n rest
  end.

Section Matcher.
Context {R : Type}.

(** A continuation receives the position reached, the text that is left
    and the groups captured so far. *)
Definition cont := nat -> string -> captures -> option R.

(** Greedy repetition of [body]: up to [rounds] more rounds, of which
    [lo] are still required; one more round is tried before leaving. *)
Fixpoint rep_loop (body : nat -> string -> captures -> cont -> option R)
    (k : cont) (rounds lo : nat) (i : nat) (s : string) (caps : captures)
    {struct rounds} : option R :=
  match rounds with
  | O => match lo with O => k i s caps | S _ => None end
  | S rounds' =>
      match body i s caps
              (fun i' s' caps' => rep_loop body k rounds' (Nat.pred lo) i' s' caps') with
      | Some x => Some x
      | None => match lo with O => k i s caps | S _ => None end
      end
  end.

(** [rmatch r i s caps k]: match [r] at offset [i], where [s] is the
    text from [i] on, then continue with [k]; the first success in
    backtracking order is the result.  An unbounded repetition is
    given as many rounds as there are characters left, which is exact
    for a body that cannot match the empty string. *)
Fixpoint rmatch (r : regex) (i : nat) (s : string) (caps : captures)
    (k : cont) {struct r} : option R :=
  match r with
  | Eps => k i s caps
  | Chr c =>
      match s with
      | String a s' => if Ascii.eqb a c then k (S i) s' caps else None
      | "" => None
      end
  | Cls p =>
      match s with
      | String a s' => if p a then k (S i) s' caps else None
      | "" => None
      end
  | Seq r1 r2 =>
      rmatch r1 i s caps (fun i' s' caps' => rmatch r2 i' s' caps' k)
  | Alt r1 r2 =>
      match rmatch r1 i s caps k with
      | Some x => Some x
      | None => rmatch r2 i s caps k
      end
  | Rep r' lo hi =>
      rep_loop (rmatch r') k
        (match hi with Some h => h | None => String.length s end) lo i s caps
  | Grp n r' =>
      rmatch r' i s caps
        (fun i' s' caps' => k i' s' ((n, take (i' - i) s) :: caps'))
  | Bol => match i with O => k i s caps | S _ => None end
  | Eol =>
      match s with
      | "" => k i s caps
      | String "010" "" => k i s caps
      | _ => None
      end
  end.
End Matcher.

(** [pattern.match(text, i)]: the groups and the end offset. *)
Definition match_at (r : regex) (i : nat) (s : string) : option (captures * nat) :=
  rmatch r i s [] (fun j _ caps => Some (caps, j)).

(** The scan of [pattern.findall]: [s] is the text from offset [i] on and
    [skip] counts the characters still covered by the previous match. *)
Fixpoint findall_from (r : regex) (skip i : nat) (s : string) : list captures :=
  match skip with
  | S skip' =>
      match s with
      | "" => []
      | String _ s' => findall_from r skip' (S i) s'
      end
  | O =>
      match match_at r i s with
      | Some (caps, j) =>
          caps :: match s with
                  | "" => []
                  | String _ s' => findall_from r (j - i - 1) (S i) s'
                  end
      | None =>
          match s with
          | "" => []
          | String _ s' => findall_from r 0 (S i) s'
          end
      end
  end.

(** [pattern.findall(text)], one entry of captured groups per match. *)
Definition findall (r : regex) (text : string) : list captures :=
  findall_from r 0 0 text.

(** [r{lo,hi}], [r+] and [r?] *)
Definition rep (r : regex) (lo hi : nat) : regex := Rep r lo (Some hi).
Definition plus (r : regex) : regex := Rep r 1 None.
Definition opt (r : regex) : regex := Rep r 0 (Some 1%nat).

(** A literal string as a pattern. *)
Fixpoint lit (s : string) : regex :=
  match s with
  | "" => Eps
  | String c s' => Seq (Chr c) (lit s')
  end.

(** *** What a match is

    The matcher is compared with a relation between the state before a
    sub-pattern and the state after it, and with the set of words a
    pattern can consume. *)

Definition mstate : Type := nat * string * captures.

(** A continuation applied to a state. *)
Definition after {R : Type} (k : @cont R) (b : mstate) : option R :=
  k b.1.1 b.1.2 b.2.

Definition within (n : nat) (hi : option nat) : Prop :=
  match hi with Some h => (n <= h)%nat | None => True end.

Fixpoint iter_rel (step : mstate -> mstate -> Prop) (n : nat) (a b : mstate) : Prop :=
  match n with
  | O => b = a
  | S n' => exists c, step a c /\ iter_rel step n' c b
  end.

Fixpoint matches (r : regex) (a b : mstate) : Prop :=
  match r with
  | Eps => b = a
  | Chr c => exists i s caps, a = (i, String c s, caps) /\ b = (S i, s, caps)
  | Cls p =>
      exists i x s caps, p x = true /\ a = (i, String x s, caps) /\ b = (S i, s, caps)
  | Seq r1 r2 => exists c, matches r1 a c /\ matches r2 c b
  | Alt r1 r2 => matches r1 a b \/ matches r2 a b
  | Rep r' lo hi =>
      exists n, (lo <= n)%nat /\ within n hi /\ iter_rel (matches r') n a b
  | Grp n r' =>
      exists i s caps, matches r' a (i, s, caps)
        /\ b = (i, s, (n, take (i - a.1.1) a.1.2) :: caps)
  | Bol => a.1.1 = O /\ b = a
  | Eol => (a.1.2 = "" \/ a.1.2 = String "010" "") /\ b = a
  end.

Fixpoint iter_lang (P : string -> Prop) (n : nat) (w : string) : Prop :=
  match n with
  | O => w = ""
  | S n' => exists u v, w = u +:+ v /\ P u /\ iter_lang P n' v
  end.

(** The words a pattern consumes. *)
Fixpoint lang (r : regex) (w : string) : Prop :=
  match r with
  | Eps | Bol | Eol => w = ""
  | Chr c => w = String c ""
  | Cls p => exists x, p x = true /\ w = String x ""
  | Seq r1 r2 => exists u v, w = u +:+ v /\ lang r1 u /\ lang r2 v
  | Alt r1 r2 => lang r1 w \/ lang r2 w
  | Rep r' lo hi =>
      exists n, (lo <= n)%nat /\ within n hi /\ iter_lang (lang r') n w
  | Grp _ r' => lang r' w
  end.

(** All characters of a word satisfy [P]. *)
Definition all_chars (P : ascii -> Prop) (w : string) : Prop :=
  forall c, In c (list_ascii_of_string w) -> P c.

(** Every character a pattern can consume satisfies [P]. *)
Fixpoint alphabet (P : ascii -> Prop) (r : regex) : Prop :=
  match r with
  | Eps | Bol | Eol => True
  | Chr c => P c
  | Cls p => forall x, p x = true -> P x
  | Seq r1 r2 | Alt r1 r2 => alphabet P r1 /\ alphabet P r2
  | Rep r' _ _ | Grp _ r' => alphabet P r'
  end.

Fixpoint no_groups (r : regex) : bool :=
  match r with
  | Eps | Chr _ | Cls _ | Bol | Eol => true
  | Seq r1 r2 | Alt r1 r2 => no_groups r1 && no_groups r2
  | Rep r' _ _ => no_groups r'
  | Grp _ _ => false
  end.

End Re.

Import Re.

(** ** The scraper ([proxy_scraper.py]) *)

Module ProxyScraper.

Definition digit : regex := Cls is_digit.
Definition non_digit : regex := Cls (fun c => negb (is_digit c)).
Definition word : regex := Cls is_word.

(** [(?:\d{1,3}\.){3}\d{1,3}] *)
Definition ip_re : regex :=
  Seq (rep (Seq (rep digit 1 3) (Chr ".")) 3 3) (rep digit 1 3).

(** [\d{2,5}] *)
Definition port_re : regex := rep digit 2 5.

(** [self.proxy_pattern]:
    [(?:^|\D)((?:\d{1,3}\.){3}\d{1,3}):(\d{2,5})(?:\D|$)] *)
Definition proxy_pattern : regex :=
  Seq (Alt Bol non_digit)
    (Seq (Grp 1 ip_re)
       (Seq (Chr ":")
          (Seq (Grp 2 port_re) (Alt non_digit Eol)))).

(** [self.protocol_pattern]:
    [(https?|socks[45])://(?:[\w]+:[\w]+@)?((?:\d{1,3}\.){3}\d{1,3}):(\d{2,5})] *)
Definition scheme_re : regex :=
  Alt (Seq (lit "http") (opt (Chr "s")))
      (Seq (lit "socks") (Cls (fun c => Ascii.eqb c "4" || Ascii.eqb c "5"))).

Definition protocol_pattern : regex :=
  Seq (Grp 1 scheme_re)
    (Seq (lit "://")
       (Seq (opt (Seq (plus word) (Seq (Chr ":") (Seq (plus word) (Chr "@")))))
          (Seq (Grp 2 ip_re) (Seq (Chr ":") (Grp 3 port_re))))).

(** [0 <= int(part) <= 255], [False] when [int] raises. *)
Definition octet_ok (part : string) : bool :=
  match py_int part with
  | Some v => (0 <=? v) && (v <=? 255)
  | None => false
  end.

Definition _is_valid_ip (ip : string) : bool :=
  let parts := split_char "." ip in
  if negb (Nat.eqb (length parts) 4%nat) then false
  else forallb octet_ok parts.

Definition _is_valid_port (port : string) : bool :=
  match py_int port with
  | Some port_num => (1 <=? port_num) && (port_num <=? 65535)
  | None => false
  end.

(** The candidate strings the two loops add. *)
Definition qualified (protocol ip port : string) : string :=
  protocol +:+ "://" +:+ ip +:+ ":" +:+ port.
Definition bare (ip port : string) : string := ip +:+ ":" +:+ port.

Definition add_protocol_match (proxies : gset string) (m : captures) : gset string :=
  let protocol := group 1 m in
  let ip := group 2 m in
  let port := group 3 m in
  if _is_valid_ip ip && _is_valid_port port
  then proxies ∪ {[ qualified protocol ip port ]} else proxies.

Definition add_basic_match (proxies : gset string) (m : captures) : gset string :=
  let ip := group 1 m in
  let port := group 2 m in
  if _is_valid_ip ip && _is_valid_port port
  then proxies ∪ {[ bare ip port ]} else proxies.

(** The two passes over the text of a response with status 200. *)
Definition extract (text : string) : gset string :=
  let proxies := foldl add_protocol_match ∅ (findall protocol_pattern text) in
  foldl add_basic_match proxies (findall proxy_pattern text).

(** What [session.get(url)] gives: a response, a timeout or another
    exception. *)
Inductive fetched : Type :=
| Response (status : Z) (text : string)
| FetchTimeout
| FetchError.

Definition _scrape_from_url (r : fetched) : gset string :=
  match r with
  | Response status text => if status =? 200 then extract text else ∅
  | FetchTimeout | FetchError => ∅
  end.

Definition scenario_A : string :=
  "proxy list: 1.2.3.4:8080 http://5.6.7.8:3128 bad:port 999.1.1.1:80".

End ProxyScraper.

Import ProxyScraper.

(** ** The network, as far as the checkers see it *)

Module Net.

(** One GET issued by a checker. *)
Record request : Type := {
  connector : option string;   (* URL of the SOCKS connector, if any *)
  url : string;                (* test URL *)
  via : option string;         (* the [proxy=] argument *)
  allow_redirects : bool
}.

(** What the request comes to: a timeout, another exception, or a response
    with its status, the seconds elapsed when it arrived, its headers and
    its text ([None] when reading the text raises). *)
Inductive outcome : Type :=
| TimedOut
| Raised
| Reply (status : Z) (elapsed : Q) (headers : list (string * string))
        (text : option string).

Definition network := request -> outcome.

(** [q > 0] on floats. *)
Definition positive_time (q : Q) : bool := (0 <? Qnum q)%Z.

(** Nearest integer, ties to even. *)
Definition round_half_even (q : Q) : Z :=
  let n := Qnum q in
  let d := Z.pos (Qden q) in
  let f := (n / d)%Z in
  let r2 := (2 * (n mod d))%Z in
  if (r2 <? d)%Z then f
  else if (d <? r2)%Z then (f + 1)%Z
  else if Z.even f then f else (f + 1)%Z.

(** [round(q, 3)] *)
Definition round3 (q : Q) : Q := Qmake (round_half_even (q * 1000)) 1000.

(** [min(times)] of a non-empty list: the first least element. *)
Fixpoint min_time (t : Q) (ts : list Q) : Q :=
  match ts with
  | [] => t
  | u :: ts' => min_time (if Qle_bool t u then t else u) ts'
  end.

(** A checked proxy, the [result] dictionary of both checkers. *)
Record result : Type := {
  proxy : string;
  working : bool;
  protocols : list string;
  anonymity : string;
  response_time : option Q
}.

(** A call of the progress callback. *)
Record progress : Type := {
  checked : Z;
  total : Z;
  working_so_far : Z
}.

End Net.

Import Net.

(** ** The thorough checker ([proxy_checker.py]) *)

Module ProxyChecker.

(** [Config.TEST_URLS.get(protocol, 'http://httpbin.org/ip')] *)
Definition test_url (protocol : string) : string :=
  if String.eqb protocol "https" then "https://httpbin.org/ip"
  else "http://httpbin.org/ip".

Definition is_socks (protocol : string) : bool :=
  String.eqb protocol "socks4" || String.eqb protocol "socks5".

Definition is_http (protocol : string) : bool :=
  String.eqb protocol "http" || String.eqb protocol "https".

(** (url, protocol, host, port) of a proxy string; a port that [int]
    rejects and a missing port are both 8080. *)
Definition _parse_proxy (proxy : string) : string * string * string * Z :=
  let proxy := strip proxy in
  let '(protocol, host_port) :=
    match split_first "://" proxy with
    | Some (scheme, rest) => (lower scheme, rest)
    | None => ("http", proxy)
    end in
  let '(host, port) :=
    match rsplit_char ":" host_port with
    | Some (host, port_str) =>
        (host, match py_int port_str with Some port => port | None => 8080%Z end)
    | None => (host_port, 8080%Z)
    end in
  let proxy_url := protocol +:+ "://" +:+ host +:+ ":" +:+ str_of_Z port in
  (proxy_url, protocol, host, port).

Definition proxy_headers : list string :=
  ["via"; "x-forwarded-for"; "forwarded-for"; "x-forwarded";
   "client-ip"; "forwarded"; "proxy-connection"].

(** [real_ip] is [self.real_ip]; [None] and the empty string are both
    false in a condition. *)
Definition _detect_anonymity (real_ip : option string)
    (headers : list (string * string)) (response_text : string) : string :=
  let header_str := join " " (map (fun h => lower (snd h)) headers) in
  let response_lower := lower response_text in
  let truthy := match real_ip with Some (String _ _) => true | _ => false end in
  let ip := lower (default "" real_ip) in
  if truthy && contains ip response_lower then "transparent"
  else if truthy && contains ip header_str then "transparent"
  else if existsb (fun header => contains header header_str) proxy_headers
  then "anonymous"
  else "elite".

Definition protocols_to_test (detected_protocol : string) : list string :=
  if is_socks detected_protocol then [detected_protocol]
  else if String.eqb detected_protocol "https" then ["https"; "http"]
  else ["http"; "https"].

(** The request of one round of the loop. *)
Definition probe (protocol host : string) (port : Z) : request :=
  let hp := host +:+ ":" +:+ str_of_Z port in
  {| connector :=
       if is_socks protocol
       then Some ((if String.eqb protocol "socks4" then "socks4" else "socks5")
                  +:+ "://" +:+ hp)
       else None;
     url := test_url protocol;
     via := if is_http protocol then Some ("http://" +:+ hp) else None;
     allow_redirects := true |}.

(** A response with status 200 whose text could be read. *)
Definition succeeded (o : outcome) : bool :=
  match o with
  | Reply status _ _ (Some _) => (status =? 200)%Z
  | _ => false
  end.

(** One round of [for protocol in protocols_to_test]: the dictionary and
    the requests attempted so far. *)
Definition test_protocol (net : network) (real_ip : option string)
    (host : string) (port : Z) (acc : result * list request)
    (protocol : string) : result * list request :=
  let '(res, sent) := acc in
  let rq := probe protocol host port in
  let sent := (sent ++ [rq])%list in
  match net rq with
  | Reply status elapsed headers (Some response_text) =>
      if (status =? 200)%Z then
        ({| proxy := proxy res;
            working := true;
            protocols := (protocols res ++ [protocol])%list;
            anonymity :=
              if String.eqb (anonymity res) "unknown"
              then _detect_anonymity real_ip headers response_text
              else anonymity res;
            response_time := Some (round3 elapsed) |}, sent)
      else (res, sent)
  | Reply _ _ _ None => (res, sent)
  | TimedOut => (res, sent)
  | Raised => (res, sent)
  end.

(** The loop of [_check_proxy]. *)
Definition run_probes (net : network) (real_ip : option string)
    (proxy : string) : result * list request :=
  let '(_, detected_protocol, host, port) := _parse_proxy proxy in
  let result :=
    {| proxy := host +:+ ":" +:+ str_of_Z port;
       working := false;
       protocols := [];
       anonymity := "unknown";
       response_time := None |} in
  foldl (test_protocol net real_ip host port) (result, [])
        (protocols_to_test detected_protocol).

(** The [result] dictionary when the loop ends. *)
Definition checked_result (net : network) (real_ip : option string)
    (proxy : string) : result :=
  fst (run_probes net real_ip proxy).

(** The requests the loop attempted, in order. *)
Definition probes_issued (net : network) (real_ip : option string)
    (proxy : string) : list request :=
  snd (run_probes net real_ip proxy).

Definition _check_proxy (net : network) (real_ip : option string)
    (proxy : string) : option result :=
  let result := checked_result net real_ip proxy in
  if working result then Some result else None.

(** The checker object. *)
Record state : Type := {
  results : gmap string (list result);
  checked_count : Z;
  total_count : Z;
  working_count : Z;
  real_ip : option string;
  reported : list progress    (* calls of the progress callback, oldest first *)
}.

Definition categories : list string :=
  ["http"; "https"; "socks4"; "socks5";
   "elite"; "anonymous"; "transparent"; "all_working"].

(** [ProxyChecker()] *)
Definition init : state :=
  {| results := list_to_map (map (fun c => (c, [])) categories);
     checked_count := 0; total_count := 0; working_count := 0;
     real_ip := None; reported := [] |}.

(** [self.results[key].append(result)] for a key that is present. *)
Definition append_to (key : string) (r : result)
    (m : gmap string (list result)) : gmap string (list result) :=
  match m !! key with
  | Some l => <[key := (l ++ [r])%list]> m
  | None => m
  end.

Definition _categorize_result (r : result)
    (m : gmap string (list result)) : gmap string (list result) :=
  let m := append_to "all_working" r m in
  let m := foldl (fun m protocol => append_to protocol r m) m (protocols r) in
  append_to (anonymity r) r m.

Definition report (st : state) : progress :=
  {| checked := checked_count st; total := total_count st;
     working_so_far := working_count st |}.

Definition _check_with_progress (net : network) (st : state) (proxy : string) : state :=
  let result := _check_proxy net (real_ip st) proxy in
  let checked' := (checked_count st + 1)%Z in
  let st :=
    {| results := match result with
                  | Some r => _categorize_result r (results st)
                  | None => results st
                  end;
       checked_count := checked';
       total_count := total_count st;
       working_count := match result with
                        | Some _ => (working_count st + 1)%Z
                        | None => working_count st
                        end;
       real_ip := real_ip st;
       reported := reported st |} in
  if (checked' mod 10 =? 0)%Z
  then {| results := results st; checked_count := checked_count st;
          total_count := total_count st; working_count := working_count st;
          real_ip := real_ip st; reported := (reported st ++ [report st])%list |}
  else st.

(** [check_all(proxies)]: the new state of the checker and the mapping
    returned.  [proxies] lists the set in the order in which the checks
    complete; [detected_ip] is what [_get_real_ip] returns.  Batches only
    bound how many checks are in flight and do not show in the result. *)
Definition check_all (net : network) (detected_ip : string) (st : state)
    (proxies : list string) : state * gmap string (list result) :=
  match proxies with
  | [] => (st, results st)
  | _ =>
      let st :=
        {| results := (fun _ : list result => []) <$> results st;
           checked_count := 0;
           total_count := Z.of_nat (length proxies);
           working_count := 0;
           real_ip := Some detected_ip;
           reported := reported st |} in
      let st := foldl (_check_with_progress net) st proxies in
      let st :=
        {| results := results st; checked_count := checked_count st;
           total_count := total_count st; working_count := working_count st;
           real_ip := real_ip st; reported := (reported st ++ [report st])%list |} in
      (st, results st)
  end.

(** [clear()] *)
Definition clear (st : state) : state :=
  {| results := (fun _ : list result => []) <$> results st;
     checked_count := 0; total_count := 0; working_count := 0;
     real_ip := real_ip st; reported := reported st |}.

End ProxyChecker.

(** ** The fast checker ([proxy_checker_fast.py]) *)

Module FastProxyChecker.

Definition TEST_URL : string := "http://1.1.1.1".
Definition TEST_URL_HTTPS : string := "https://1.1.1.1".

(** [response.status in [200, 204, 301, 302]] *)
Definition accepted (status : Z) : bool :=
  existsb (Z.eqb status) [200; 204; 301; 302]%Z.

(** The seconds a quick check returns, [None] for a rejected status and
    for any exception. *)
Definition quick (o : outcome) : option Q :=
  match o with
  | Reply status elapsed _ _ => if accepted status then Some elapsed else None
  | TimedOut | Raised => None
  end.

Definition http_request (proxy : string) : request :=
  {| connector := None; url := TEST_URL;
     via := Some ("http://" +:+ proxy); allow_redirects := false |}.

Definition https_request (proxy : string) : request :=
  {| connector := None; url := TEST_URL_HTTPS;
     via := Some ("http://" +:+ proxy); allow_redirects := false |}.

Definition socks_request (proxy version : string) : request :=
  {| connector := Some ("socks" +:+ version +:+ "://" +:+ proxy);
     url := TEST_URL; via := None; allow_redirects := true |}.

Definition _quick_check_http (net : network) (proxy : string) : option Q :=
  quick (net (http_request proxy)).

Definition _quick_check_https (net : network) (proxy : string) : option Q :=
  quick (net (https_request proxy)).

Definition _quick_check_socks (net : network) (proxy version : string) : option Q :=
  quick (net (socks_request proxy version)).

Definition protocol_names : list string := ["http"; "https"; "socks4"; "socks5"].

(** The requests behind [tasks], in order. *)
Definition tasks (FAST_MODE : bool) (proxy : string) : list request :=
  ([http_request proxy; https_request proxy]
   ++ (if negb FAST_MODE
       then [socks_request proxy "4"; socks_request proxy "5"] else []))%list.

(** [for i, res in enumerate(results)]: a float above zero adds the
    protocol of its position and its time. *)
Fixpoint process (names : list string) (results : list (option Q))
    : list (string * Q) :=
  match names, results with
  | name :: names', res :: results' =>
      match res with
      | Some t =>
          if positive_time t then (name, t) :: process names' results'
          else process names' results'
      | None => process names' results'
      end
  | _, _ => []
  end.

(** The [result] dictionary when [_parallel_check_proxy] ends. *)
Definition checked_result (net : network) (FAST_MODE : bool)
    (proxy : string) : result :=
  let results := map (fun rq => quick (net rq)) (tasks FAST_MODE proxy) in
  let hits := process protocol_names results in
  let times := map snd hits in
  {| proxy := proxy;
     working := match times with [] => false | _ :: _ => true end;
     protocols := map fst hits;
     anonymity := "anonymous";
     response_time :=
       match times with [] => None | t :: ts => Some (min_time t ts) end |}.

Definition _parallel_check_proxy (net : network) (FAST_MODE : bool)
    (proxy : string) : option result :=
  let result := checked_result net FAST_MODE proxy in
  if working result then Some result else None.

(** The checker object; [results] is a [defaultdict(list)]. *)
Record state : Type := {
  results : gmap string (list result);
  checked_count : Z;
  total_count : Z;
  working_count : Z;
  FAST_MODE : bool;
  reported : list progress
}.

(** [FastProxyChecker()] *)
Definition init : state :=
  {| results := ∅; checked_count := 0; total_count := 0; working_count := 0;
     FAST_MODE := true; reported := [] |}.

(** [self.results['all_working'].append(result)]: reading a missing key
    of a [defaultdict] creates it. *)
Definition append_default (key : string) (r : result)
    (m : gmap string (list result)) : gmap string (list result) :=
  <[key := (default [] (m !! key) ++ [r])%list]> m.

(** [if key in self.results: self.results[key].append(result)] *)
Definition append_present (key : string) (r : result)
    (m : gmap string (list result)) : gmap string (list result) :=
  match m !! key with
  | Some l => <[key := (l ++ [r])%list]> m
  | None => m
  end.

Definition _categorize_result (r : result)
    (m : gmap string (list result)) : gmap string (list result) :=
  let m := append_default "all_working" r m in
  let m := foldl (fun m protocol => append_present protocol r m) m (protocols r) in
  append_present (anonymity r) r m.

Definition report (st : state) : progress :=
  {| checked := checked_count st; total := total_count st;
     working_so_far := working_count st |}.

Definition _check_with_progress (net : network) (st : state) (proxy : string) : state :=
  let result := _parallel_check_proxy net (FAST_MODE st) proxy in
  let checked' := (checked_count st + 1)%Z in
  let st :=
    {| results := match result with
                  | Some r => _categorize_result r (results st)
                  | None => results st
                  end;
       checked_count := checked';
       total_count := total_count st;
       working_count := match result with
                        | Some _ => (working_count st + 1)%Z
                        | None => working_count st
                        end;
       FAST_MODE := FAST_MODE st;
       reported := reported st |} in
  if (checked' mod 50 =? 0)%Z
  then {| results := results st; checked_count := checked_count st;
          total_count := total_count st; working_count := working_count st;
          FAST_MODE := FAST_MODE st;
          reported := (reported st ++ [report st])%list |}
  else st.

(** [check_all(proxies, fast_mode)]: the new state and [dict(self.results)].
    [proxies] lists the set in the order in which the checks complete;
    [BATCH_SIZE] is positive. *)
Definition check_all (net : network) (st : state) (proxies : list string)
    (fast_mode : bool) : state * gmap string (list result) :=
  let st :=
    {| results := ∅;
       checked_count := 0;
       total_count := Z.of_nat (length proxies);
       working_count := 0;
       FAST_MODE := fast_mode;
       reported := reported st |} in
  let st := foldl (_check_with_progress net) st proxies in
  let st :=
    {| results := results st; checked_count := checked_count st;
       total_count := total_count st; working_count := working_count st;
       FAST_MODE := FAST_MODE st;
       reported := (reported st ++ [report st])%list |} in
  (st, results st).

End FastProxyChecker.

(** ** Dates and times ([datetime], [CURRENT_TIMESTAMP]) *)

Module DateTime.
Local Open Scope Z_scope.

Record datetime : Type := {
  year : Z; month : Z; day : Z;
  hour : Z; minute : Z; second : Z; microsecond : Z
}.

(** Days from 1970-01-01 to a date of the proleptic Gregorian calendar. *)
Definition days_from_civil (y m d : Z) : Z :=
  let y' := if m <=? 2 then y - 1 else y in
  let era := y' / 400 in
  let yoe := y' - era * 400 in
  let doy := (153 * (if 2 <? m then m - 3 else m + 9) + 2) / 5 + d - 1 in
  let doe := yoe * 365 + yoe / 4 - yoe / 100 + doy in
  era * 146097 + doe - 719468.

Definition civil_from_days (z : Z) : Z * Z * Z :=
  let z := z + 719468 in
  let era := z / 146097 in
  let doe := z - era * 146097 in
  let yoe := (doe - doe / 1460 + doe / 36524 - doe / 146096) / 365 in
  let doy := doe - (365 * yoe + yoe / 4 - yoe / 100) in
  let mp := (5 * doy + 2) / 153 in
  let d := doy - (153 * mp + 2) / 5 + 1 in
  let m := if mp <? 10 then mp + 3 else mp - 9 in
  (if m <=? 2 then yoe + era * 400 + 1 else yoe + era * 400, m, d).

(** Seconds from 1970-01-01 00:00:00 on the clock the value was read on. *)
Definition to_seconds (t : datetime) : Z :=
  days_from_civil (year t) (month t) (day t) * 86400
  + hour t * 3600 + minute t * 60 + second t.

(** [t - timedelta(seconds=n)]; [None] stands for the [OverflowError] of
    a date before year 1 or after year 9999. *)
Definition minus_seconds (t : datetime) (n : Z) : option datetime :=
  let total := to_seconds t - n in
  let days := total / 86400 in
  let rest := total mod 86400 in
  let '(y, m, d) := civil_from_days days in
  if (1 <=? y) && (y <=? 9999)
  then Some {| year := y; month := m; day := d;
               hour := rest / 3600; minute := rest mod 3600 / 60;
               second := rest mod 60; microsecond := microsecond t |}
  else None.

(** A number in [width] decimal digits, zero-padded. *)
Fixpoint pad (width : nat) (n : Z) : string :=
  match width with
  | O => ""
  | S w => pad w (n / 10) +:+ String (ascii_of_N (Z.to_N (48 + n mod 10))) ""
  end.

Definition date_text (t : datetime) : string :=
  pad 4 (year t) +:+ "-" +:+ pad 2 (month t) +:+ "-" +:+ pad 2 (day t).

Definition time_text (t : datetime) : string :=
  pad 2 (hour t) +:+ ":" +:+ pad 2 (minute t) +:+ ":" +:+ pad 2 (second t).

(** [t.isoformat()]: the fraction is left out when it is zero. *)
Definition isoformat (t : datetime) : string :=
  date_text t +:+ "T" +:+ time_text t
  +:+ (if microsecond t =? 0 then "" else "." +:+ pad 6 (microsecond t)).

(** SQLite's [CURRENT_TIMESTAMP] at the UTC time [t]. *)
Definition current_timestamp (t : datetime) : string :=
  date_text t +:+ " " +:+ time_text t.

End DateTime.

Import DateTime.

(** ** The proxy cache ([database.py]) *)

Module Database.

(** A row of [proxy_cache]. [last_checked] holds the text SQLite stored. *)
Record cache_row : Type := {
  id : Z;
  proxy : string;
  protocols : string;
  anonymity : string;
  response_time : Q;
  last_checked : string;
  check_count : Z;
  success_count : Z;
  country : option string;
  is_working : bool
}.

(** The table in rowid order, with the counter AUTOINCREMENT keeps for it
    in [sqlite_sequence]: the last id used up. *)
Record table : Type := {
  rows : list cache_row;
  last_id : Z
}.

Definition empty : table := {| rows := []; last_id := 0 |}.

Definition has_proxy (p : string) (r : cache_row) : bool := String.eqb (proxy r) p.

(** The [DO UPDATE SET] branch of the upsert. *)
Definition refresh (protocols_str anonymity : string) (response_time : Q)
    (now : string) (r : cache_row) : cache_row :=
  {| id := id r; proxy := proxy r;
     protocols := protocols_str;
     anonymity := anonymity;
     response_time := response_time;
     last_checked := now;
     check_count := (check_count r + 1)%Z;
     success_count := (success_count r + 1)%Z;
     country := country r;
     is_working := true |}.

(** [cache_working_proxy] at the UTC time [now]; [committed] is false
    when the statement raises and the transaction is rolled back.  The
    [INSERT] takes the next id before it meets the conflict on [proxy], and
    the counter keeps it: an upsert that updates a row uses up an id as
    well. *)
Definition cache_working_proxy (now : datetime) (committed : bool) (db : table)
    (proxy : string) (protocols : list string) (anonymity : string)
    (response_time : Q) : table :=
  if negb committed then db else
  let protocols_str := join "," protocols in
  if existsb (has_proxy proxy) (rows db)
  then {| rows := map (fun r => if has_proxy proxy r
                                then refresh protocols_str anonymity response_time
                                             (current_timestamp now) r
                                else r) (rows db);
          last_id := (last_id db + 1)%Z |}
  else {| rows := (rows db ++
                   [{| id := (last_id db + 1)%Z; proxy := proxy;
                       protocols := protocols_str; anonymity := anonymity;
                       response_time := response_time;
                       last_checked := current_timestamp now;
                       check_count := 1; success_count := 1;
                       country := None; is_working := true |}])%list;
          last_id := (last_id db + 1)%Z |}.

(** The [SET] clause of [mark_proxy_dead]. *)
Definition dead (now : string) (r : cache_row) : cache_row :=
  {| id := id r; proxy := proxy r; protocols := protocols r;
     anonymity := anonymity r; response_time := response_time r;
     last_checked := now;
     check_count := (check_count r + 1)%Z;
     success_count := success_count r;
     country := country r;
     is_working := false |}.

Definition mark_proxy_dead (now : datetime) (committed : bool) (db : table)
    (proxy : string) : table :=
  if negb committed then db else
  {| rows := map (fun r => if has_proxy proxy r
                           then dead (current_timestamp now) r else r) (rows db);
     last_id := last_id db |}.

(** [a < b] on two TEXT values, as SQLite compares them. *)
Definition text_lt (a b : string) : bool := String.ltb a b.

(** [cleanup_old_cached_proxies(days)] when the local clock reads [now];
    [None] when computing the cutoff raises. *)
Definition cleanup_old_cached_proxies (now : datetime) (committed : bool)
    (db : table) (days : Z) : option table :=
  match minus_seconds now (days * 86400) with
  | None => None
  | Some cutoff_time =>
      Some (if negb committed then db else
            {| rows := filter (fun r => negb (text_lt (last_checked r)
                                                      (isoformat cutoff_time)))
                              (rows db);
               last_id := last_id db |})
  end.

(** Upper case of a-z, the folding of SQLite's [LIKE]. *)
Definition like_fold (c : ascii) : ascii :=
  if in_range 97 122 c then ascii_of_N (code c - 32) else c.

(** [text LIKE pat], with [%] and [_]. *)
Fixpoint sql_like (pat : string) : string -> bool :=
  match pat with
  | "" => fun s => match s with "" => true | String _ _ => false end
  | String "%" pat' =>
      fix any (s : string) : bool :=
        sql_like pat' s || match s with "" => false | String _ s' => any s' end
  | String "_" pat' =>
      fun s => match s with String _ s' => sql_like pat' s' | "" => false end
  | String c pat' =>
      fun s => match s with
               | String a s' => Ascii.eqb (like_fold c) (like_fold a) && sql_like pat' s'
               | "" => false
               end
  end.

(** [ORDER BY response_time ASC] over rows in rowid order: rows with equal
    times stay in rowid order. *)
Fixpoint insert_row (r : cache_row) (l : list cache_row) : list cache_row :=
  match l with
  | [] => [r]
  | x :: l' =>
      if negb (Qle_bool (response_time r) (response_time x))
      then x :: insert_row r l' else r :: l
  end.

Definition order_by_response_time (l : list cache_row) : list cache_row :=
  foldr insert_row [] l.

(** A Python argument used as a condition: [None] and [''] are false. *)
Definition given (a : option string) : option string :=
  match a with
  | Some (String c s) => Some (String c s)
  | _ => None
  end.

(** The [WHERE] clause built by [get_cached_proxies]. *)
Definition selected (cutoff : string) (protocol anonymity : option string)
    (r : cache_row) : bool :=
  is_working r
  && text_lt cutoff (last_checked r)
  && match given protocol with
     | Some p => sql_like ("%" +:+ p +:+ "%") (protocols r)
     | None => true
     end
  && match given anonymity with
     | Some a => String.eqb (Database.anonymity r) a
     | None => true
     end.

(** [get_cached_proxies(protocol, anonymity, max_age_hours)] when the
    local clock reads [now]; [None] when computing the cutoff raises. *)
Definition get_cached_proxies (now : datetime) (db : table)
    (protocol anonymity : option string) (max_age_hours : Z)
    : option (list cache_row) :=
  match minus_seconds now (max_age_hours * 3600) with
  | None => None
  | Some cutoff_time =>
      Some (order_by_response_time
              (filter (selected (isoformat cutoff_time) protocol anonymity)
                      (rows db)))
  end.

(** A call that writes to the cache, with the clock it reads and whether
    the storage layer commits it. *)
Inductive call : Type :=
| Upsert (proxy : string) (protocols : list string) (anonymity : string)
         (response_time : Q)
| MarkDead (proxy : string)
| Sweep (days : Z).

Definition run (db : table) (c : call * datetime * bool) : table :=
  match c with
  | (Upsert p protos anon rt, now, ok) => cache_working_proxy now ok db p protos anon rt
  | (MarkDead p, now, ok) => mark_proxy_dead now ok db p
  | (Sweep days, now, ok) => default db (cleanup_old_cached_proxies now ok db days)
  end.

Definition run_all (db : table) (cs : list (call * datetime * bool)) : table :=
  foldl run db cs.

End Database.


(** ** Loading sources and scraping them all ([proxy_scraper.py]) *)

Module ScraperRun.

(** Reading a file line by line: all of it, or the lines read before an
    exception (none when the file cannot be opened). *)
Inductive file_read : Type :=
| ReadAll (lines : list string)
| ReadFailed (lines : list string).

(** [line and not line.startswith('#')] *)
Definition is_source (line : string) : bool :=
match line with
| "" => false
| String c _ => negb (Ascii.eqb c "#")
end.

(** The lines the loop of [load_sources_from_file] appends. *)
Definition kept_lines (lines : list string) : list string :=
List.filter is_source (map strip lines).

(** A call of the progress callback of the scraper. *)
Record scrape_progress : Type := {
  scraped : Z;
  sources_done : Z;
  total_sources : Z
}.

(** The scraper object. *)
Record state : Type := {
  scraped_proxies : gset string;
  web_sources : list string;
  scraped_count : Z;
  sources_completed : Z;
  reported : list scrape_progress
}.

(** [ProxyScraper()] *)
Definition init : state :=
{| scraped_proxies := ∅; web_sources := []; scraped_count := 0;
   sources_completed := 0; reported := [] |}.

(** [load_sources_from_file(filepath)]: the new state and the number
    returned, which is 0 when reading raises. *)
Definition load_sources_from_file (st : state) (f : file_read) : state * Z :=
let with_sources l :=
  {| scraped_proxies := scraped_proxies st; web_sources := l;
     scraped_count := scraped_count st;
     sources_completed := sources_completed st; reported := reported st |} in
match f with
| ReadAll lines =>
    (with_sources (kept_lines lines), Z.of_nat (length (kept_lines lines)))
| ReadFailed lines => (with_sources (kept_lines lines), 0%Z)
end.

(** [add_sources(sources)] *)
Definition add_sources (st : state) (sources : list string) : state :=
{| scraped_proxies := scraped_proxies st;
   web_sources := (web_sources st ++ sources)%list;
   scraped_count := scraped_count st;
   sources_completed := sources_completed st; reported := reported st |}.

(** [_scrape_with_progress] once the fetch of one source has come back.
    [_scrape_from_url] parses the URL before its [try]: [parses url] says
    whether [urlparse(url)] returns.  When it raises, the task ends there
    with the exception, no request is made and the object is as it was. *)
Definition _scrape_with_progress (parses : string -> bool) (st : state)
    (url : string) (r : fetched) : state :=
if parses url then
  let proxies := _scrape_from_url r in
  let all := scraped_proxies st ∪ proxies in
  let done := (sources_completed st + 1)%Z in
  let count := Z.of_nat (size all) in
  {| scraped_proxies := all;
     web_sources := web_sources st;
     scraped_count := count;
     sources_completed := done;
     reported := (reported st ++
                  [{| scraped := count; sources_done := done;
                      total_sources := Z.of_nat (length (web_sources st)) |}])%list |}
else st.

(** A Python integer argument used as a condition: [None] and [0] are
    false. *)
Definition limit_given (max_proxies : option Z) : option Z :=
match max_proxies with
| Some n => if (n =? 0)%Z then None else Some n
| None => None
end.

(** [max_proxies and self.scraped_count >= max_proxies] *)
Definition limit_reached (max_proxies : option Z) (st : state) : bool :=
match limit_given max_proxies with
| Some n => (n <=? scraped_count st)%Z
| None => false
end.

(** The sources with their positions in [self.web_sources]. *)
Definition numbered (sources : list string) : list (nat * string) :=
imap pair sources.

(** [asyncio.gather] with [return_exceptions=True] on the tasks of a
    batch: its fetches, here in the order of the batch; a task is the
    position and the URL of its source, and [fetch i] is what the request
    for source number [i] comes to.  The exception of a task that raised is
    a value of the result, which [scrape_all] drops. *)
Definition gather (parses : string -> bool) (fetch : nat -> fetched)
    (tasks : list (nat * string)) (st : state) : state :=
foldl (fun st t => _scrape_with_progress parses st t.2 (fetch t.1)) st tasks.

(** The loop over [self.web_sources] with what is left to run after it:
    a batch runs when it holds ten tasks, and the loop stops after a batch
    that reaches the limit. *)
Fixpoint scrape_loop (parses : string -> bool) (fetch : nat -> fetched)
    (max_proxies : option Z) (tasks : list (nat * string))
    (sources : list (nat * string)) (st : state) : state :=
match sources with
| [] => gather parses fetch tasks st
| t :: rest =>
    let tasks := (tasks ++ [t])%list in
    if (10 <=? length tasks)%nat then
      let st := gather parses fetch tasks st in
      if limit_reached max_proxies st then st
      else scrape_loop parses fetch max_proxies [] rest st
    else scrape_loop parses fetch max_proxies tasks rest st
end.

(** [l[:n]] *)
Definition slice_to (n : Z) (l : list string) : list string :=
if (0 <=? n)%Z then firstn (Z.to_nat n) l
else firstn (Z.to_nat (Z.of_nat (length l) + n)) l.

(** [scrape_all(max_proxies)]: the new state and the set returned.
    [listing] is the order in which [list(...)] enumerates a set. *)
Definition scrape_all (parses : string -> bool) (fetch : nat -> fetched)
    (listing : gset string -> list string) (st : state)
    (max_proxies : option Z) : state * gset string :=
match web_sources st with
| [] => (st, ∅)
| _ =>
    let st :=
      {| scraped_proxies := ∅; web_sources := web_sources st;
         scraped_count := 0; sources_completed := 0;
         reported := reported st |} in
    let st := scrape_loop parses fetch max_proxies [] (numbered (web_sources st)) st in
    let st :=
      match limit_given max_proxies with
      | Some n =>
          if (n <? Z.of_nat (size (scraped_proxies st)))%Z then
            let cut : gset string :=
              list_to_set (slice_to n (listing (scraped_proxies st))) in
            {| scraped_proxies := cut; web_sources := web_sources st;
               scraped_count := Z.of_nat (size cut);
               sources_completed := sources_completed st;
               reported := reported st |}
          else st
      | None => st
      end in
    (st, scraped_proxies st)
end.

End ScraperRun.

(** ** The step-by-step check of the fast checker
    ([_fast_check_proxy] of [proxy_checker_fast.py]) *)

Module FastFallback.

(** A float used as a condition: [None] and zero are false. *)
Definition truthy (t : option Q) : option Q :=
match t with
| Some q => if (Qnum q =? 0)%Z then None else Some q
| None => None
end.

(** [min(a, b)] *)
Definition min2 (a b : Q) : Q := if Qle_bool a b then a else b.

Definition found (proxy : string) (protocols : list string) (t : Q) : result :=
{| proxy := proxy; working := true; protocols := protocols;
   anonymity := "anonymous"; response_time := Some t |}.

(** [_fast_check_proxy]: what it returns and the requests it made. *)
Definition _fast_check_proxy (net : network) (FAST_MODE : bool)
    (proxy : string) : option result * list request :=
let http := FastProxyChecker.http_request proxy in
match truthy (FastProxyChecker.quick (net http)) with
| Some http_time =>
    if negb FAST_MODE then
      let https := FastProxyChecker.https_request proxy in
      match truthy (FastProxyChecker.quick (net https)) with
      | Some https_time =>
          (Some (found proxy ["http"; "https"] (min2 http_time https_time)),
           [http; https])
      | None => (Some (found proxy ["http"] http_time), [http; https])
      end
    else (Some (found proxy ["http"] http_time), [http])
| None =>
    if negb FAST_MODE then
      let socks5 := FastProxyChecker.socks_request proxy "5" in
      match truthy (FastProxyChecker.quick (net socks5)) with
      | Some socks5_time => (Some (found proxy ["socks5"] socks5_time), [http; socks5])
      | None =>
          let socks4 := FastProxyChecker.socks_request proxy "4" in
          match truthy (FastProxyChecker.quick (net socks4)) with
          | Some socks4_time =>
              (Some (found proxy ["socks4"] socks4_time), [http; socks5; socks4])
          | None => (None, [http; socks5; socks4])
          end
      end
    else (None, [http])
end.

End FastFallback.

(** ** Further notions the statements below use *)

Module More.

(** The anonymity class [_check_proxy] reads off a successful response. *)
Definition detected (real_ip : option string) (o : outcome) : string :=
match o with
| Reply _ _ headers (Some text) => ProxyChecker._detect_anonymity real_ip headers text
| _ => "unknown"
end.

(** The header values as [_detect_anonymity] searches them. *)
Definition header_str (headers : list (string * string)) : string :=
join " " (map (fun h => lower (snd h)) headers).

(** [results.get(category, [])] *)
Definition bucket (m : gmap string (list result)) (category : string) : list result :=
default [] (m !! category).

(** Rows in ascending order of response time. *)
Definition by_time (a b : Database.cache_row) : Prop :=
(Database.response_time a <= Database.response_time b)%Q.

(** The fields of a date are in the range their text has room for, as in
    every [datetime] and every SQLite timestamp. *)
Definition calendar (t : datetime) : Prop :=
(0 <= year t < 10000 /\ 0 <= month t < 100 /\ 0 <= day t < 100)%Z.

(** The calendar day of [a] is before the calendar day of [b]. *)
Definition day_before (a b : datetime) : Prop :=
(year a < year b
 \/ (year a = year b
     /\ (month a < month b \/ (month a = month b /\ day a < day b))))%Z.

(** The keys and ids of a table are as the schema requires: no proxy and
    no id twice, and no id above the last one given out. *)
Definition keys_ok (db : Database.table) : Prop :=
NoDup (map Database.proxy (Database.rows db))
/\ NoDup (map Database.id (Database.rows db))
/\ Forall (fun r => (1 <= Database.id r <= Database.last_id db)%Z)
          (Database.rows db)
/\ (0 <= Database.last_id db)%Z.

(** The tasks that count their source: those whose URL [urlparse] takes. *)
Definition counted (parses : string -> bool) (tasks : list (nat * string))
  : list (nat * string) :=
List.filter (fun t => parses t.2) tasks.

(** The candidates the given tasks bring, where [fetch i] is what the
    request for source number [i] comes to. *)
Definition union_of (parses : string -> bool) (fetch : nat -> fetched)
    (tasks : list (nat * string)) : gset string :=
⋃ (map (fun t => if parses t.2 then _scrape_from_url (fetch t.1) else ∅) tasks).

(** The lines read from a file, all of them or those before the exception. *)
Definition lines_of (f : ScraperRun.file_read) : list string :=
match f with ScraperRun.ReadAll l | ScraperRun.ReadFailed l => l end.

(** Whether the thorough checker files a result under the bucket [k]. *)
Definition filed (k : string) (r : result) : bool :=
bool_decide (k = "all_working" \/ k ∈ protocols r \/ k = anonymity r).

(** Whether a call on the cache is a committed [cache_working_proxy]. *)
Definition uses_id (c : Database.call * datetime * bool) : bool :=
match c with
| (Database.Upsert _ _ _ _, _, ok) => ok
| _ => false
end.

(** The row of a proxy, if it has one. *)
Definition row_of (db : Database.table) (p : string) : option Database.cache_row :=
List.find (Database.has_proxy p) (Database.rows db).

End More.

Import More.

(** ** The checker's own address ([_get_real_ip] of [proxy_checker.py]) *)

Module RealIp.

(** What the request to [httpbin.org/ip] comes to: an exception (also
    when the body is not JSON or [origin] is not text), or a status with the
    [origin] entry of the JSON body, if it has one. *)
Inductive ip_reply : Type :=
| IpFailed
| IpStatus (status : Z) (origin : option string).

(** [_get_real_ip()] *)
Definition _get_real_ip (r : ip_reply) : string :=
match r with
| IpStatus status origin =>
    if (status =? 200)%Z
    then strip (hd "" (split_char "," (default "" origin)))
    else ""
| IpFailed => ""
end.

End RealIp.

(** ** The check history ([add_check_history] of [database.py]) *)

Module History.

(** The values [add_check_history] inserts into [check_history] (the user
    id and the duration are passed through). *)
Record check_record : Type := {
  total_checked : Z;
  total_working : Z;
  http_count : Z;
  https_count : Z;
  socks4_count : Z;
  socks5_count : Z;
  elite_count : Z;
  anonymous_count : Z;
  transparent_count : Z;
  average_response_time : Q;
  success_rate : Q
}.

(** [len(results.get(key, []))] *)
Definition count (results : gmap string (list result)) (key : string) : Z :=
Z.of_nat (length (bucket results key)).

(** [sum(response_times)]; [None] for the [TypeError] of a time that is
    [None]. *)
Definition sum_times (l : list result) : option Q :=
foldl (fun acc r =>
         match acc, response_time r with
         | Some s, Some t => Some (s + t)%Q
         | _, _ => None
         end) (Some 0%Q) l.

(** The record [add_check_history] inserts, [None] when computing it
    raises and the transaction is rolled back.  A value under the key
    [total_checked] would be a list, and a list less a number raises. *)
Definition add_check_history (results : gmap string (list result))
    : option check_record :=
match results !! "total_checked" with
| Some _ => None
| None =>
    let working := count results "all_working" in
    let total_checked := (working + (0 - working))%Z in
    let total_working := working in
    let all_working := bucket results "all_working" in
    let average :=
      match all_working with
      | [] => Some 0%Q
      | _ :: _ =>
          match sum_times all_working with
          | Some s => Some (s / inject_Z (Z.of_nat (length all_working)))%Q
          | None => None
          end
      end in
    match average with
    | None => None
    | Some avg_response_time =>
        Some {| total_checked := total_checked;
                total_working := total_working;
                http_count := count results "http";
                https_count := count results "https";
                socks4_count := count results "socks4";
                socks5_count := count results "socks5";
                elite_count := count results "elite";
                anonymous_count := count results "anonymous";
                transparent_count := count results "transparent";
                average_response_time := avg_response_time;
                success_rate :=
                  if (0 <? total_checked)%Z
                  then (inject_Z total_working / inject_Z total_checked * 100)%Q
                  else 0%Q |}
    end
end.

(** What the same call adds to the user's [total_checks],
    [total_proxies_checked] and [total_working_found]. *)
Definition user_increment (r : check_record) : Z * Z * Z :=
(1%Z, total_checked r, total_working r).

End History.

(** ** Caching what a check found ([perform_checking] of [bot.py]) *)

Module Bot.

(** The call of [cache_working_proxy] for a result; [None] when the result
    has no response time, which the cache of this model has no place for. *)
Definition cache_call (r : result) : option Database.call :=
match response_time r with
| Some t => Some (Database.Upsert (Net.proxy r) (protocols r) (anonymity r) t)
| None => None
end.

(** The loop over [results.get('all_working', [])]: call number [i] reads
    the clock [clock i] and is committed when [commits i]. *)
Definition cache_working (clock : nat -> datetime) (commits : nat -> bool)
    (db : Database.table) (results : gmap string (list result))
    : option Database.table :=
match mapM cache_call (bucket results "all_working") with
| Some calls =>
    Some (Database.run_all db (imap (fun i c => (c, clock i, commits i)) calls))
| None => None
end.

End Bot.

(** ** Users and their history ([database.py]) *)

Module Users.

(** A row of [users]. *)
Record user : Type := {
  user_id : Z;
  username : option string;
  first_name : option string;
  last_name : option string;
  created_at : string;
  last_active : string;
  total_scrapes : Z;
  total_checks : Z;
  total_proxies_scraped : Z;
  total_proxies_checked : Z;
  total_working_found : Z
}.

(** A row of [scrape_history]. *)
Record scrape_row : Type := {
  scrape_id : Z;
  scrape_user : Z;
  scrape_timestamp : string;
  sources_count : Z;
  proxies_scraped : Z;
  scrape_duration : Q;
  max_proxies : option Z;
  output_file : option string
}.

(** A row of [check_history]. *)
Record check_row : Type := {
  check_id : Z;
  check_user : Z;
  check_timestamp : string;
  check_duration : Q;
  recorded : History.check_record
}.

(** The three tables in rowid order, with the last ids AUTOINCREMENT gave
    out.  Foreign keys are declared but not enforced (the connection never
    turns them on). *)
Record store : Type := {
  users : list user;
  scrape_history : list scrape_row;
  check_history : list check_row;
  last_scrape_id : Z;
  last_check_id : Z
}.

Definition empty : store :=
{| users := []; scrape_history := []; check_history := [];
   last_scrape_id := 0; last_check_id := 0 |}.

Definition is_user (uid : Z) (u : user) : bool := (user_id u =? uid)%Z.

Definition with_users (st : store) (l : list user) : store :=
{| users := l; scrape_history := scrape_history st;
   check_history := check_history st;
   last_scrape_id := last_scrape_id st; last_check_id := last_check_id st |}.

(** [UPDATE users SET ... WHERE user_id = ?] *)
Definition update_user (uid : Z) (f : user -> user) (l : list user) : list user :=
map (fun u => if is_user uid u then f u else u) l.

(** [add_user] at the UTC time [now]; [committed] is false when the
    statement raises and the transaction is rolled back. *)
Definition add_user (now : datetime) (committed : bool) (st : store)
    (uid : Z) (name first last : option string) : store :=
if negb committed then st else
if existsb (is_user uid) (users st)
then with_users st
       (update_user uid
          (fun u => {| user_id := user_id u; username := name;
                       first_name := first; last_name := last;
                       created_at := created_at u;
                       last_active := current_timestamp now;
                       total_scrapes := total_scrapes u;
                       total_checks := total_checks u;
                       total_proxies_scraped := total_proxies_scraped u;
                       total_proxies_checked := total_proxies_checked u;
                       total_working_found := total_working_found u |})
          (users st))
else with_users st
       (users st ++
        [{| user_id := uid; username := name; first_name := first;
            last_name := last;
            created_at := current_timestamp now;
            last_active := current_timestamp now;
            total_scrapes := 0; total_checks := 0;
            total_proxies_scraped := 0; total_proxies_checked := 0;
            total_working_found := 0 |}])%list.

(** [update_user_activity]; when the statement raises nothing is written
    (the exception goes to the caller). *)
Definition update_user_activity (now : datetime) (committed : bool) (st : store)
    (uid : Z) : store :=
if negb committed then st else
with_users st
  (update_user uid
     (fun u => {| user_id := user_id u; username := username u;
                  first_name := first_name u; last_name := last_name u;
                  created_at := created_at u;
                  last_active := current_timestamp now;
                  total_scrapes := total_scrapes u;
                  total_checks := total_checks u;
                  total_proxies_scraped := total_proxies_scraped u;
                  total_proxies_checked := total_proxies_checked u;
                  total_working_found := total_working_found u |})
     (users st)).

(** [get_user] *)
Definition get_user (st : store) (uid : Z) : option user :=
List.find (is_user uid) (users st).

(** [get_user_stats]; [None] stands for the empty dictionary. *)
Definition get_user_stats (st : store) (uid : Z)
    : option (Z * Z * Z * Z * Z * string) :=
match get_user st uid with
| Some u => Some (total_scrapes u, total_checks u, total_proxies_scraped u,
                  total_proxies_checked u, total_working_found u, created_at u)
| None => None
end.

(** [add_scrape_history] *)
Definition add_scrape_history (now : datetime) (committed : bool) (st : store)
    (uid sources scraped : Z) (duration : Q) (limit : option Z)
    (file : option string) : store :=
if negb committed then st else
{| users :=
     update_user uid
       (fun u => {| user_id := user_id u; username := username u;
                    first_name := first_name u; last_name := last_name u;
                    created_at := created_at u; last_active := last_active u;
                    total_scrapes := (total_scrapes u + 1)%Z;
                    total_checks := total_checks u;
                    total_proxies_scraped := (total_proxies_scraped u + scraped)%Z;
                    total_proxies_checked := total_proxies_checked u;
                    total_working_found := total_working_found u |})
       (users st);
   scrape_history :=
     (scrape_history st ++
      [{| scrape_id := (last_scrape_id st + 1)%Z; scrape_user := uid;
          scrape_timestamp := current_timestamp now;
          sources_count := sources; proxies_scraped := scraped;
          scrape_duration := duration; max_proxies := limit;
          output_file := file |}])%list;
   check_history := check_history st;
   last_scrape_id := (last_scrape_id st + 1)%Z;
   last_check_id := last_check_id st |}.

(** [add_check_history]: nothing is written when computing the record
    raises. *)
Definition add_check_history (now : datetime) (committed : bool) (st : store)
    (uid : Z) (results : gmap string (list result)) (duration : Q) : store :=
match History.add_check_history results with
| None => st
| Some rec =>
    if negb committed then st else
    {| users :=
         update_user uid
           (fun u => {| user_id := user_id u; username := username u;
                        first_name := first_name u; last_name := last_name u;
                        created_at := created_at u; last_active := last_active u;
                        total_scrapes := total_scrapes u;
                        total_checks := (total_checks u + 1)%Z;
                        total_proxies_scraped := total_proxies_scraped u;
                        total_proxies_checked :=
                          (total_proxies_checked u + History.total_checked rec)%Z;
                        total_working_found :=
                          (total_working_found u + History.total_working rec)%Z |})
           (users st);
       scrape_history := scrape_history st;
       check_history :=
         (check_history st ++
          [{| check_id := (last_check_id st + 1)%Z; check_user := uid;
              check_timestamp := current_timestamp now;
              check_duration := duration; recorded := rec |}])%list;
       last_scrape_id := last_scrape_id st;
       last_check_id := (last_check_id st + 1)%Z |}
end.

(** A call that writes, with the clock it reads and whether it commits. *)
Inductive call : Type :=
| AddUser (uid : Z) (name first last : option string)
| Activity (uid : Z)
| Scraped (uid sources scraped : Z) (duration : Q) (limit : option Z)
          (file : option string)
| Checked (uid : Z) (results : gmap string (list result)) (duration : Q).

Definition run (st : store) (c : call * datetime * bool) : store :=
match c with
| (AddUser uid name first last, now, ok) => add_user now ok st uid name first last
| (Activity uid, now, ok) => update_user_activity now ok st uid
| (Scraped uid sources scraped duration limit file, now, ok) =>
    add_scrape_history now ok st uid sources scraped duration limit file
| (Checked uid results duration, now, ok) =>
    add_check_history now ok st uid results duration
end.

Definition run_all (st : store) (cs : list (call * datetime * bool)) : store :=
foldl run st cs.

(** The scrapes and the checks recorded for a user. *)
Definition scrapes_of (st : store) (uid : Z) : list scrape_row :=
List.filter (fun h => (scrape_user h =? uid)%Z) (scrape_history st).

Definition checks_of (st : store) (uid : Z) : list check_row :=
List.filter (fun h => (check_user h =? uid)%Z) (check_history st).

End Users.

(** ** The web sources of a user ([database.py]) *)

Module WebSources.

(** A row of [web_sources]. *)
Record source_row : Type := {
  source_id : Z;
  source_user : Z;
  url : string;
  added_at : string;
  last_used : option string;
  times_used : Z;
  last_proxy_count : Z;
  is_active : bool
}.

(** The table in rowid order, with the last id AUTOINCREMENT gave out.  Its
    only key is [id]: no constraint spans [user_id] and [url]. *)
Record table : Type := {
  rows : list source_row;
  last_id : Z
}.

Definition empty : table := {| rows := []; last_id := 0 |}.

Definition is_source (uid : Z) (u : string) (r : source_row) : bool :=
(source_user r =? uid)%Z && String.eqb (url r) u.

(** [add_web_source]: the insert conflicts with nothing, so [ON CONFLICT DO
    NOTHING] never applies. *)
Definition add_web_source (now : datetime) (committed : bool) (t : table)
    (uid : Z) (u : string) : table :=
if negb committed then t else
{| rows := (rows t ++
            [{| source_id := (last_id t + 1)%Z; source_user := uid; url := u;
                added_at := current_timestamp now; last_used := None;
                times_used := 0; last_proxy_count := 0;
                is_active := true |}])%list;
   last_id := (last_id t + 1)%Z |}.

(** [update_web_source_usage] *)
Definition update_web_source_usage (now : datetime) (committed : bool)
    (t : table) (uid : Z) (u : string) (proxy_count : Z) : table :=
if negb committed then t else
{| rows := map (fun r => if is_source uid u r
                         then {| source_id := source_id r;
                                 source_user := source_user r; url := url r;
                                 added_at := added_at r;
                                 last_used := Some (current_timestamp now);
                                 times_used := (times_used r + 1)%Z;
                                 last_proxy_count := proxy_count;
                                 is_active := is_active r |}
                         else r) (rows t);
   last_id := last_id t |}.

(** [ORDER BY times_used DESC] over rows in rowid order. *)
Fixpoint insert_row (r : source_row) (l : list source_row) : list source_row :=
match l with
| [] => [r]
| x :: l' =>
    if (times_used r <? times_used x)%Z then x :: insert_row r l' else r :: l
end.

(** [get_user_web_sources] *)
Definition get_user_web_sources (t : table) (uid : Z) : list source_row :=
foldr insert_row []
  (List.filter (fun r => (source_user r =? uid)%Z && is_active r) (rows t)).

(** A call that writes, with the clock it reads and whether it commits. *)
Inductive call : Type :=
| Add (uid : Z) (u : string)
| Used (uid : Z) (u : string) (proxy_count : Z).

Definition run (t : table) (c : call * datetime * bool) : table :=
match c with
| (Add uid u, now, ok) => add_web_source now ok t uid u
| (Used uid u n, now, ok) => update_web_source_usage now ok t uid u n
end.

Definition run_all (t : table) (cs : list (call * datetime * bool)) : table :=
foldl run t cs.

(** Whether a call is a committed [add_web_source] of the source. *)
Definition adds (uid : Z) (u : string) (c : call * datetime * bool) : bool :=
match c with
| (Add uid' u', _, ok) => ok && (uid' =? uid)%Z && String.eqb u' u
| _ => false
end.

End WebSources.

(** ** Notions of the statements about users *)

Module UserSpec.

(** The working proxies recorded in a list of checks. *)
Definition working_sum (l : list Users.check_row) : Z :=
foldr (fun h acc => (History.total_working (Users.recorded h) + acc)%Z) 0%Z l.

(** The totals of a user against the history recorded for that user. *)
Definition totals_ok (st : Users.store) (u : Users.user) : Prop :=
Users.total_proxies_checked u = 0%Z
/\ (0 <= Users.total_scrapes u
    <= Z.of_nat (length (Users.scrapes_of st (Users.user_id u))))%Z
/\ (0 <= Users.total_checks u
    <= Z.of_nat (length (Users.checks_of st (Users.user_id u))))%Z
/\ (0 <= Users.total_working_found u
    <= working_sum (Users.checks_of st (Users.user_id u)))%Z.

(** The user ids are unique, every check recorded has 0 proxies checked,
    and the totals of every user are within the history. *)
Definition stats_ok (st : Users.store) : Prop :=
NoDup (map Users.user_id (Users.users st))
/\ Forall (fun h => History.total_checked (Users.recorded h) = 0%Z
                    /\ (0 <= History.total_working (Users.recorded h))%Z)
          (Users.check_history st)
/\ Forall (totals_ok st) (Users.users st).

End UserSpec.

Import UserSpec.

(** ** Notions the statements below use *)

Module Spec.

(** The seconds a response took, zero when there was none. *)
Definition elapsed_of (o : outcome) : Q :=
  match o with
  | Reply _ elapsed _ _ => elapsed
  | TimedOut | Raised => 0%Q
  end.

(** The text after the last colon of a candidate, which [_parse_proxy]
    reads as its port. *)
Definition port_text (candidate : string) : string :=
  match rsplit_char ":" candidate with
  | Some (_, p) => p
  | None => ""
  end.

(** The text [_parse_proxy] splits into host and port. *)
Definition host_port_of (proxy : string) : string :=
  match split_first "://" (strip proxy) with
  | Some (_, rest) => rest
  | None => strip proxy
  end.

(** Neither white space nor changed by [lower()]. *)
Definition tame (c : ascii) : Prop := is_space c = false /\ lower_char c = c.

(** An integer in decimal notation between [lo] and [hi]. *)
Definition int_between (lo hi : Z) (t : string) : Prop :=
  exists n, py_int t = Some n /\ (lo <= n <= hi)%Z.

(** Four dot-separated octets, each in [0,255]. *)
Definition valid_ip_text (ip : string) : Prop :=
  exists a b c d, split_char "." ip = [a; b; c; d]
                  /\ Forall (int_between 0 255) [a; b; c; d].

(** An integer in [1,65535]. *)
Definition valid_port_text (port : string) : Prop := int_between 1 65535 port.

(** Counters of a cache row as the data model requires them. *)
Definition counts_ok (r : Database.cache_row) : Prop :=
  (0 <= Database.success_count r <= Database.check_count r)%Z.

End Spec.

Import Spec.

(** * Properties *)

(** ** The thorough checker *)

Section ThoroughLoop.
Variables (net : network) (real_ip : option string) (host : string) (port : Z).

Let step := ProxyChecker.test_protocol net real_ip host port.
Let ok (protocol : string) : bool :=
  ProxyChecker.succeeded (net (ProxyChecker.probe protocol host port)).

Lemma test_protocol_sent res sent protocol :
  (step (res, sent) protocol).2
  = (sent ++ [ProxyChecker.probe protocol host port])%list.
Proof.
  unfold step, ProxyChecker.test_protocol.
  destruct (net _) as [| |status e h [t|]]; try reflexivity.
  destruct (status =? 200)%Z; reflexivity.
Qed.

Lemma test_protocol_hit res sent protocol :
  ok protocol = true ->
  let r := (step (res, sent) protocol).1 in
  working r = true
  /\ protocols r = (protocols res ++ [protocol])%list
  /\ response_time r
     = Some (round3 (elapsed_of (net (ProxyChecker.probe protocol host port))))
  /\ proxy r = proxy res.
Proof.
  unfold ok, step, ProxyChecker.test_protocol, ProxyChecker.succeeded.
  destruct (net _) as [| |status e h [t|]]; try discriminate.
  intros ->. simpl. auto.
Qed.

Lemma test_protocol_miss res sent protocol :
  ok protocol = false -> (step (res, sent) protocol).1 = res.
Proof.
  unfold ok, step, ProxyChecker.test_protocol, ProxyChecker.succeeded.
  destruct (net _) as [| |status e h [t|]]; try reflexivity.
  intros ->. reflexivity.
Qed.

(** The loop never stops early: it attempts every protocol of its list,
    records exactly those that succeed, and keeps the time of the last
    success. *)
Lemma loop_spec protos : forall res sent,
  let out := foldl step (res, sent) protos in
  out.2 = (sent ++ map (fun p => ProxyChecker.probe p host port) protos)%list
  /\ protocols out.1 = (protocols res ++ List.filter ok protos)%list
  /\ working out.1 = working res || negb (forallb (fun p => negb (ok p)) protos)
  /\ proxy out.1 = proxy res
  /\ response_time out.1
     = match last (List.filter ok protos) with
       | Some p => Some (round3 (elapsed_of (net (ProxyChecker.probe p host port))))
       | None => response_time res
       end.
Proof.
  induction protos as [|p protos IH]; intros res sent.
  - simpl. rewrite !app_nil_r, orb_false_r. auto.
  - cbn [foldl map List.filter forallb].
    destruct (step (res, sent) p) as [res1 sent1] eqn:E.
    destruct (IH res1 sent1) as (Hs & Hp & Hw & Hx & Ht).
    pose proof (test_protocol_sent res sent p) as S1. rewrite E in S1. simpl in S1.
    rewrite Hs, Hp, Hw, Hx, Ht, S1. clear Hs Hp Hw Hx Ht.
    destruct (ok p) eqn:Ok.
    + pose proof (test_protocol_hit res sent p Ok) as H. rewrite E in H.
      simpl in H. destruct H as (W & P & T & X).
      rewrite W, P, T, X, <- !app_assoc. cbn [app orb].
      repeat split; try reflexivity.
      * simpl. now rewrite orb_true_r.
      * rewrite last_cons. destruct (last (List.filter ok protos)); reflexivity.
    + pose proof (test_protocol_miss res sent p Ok) as H. rewrite E in H.
      simpl in H. subst res1. rewrite <- !app_assoc. simpl. auto.
Qed.
End ThoroughLoop.

Lemma filter_nonempty {A} (f : A -> bool) (l : list A) :
  negb (forallb (fun x => negb (f x)) l) = true <-> List.filter f l <> [].
Proof.
  induction l as [|x l IH]; simpl.
  - split; [discriminate | congruence].
  - destruct (f x); simpl; [split; [discriminate | reflexivity] | exact IH].
Qed.

Lemma succeeded_iff (o : outcome) :
  ProxyChecker.succeeded o = true
  <-> exists elapsed headers text, o = Reply 200 elapsed headers (Some text).
Proof.
  unfold ProxyChecker.succeeded. split.
  - destruct o as [| |status e h [t|]]; try discriminate.
    intros H%Z.eqb_eq. subst. eauto.
  - intros (e & h & t & ->). reflexivity.
Qed.

(** What [_check_proxy] computes, in terms of the candidate as parsed. *)
Lemma run_probes_spec (net : network) (real_ip : option string) (proxy : string) :
  let '(_, detected, host, port) := ProxyChecker._parse_proxy proxy in
  let protos := ProxyChecker.protocols_to_test detected in
  let ok p := ProxyChecker.succeeded (net (ProxyChecker.probe p host port)) in
  let r := ProxyChecker.checked_result net real_ip proxy in
  ProxyChecker.probes_issued net real_ip proxy
  = map (fun p => ProxyChecker.probe p host port) protos
  /\ protocols r = List.filter ok protos
  /\ working r = negb (forallb (fun p => negb (ok p)) protos)
  /\ Net.proxy r = host +:+ ":" +:+ str_of_Z port
  /\ response_time r
     = (fun p => round3 (elapsed_of (net (ProxyChecker.probe p host port))))
         <$> last (List.filter ok protos).
Proof.
  unfold ProxyChecker.checked_result, ProxyChecker.probes_issued,
    ProxyChecker.run_probes.
  destruct (ProxyChecker._parse_proxy proxy) as [[[u detected] host] port].
  cbv zeta.
  match goal with
  | |- context [foldl ?f (?res, ?sent) ?l] =>
      destruct (loop_spec net real_ip host port l res sent) as (Hs & Hp & Hw & Hx & Ht)
  end.
  rewrite Hs, Hp, Hw, Hx, Ht. simpl.
  repeat split; reflexivity.
Qed.

(** ** The fast checker *)

Lemma positive_time_iff (q : Q) : positive_time q = true <-> (0 < q)%Q.
Proof.
  unfold positive_time, Qlt. simpl. rewrite Z.ltb_lt. lia.
Qed.

Lemma accepted_iff (status : Z) :
  FastProxyChecker.accepted status = true <-> In status [200; 204; 301; 302]%Z.
Proof.
  unfold FastProxyChecker.accepted. rewrite existsb_exists. split.
  - intros (x & Hx & E%Z.eqb_eq). now subst.
  - intros H. exists status. split; [exact H | apply Z.eqb_refl].
Qed.

Lemma quick_iff (o : outcome) (t : Q) :
  FastProxyChecker.quick o = Some t
  <-> exists status headers text,
        o = Reply status t headers text /\ In status [200; 204; 301; 302]%Z.
Proof.
  unfold FastProxyChecker.quick. split.
  - destruct o as [| |status e h txt]; try discriminate.
    destruct (FastProxyChecker.accepted status) eqn:A; [|discriminate].
    intros [= <-]. apply accepted_iff in A. eauto.
  - intros (status & h & txt & -> & A). apply accepted_iff in A. now rewrite A.
Qed.

Lemma combine_map_snd {A B C} (f : B -> C) (l : list A) : forall (l' : list B),
  combine l (map f l') = map (fun p => (p.1, f p.2)) (combine l l').
Proof.
  induction l as [|a l IH]; intros [|b l']; simpl; try reflexivity.
  now rewrite IH.
Qed.

(** The hits of [process] are the results that are a time above zero,
    under the name of their position. *)
Lemma process_spec (names : list string) : forall (results : list (option Q)) name t,
  In (name, t) (FastProxyChecker.process names results)
  <-> In (name, Some t) (combine names results) /\ positive_time t = true.
Proof.
  induction names as [|n names IH]; intros [|res results] name t; simpl;
    try (split; [contradiction | intros [[] _]]).
  destruct res as [u|].
  - destruct (positive_time u) eqn:P; simpl; rewrite IH; split.
    + intros [[= <- <-]|[H1 H2]]; auto.
    + intros [[[= <- <-]|H1] H2]; auto.
    + intros [H1 H2]; auto.
    + intros [[[= <- <-]|H1] H2]; [congruence | auto].
  - rewrite IH. split.
    + intros [H1 H2]; auto.
    + intros [[H|H1] H2]; [discriminate | auto].
Qed.

(** ** Validation results *)

(** Claim C1.  In every result a validation run produces, [working] is true
    exactly when [protocols] is not empty.  This holds for the dictionary
    at the end of the thorough [_check_proxy] and at the end of the fast
    [_parallel_check_proxy]; each function returns that dictionary when it
    is working and [None] otherwise. *)
Theorem working_iff_protocols :
  (forall net real_ip proxy,
     let r := ProxyChecker.checked_result net real_ip proxy in
     (working r = true <-> protocols r <> [])
     /\ ProxyChecker._check_proxy net real_ip proxy
        = (if working r then Some r else None))
  /\ (forall net fast_mode proxy,
        let r := FastProxyChecker.checked_result net fast_mode proxy in
        (working r = true <-> protocols r <> [])
        /\ FastProxyChecker._parallel_check_proxy net fast_mode proxy
           = (if working r then Some r else None)).
Proof.
  split.
  - intros net real_ip proxy r. split; [|reflexivity].
    pose proof (run_probes_spec net real_ip proxy) as H.
    destruct (ProxyChecker._parse_proxy proxy) as [[[u detected] host] port].
    destruct H as (_ & Hp & Hw & _). fold r in Hp, Hw.
    rewrite Hp, Hw. apply filter_nonempty.
  - intros net fast_mode proxy r. split; [|reflexivity].
    subst r. unfold FastProxyChecker.checked_result. cbn [working protocols].
    destruct (FastProxyChecker.process _ _) as [|[name t] hits]; simpl.
    + split; [discriminate | congruence].
    + split; [discriminate | reflexivity].
Qed.

(** A thorough check whose two requests are both answered with status 204:
    the status is one of 200, 204, 301, 302, yet no protocol is recorded. *)
Lemma thorough_rejects_204 :
  let net : network := fun _ => Reply 204 (1 # 10) [] (Some "") in
  In 204%Z [200; 204; 301; 302]%Z
  /\ ProxyChecker.probes_issued net None "1.2.3.4:8080"
     = [ProxyChecker.probe "http" "1.2.3.4" 8080;
        ProxyChecker.probe "https" "1.2.3.4" 8080]
  /\ protocols (ProxyChecker.checked_result net None "1.2.3.4:8080") = []
  /\ ProxyChecker._check_proxy net None "1.2.3.4:8080" = None.
Proof.
  cbv zeta. split; [simpl; auto|]. vm_compute. auto.
Qed.

(** Claim C3, as the code has it.  A protocol is recorded in [protocols]
    exactly when it was probed and its probe succeeded; no other outcome
    adds anything, and neither checker raises.  In the thorough checker a
    probe succeeds when the response has status 200 and its text could be
    read.  In the fast checker it succeeds when the response has one of the
    statuses 200, 204, 301, 302 and the time measured is above zero. *)
Theorem probe_success :
  (forall net real_ip proxy protocol,
     let '(_, detected, host, port) := ProxyChecker._parse_proxy proxy in
     In protocol (protocols (ProxyChecker.checked_result net real_ip proxy))
     <-> In protocol (ProxyChecker.protocols_to_test detected)
         /\ exists elapsed headers text,
              net (ProxyChecker.probe protocol host port)
              = Reply 200 elapsed headers (Some text))
  /\ (forall net fast_mode proxy protocol,
        In protocol (protocols (FastProxyChecker.checked_result net fast_mode proxy))
        <-> exists rq status elapsed headers text,
              In (protocol, rq)
                 (combine FastProxyChecker.protocol_names
                          (FastProxyChecker.tasks fast_mode proxy))
              /\ net rq = Reply status elapsed headers text
              /\ In status [200; 204; 301; 302]%Z
              /\ (0 < elapsed)%Q).
Proof.
  split.
  - intros net real_ip proxy protocol.
    pose proof (run_probes_spec net real_ip proxy) as H.
    destruct (ProxyChecker._parse_proxy proxy) as [[[u detected] host] port].
    destruct H as (_ & Hp & _). rewrite Hp, filter_In, succeeded_iff. reflexivity.
  - intros net fast_mode proxy protocol.
    unfold FastProxyChecker.checked_result. cbn [protocols].
    rewrite in_map_iff. split.
    + intros ([name t] & <- & H). apply process_spec in H as [H P].
      rewrite combine_map_snd in H. apply in_map_iff in H as ([n rq] & [= -> Q] & H).
      apply quick_iff in Q as (status & h & txt & Q & A).
      apply positive_time_iff in P. exists rq, status, t, h, txt. auto.
    + intros (rq & status & t & h & txt & H & Q & A & P).
      exists (protocol, t). split; [reflexivity|].
      apply process_spec. split; [|now apply positive_time_iff].
      rewrite combine_map_snd. apply in_map_iff. exists (protocol, rq).
      split; [|exact H]. simpl. f_equal. apply quick_iff. eauto.
Qed.

(** A thorough check of a bare candidate whose HTTP probe is answered
    after one second and whose HTTPS probe after two: both protocols are
    probed and both are recorded, and the time kept is the second one. *)
Lemma thorough_records_both :
  let net : network := fun rq =>
    if String.eqb (url rq) "https://httpbin.org/ip"
    then Reply 200 2 [] (Some "") else Reply 200 1 [] (Some "") in
  let r := ProxyChecker.checked_result net None "1.2.3.4:8080" in
  ProxyChecker.probes_issued net None "1.2.3.4:8080"
  = [ProxyChecker.probe "http" "1.2.3.4" 8080;
     ProxyChecker.probe "https" "1.2.3.4" 8080]
  /\ protocols r = ["http"; "https"]
  /\ response_time r = Some (round3 2)
  /\ ~ (round3 2 == round3 1)%Q.
Proof.
  cbv zeta. repeat split; try (vm_compute; reflexivity).
  vm_compute. discriminate.
Qed.

(** Claim C7, as the code has it.  In thorough mode the validator probes
    the protocols of its list one after the other: only the declared
    protocol when that is socks4 or socks5, https then http when the
    declared protocol is https, http then https otherwise.  It probes every
    protocol of the list, also after a success, and records each one that
    succeeds, so two protocols can be recorded for a candidate;
    [response_time] is the time of the last success, rounded to three
    decimals. *)
Theorem thorough_probes_all :
  forall net real_ip proxy,
    let '(_, detected, host, port) := ProxyChecker._parse_proxy proxy in
    let protos := ProxyChecker.protocols_to_test detected in
    let r := ProxyChecker.checked_result net real_ip proxy in
    protos = (if String.eqb detected "socks4" || String.eqb detected "socks5"
              then [detected]
              else if String.eqb detected "https" then ["https"; "http"]
              else ["http"; "https"])
    /\ ProxyChecker.probes_issued net real_ip proxy
       = map (fun p => ProxyChecker.probe p host port) protos
    /\ protocols r
       = List.filter
           (fun p => ProxyChecker.succeeded (net (ProxyChecker.probe p host port)))
           protos
    /\ response_time r
       = (fun p => round3 (elapsed_of (net (ProxyChecker.probe p host port))))
           <$> last (protocols r).
Proof.
  intros net real_ip proxy.
  pose proof (run_probes_spec net real_ip proxy) as H.
  destruct (ProxyChecker._parse_proxy proxy) as [[[u detected] host] port].
  destruct H as (Hs & Hp & _ & _ & Ht).
  cbv zeta. rewrite Hp. auto.
Qed.

(** ** Validating nothing *)

(** The fast checker on an empty candidate set returns an empty mapping:
    no bucket is present. *)
Lemma fast_check_all_no_buckets :
  let net : network := fun _ => TimedOut in
  let out := (FastProxyChecker.check_all net FastProxyChecker.init [] true).2 in
  out = ∅ /\ out !! "http" = None /\ out !! "all_working" = None.
Proof.
  cbv zeta. repeat split; reflexivity.
Qed.

(** Claim C6, as the code has it.  Validating an empty candidate set is not
    an error.  A freshly made thorough checker returns a mapping with each
    of the eight buckets present and empty.  The fast checker returns an
    empty mapping, in which no bucket is present; a category read with an
    empty default, as the callers do, is empty. *)
Theorem check_all_empty :
  (forall net detected_ip,
     let out := (ProxyChecker.check_all net detected_ip ProxyChecker.init []).2 in
     dom out = list_to_set ProxyChecker.categories
     /\ Forall (fun c => out !! c = Some []) ProxyChecker.categories)
  /\ (forall net st fast_mode,
        let out := (FastProxyChecker.check_all net st [] fast_mode).2 in
        out = ∅ /\ forall c, default [] (out !! c) = []).
Proof.
  split.
  - intros net detected_ip. cbv zeta. split.
    + vm_compute. reflexivity.
    + repeat constructor.
  - intros net st fast_mode. cbv zeta. split; [reflexivity|].
    intros c. reflexivity.
Qed.

(** ** The proxy cache *)

Section CacheCounts.
Import Database.

Lemma refresh_counts_ok protocols_str anon rt now r :
  counts_ok r -> counts_ok (refresh protocols_str anon rt now r).
Proof. unfold counts_ok. simpl. lia. Qed.

Lemma dead_counts_ok now r : counts_ok r -> counts_ok (dead now r).
Proof. unfold counts_ok. simpl. lia. Qed.

Lemma upsert_counts_ok now ok db p protos anon rt :
  Forall counts_ok (rows db) ->
  Forall counts_ok (rows (cache_working_proxy now ok db p protos anon rt)).
Proof.
  intros H. unfold cache_working_proxy.
  destruct ok; simpl; [|exact H].
  destruct (existsb _ _); simpl.
  - rewrite List.Forall_map. eapply Forall_impl; [exact H|].
    intros r Hr. simpl. destruct (has_proxy p r); [now apply refresh_counts_ok | exact Hr].
  - apply Forall_app. split; [exact H|].
    constructor; [|constructor]. unfold counts_ok. simpl. lia.
Qed.

Lemma mark_dead_counts_ok now ok db p :
  Forall counts_ok (rows db) ->
  Forall counts_ok (rows (mark_proxy_dead now ok db p)).
Proof.
  intros H. unfold mark_proxy_dead. destruct ok; simpl; [|exact H].
  rewrite List.Forall_map. eapply Forall_impl; [exact H|].
  intros r Hr. simpl. destruct (has_proxy p r); [now apply dead_counts_ok | exact Hr].
Qed.

Lemma sweep_counts_ok now ok db days :
  Forall counts_ok (rows db) ->
  Forall counts_ok (rows (default db (cleanup_old_cached_proxies now ok db days))).
Proof.
  intros H. unfold cleanup_old_cached_proxies.
  destruct (minus_seconds _ _); simpl; [|exact H].
  destruct ok; simpl; [|exact H].
  rewrite Forall_forall in H. apply Forall_forall. intros r Hr.
  apply list_elem_of_filter in Hr as [_ Hr]. auto.
Qed.

Lemma run_counts_ok db c :
  Forall counts_ok (rows db) -> Forall counts_ok (rows (run db c)).
Proof.
  destruct c as [[[p protos anon rt | p | days] now] ok]; simpl.
  - apply upsert_counts_ok.
  - apply mark_dead_counts_ok.
  - apply sweep_counts_ok.
Qed.

Lemma run_all_counts_ok cs : forall db,
  Forall counts_ok (rows db) -> Forall counts_ok (rows (run_all db cs)).
Proof.
  unfold run_all. induction cs as [|c cs IH]; intros db H; simpl; [exact H|].
  apply IH, run_counts_ok, H.
Qed.
End CacheCounts.

(** Claim C4.  After any sequence of calls on the proxy cache (upserts,
    dead marks, and sweeps as well), committed or rolled back, every row
    has [check_count >= success_count >= 0].  A committed upsert of a proxy
    that has no row adds one with both counters at 1, and otherwise adds 1
    to both counters of its row; a committed dead mark adds 1 to
    [check_count] only. *)
Theorem cache_counters :
  (forall cs, Forall counts_ok (Database.rows (Database.run_all Database.empty cs)))
  /\ (forall now db p protos anon rt,
        let db' := Database.cache_working_proxy now true db p protos anon rt in
        if existsb (Database.has_proxy p) (Database.rows db)
        then map (fun r => (Database.check_count r, Database.success_count r))
                 (Database.rows db')
             = map (fun r => if Database.has_proxy p r
                             then (Database.check_count r + 1, Database.success_count r + 1)%Z
                             else (Database.check_count r, Database.success_count r))
                   (Database.rows db)
        else exists r, Database.rows db' = (Database.rows db ++ [r])%list
                       /\ Database.proxy r = p
                       /\ Database.check_count r = 1%Z
                       /\ Database.success_count r = 1%Z)
  /\ (forall now db p,
        map (fun r => (Database.check_count r, Database.success_count r))
            (Database.rows (Database.mark_proxy_dead now true db p))
        = map (fun r => if Database.has_proxy p r
                        then (Database.check_count r + 1, Database.success_count r)%Z
                        else (Database.check_count r, Database.success_count r))
              (Database.rows db)).
Proof.
  split; [|split].
  - intros cs. apply run_all_counts_ok. constructor.
  - intros now db p protos anon rt. cbv zeta.
    unfold Database.cache_working_proxy. simpl.
    destruct (existsb _ _) eqn:E; simpl.
    + rewrite map_map. apply map_ext. intros r.
      destruct (Database.has_proxy p r); reflexivity.
    + eexists. split; [reflexivity|]. simpl. auto.
  - intros now db p. unfold Database.mark_proxy_dead. simpl.
    rewrite map_map. apply map_ext. intros r.
    destruct (Database.has_proxy p r); reflexivity.
Qed.

(** Claim C5, at an input where the code departs from it.  A proxy cached
    at 23:00 on 2 November is working and eleven hours old at 10:00 on
    3 November, on a host whose clock is UTC; the query with a maximum age
    of 24 hours returns nothing.  The stored text [2026-11-02 23:00:00] is
    compared as a string with the cutoff [2026-11-02T10:00:00], and a
    space sorts before [T]. *)
Theorem fresh_entry_not_returned :
  let checked_at := {| year := 2026; month := 11; day := 2;
                       hour := 23; minute := 0; second := 0; microsecond := 0 |} in
  let now := {| year := 2026; month := 11; day := 3;
                hour := 10; minute := 0; second := 0; microsecond := 0 |} in
  let db := Database.cache_working_proxy checked_at true Database.empty
              "1.2.3.4:8080" ["http"] "anonymous" (1 # 2) in
  (to_seconds now - to_seconds checked_at = 11 * 3600)%Z
  /\ map (fun r => (Database.proxy r, Database.is_working r, Database.last_checked r))
         (Database.rows db)
     = [("1.2.3.4:8080", true, "2026-11-02 23:00:00")]
  /\ isoformat <$> minus_seconds now (24 * 3600) = Some "2026-11-02T10:00:00"
  /\ Database.get_cached_proxies now db None None 24 = Some [].
Proof.
  cbv zeta. repeat split; vm_compute; reflexivity.
Qed.

(** The protocol filter is a [LIKE] on the stored text: a row that holds
    only [https] is returned for the protocol [http]. *)
Lemma protocol_filter_is_substring :
  let checked_at := {| year := 2026; month := 11; day := 3;
                       hour := 9; minute := 0; second := 0; microsecond := 0 |} in
  let now := {| year := 2026; month := 11; day := 3;
                hour := 10; minute := 0; second := 0; microsecond := 0 |} in
  let db := Database.cache_working_proxy checked_at true Database.empty
              "1.2.3.4:8080" ["https"] "anonymous" (1 # 2) in
  (Database.protocols <$> Database.rows db) = ["https"]
  /\ Database.get_cached_proxies now db (Some "http") None 24 = Some (Database.rows db).
Proof.
  cbv zeta. split; vm_compute; reflexivity.
Qed.

(** [CURRENT_TIMESTAMP] is UTC and the cutoff is local time: on a host
    eight hours behind UTC, a row checked thirty and a half hours ago is
    returned for a maximum age of 24 hours. *)
Lemma stale_entry_returned :
  let checked_at_utc := {| year := 2026; month := 11; day := 3;
                           hour := 0; minute := 30; second := 0; microsecond := 0 |} in
  let now_utc := {| year := 2026; month := 11; day := 4;
                    hour := 7; minute := 0; second := 0; microsecond := 0 |} in
  let now_local := {| year := 2026; month := 11; day := 3;
                      hour := 23; minute := 0; second := 0; microsecond := 0 |} in
  let db := Database.cache_working_proxy checked_at_utc true Database.empty
              "1.2.3.4:8080" ["http"] "anonymous" (1 # 2) in
  (to_seconds now_utc - to_seconds now_local = 8 * 3600)%Z
  /\ (to_seconds now_utc - to_seconds checked_at_utc = 30 * 3600 + 1800)%Z
  /\ Database.get_cached_proxies now_local db None None 24 = Some (Database.rows db).
Proof.
  cbv zeta. repeat split; vm_compute; reflexivity.
Qed.

(** ** Strings *)

Section StringFacts.

Lemma append_nil_l (t : string) : "" +:+ t = t.
Proof. reflexivity. Qed.

Lemma append_cons (c : ascii) (s t : string) :
  String c s +:+ t = String c (s +:+ t).
Proof. reflexivity. Qed.

Lemma append_nil_r (s : string) : s +:+ "" = s.
Proof. induction s as [|c s IH]; [reflexivity|]. now rewrite append_cons, IH. Qed.

Lemma append_assoc (s t u : string) : (s +:+ t) +:+ u = s +:+ (t +:+ u).
Proof.
  induction s as [|c s IH]; [reflexivity|]. now rewrite !append_cons, IH.
Qed.

Lemma length_append (s t : string) :
  String.length (s +:+ t) = (String.length s + String.length t)%nat.
Proof.
  induction s as [|c s IH]; [reflexivity|]. rewrite append_cons. simpl. now rewrite IH.
Qed.

Lemma take_append (w s : string) : take (String.length w) (w +:+ s) = w.
Proof.
  induction w as [|c w IH]; [now destruct s|].
  rewrite append_cons. simpl. now rewrite IH.
Qed.

Lemma prefix_append (sep b : string) : String.prefix sep (sep +:+ b) = true.
Proof.
  induction sep as [|c sep IH]; [now destruct b|].
  rewrite append_cons. simpl. destruct (ascii_dec c c); [exact IH | congruence].
Qed.

Lemma prefix_drop (sep s : string) :
  String.prefix sep s = true -> s = sep +:+ drop (String.length sep) s.
Proof.
  revert s. induction sep as [|c sep IH]; intros s H; [reflexivity|].
  destruct s as [|a s]; [discriminate|]. simpl in H.
  destruct (ascii_dec c a) as [->|]; [|discriminate].
  rewrite append_cons. simpl. f_equal. now apply IH.
Qed.

Lemma split_first_eq (sep s : string) :
  split_first sep s
  = if String.prefix sep s then Some ("", drop (String.length sep) s)
    else match s with
         | "" => None
         | String c s' =>
             match split_first sep s' with
             | Some (a, b) => Some (String c a, b)
             | None => None
             end
         end.
Proof. destruct s; reflexivity. Qed.

Lemma split_first_sound (sep s a b : string) :
  split_first sep s = Some (a, b) -> s = a +:+ sep +:+ b.
Proof.
  revert a. induction s as [|c s IH]; intros a; rewrite split_first_eq.
  - destruct (String.prefix sep "") eqn:P; [|discriminate].
    intros [= <- <-]. now apply prefix_drop in P.
  - destruct (String.prefix sep (String c s)) eqn:P.
    + intros [= <- <-]. now apply prefix_drop in P.
    + destruct (split_first sep s) as [[a' b']|]; [|discriminate].
      intros [= <- <-]. rewrite append_cons. f_equal. now apply IH.
Qed.

Lemma split_first_complete (sep a b : string) :
  split_first sep (a +:+ sep +:+ b) <> None.
Proof.
  induction a as [|c a IH]; rewrite split_first_eq.
  - rewrite append_nil_l. now rewrite prefix_append.
  - rewrite append_cons.
    destruct (String.prefix sep _); [discriminate|].
    destruct (split_first sep (a +:+ sep +:+ b)) as [[a' b']|]; [discriminate | exact IH].
Qed.

Lemma contains_iff (sub s : string) :
  contains sub s = true <-> exists a b, s = a +:+ sub +:+ b.
Proof.
  unfold contains. split.
  - destruct (split_first sub s) as [[a b]|] eqn:E; [|discriminate].
    intros _. exists a, b. now apply split_first_sound.
  - intros (a & b & ->). pose proof (split_first_complete sub a b).
    now destruct (split_first _ _).
Qed.

Lemma lstrip_suffix (s : string) : exists w, s = w +:+ lstrip s.
Proof.
  induction s as [|c s [w IH]]; [now exists ""|]. simpl.
  destruct (is_space c).
  - exists (String c w). rewrite append_cons. now f_equal.
  - now exists "".
Qed.

Lemma rstrip_prefix (s : string) : exists w, s = rstrip s +:+ w.
Proof.
  induction s as [|c s [w IH]]; [now exists ""|]. simpl.
  destruct (rstrip s) as [|a r] eqn:E.
  - destruct (is_space c).
    + now exists (String c s).
    + exists w. rewrite append_cons. f_equal. exact IH.
  - exists w. rewrite append_cons. now f_equal.
Qed.

(** Stripping white space cannot make a separator appear. *)
Lemma contains_strip (sub s : string) :
  contains sub s = false -> contains sub (strip s) = false.
Proof.
  intros H. destruct (contains sub (strip s)) eqn:E; [|reflexivity].
  apply contains_iff in E as (a & b & E).
  destruct (lstrip_suffix s) as [w1 H1].
  destruct (rstrip_prefix (lstrip s)) as [w2 H2].
  assert (contains sub s = true) as C; [|congruence].
  apply contains_iff. exists (w1 +:+ a), (b +:+ w2).
  rewrite H1, H2. fold (strip s). rewrite E.
  now rewrite !append_assoc.
Qed.

Lemma rsplit_char_append (sep : ascii) (x p : string) :
  rsplit_char sep p = None ->
  rsplit_char sep (x +:+ String sep p) = Some (x, p).
Proof.
  intros H. induction x as [|c x IH].
  - rewrite append_nil_l. simpl. rewrite H. now rewrite Ascii.eqb_refl.
  - rewrite append_cons. simpl. now rewrite IH.
Qed.

Lemma rsplit_char_absent (sep : ascii) (p : string) :
  all_chars (fun c => c <> sep) p -> rsplit_char sep p = None.
Proof.
  unfold all_chars. induction p as [|c p IH]; [reflexivity|]. simpl.
  intros H. rewrite IH by auto.
  destruct (Ascii.eqb_spec c sep) as [->|]; [|reflexivity].
  exfalso. apply (H sep); auto.
Qed.

Lemma chars_of_append (u v : string) :
  list_ascii_of_string (u +:+ v)
  = (list_ascii_of_string u ++ list_ascii_of_string v)%list.
Proof.
  induction u as [|c u IH]; [reflexivity|]. rewrite append_cons. simpl. now rewrite IH.
Qed.

Lemma all_chars_append (P : ascii -> Prop) (u v : string) :
  all_chars P (u +:+ v) <-> all_chars P u /\ all_chars P v.
Proof.
  unfold all_chars. rewrite chars_of_append. split.
  - intros H. split; intros c Hc; apply H, in_or_app; auto.
  - intros [H1 H2] c [Hc|Hc]%in_app_or; auto.
Qed.

Lemma all_chars_weaken (P Q : ascii -> Prop) (w : string) :
  (forall c, P c -> Q c) -> all_chars P w -> all_chars Q w.
Proof. unfold all_chars. auto. Qed.

End StringFacts.

(** ** Parsing a candidate *)

(** ** What [int] returns *)

Lemma digit_val_range (c : ascii) : is_digit c = true -> 0 <= digit_val c <= 9.
Proof.
  unfold is_digit, in_range, digit_val. intros H.
  apply andb_prop in H as [H1 H2]. apply N.leb_le in H1, H2. lia.
Qed.

Lemma digit_count_nonneg (s : string) : 0 <= digit_count s.
Proof. induction s as [|c s IH]; simpl; [lia|]. destruct (is_digit c); lia. Qed.

Lemma parse_digits_bound (s : string) : forall prev acc n,
  0 <= acc ->
  parse_digits prev acc s = Some n ->
  acc * 10 ^ digit_count s <= n < (acc + 1) * 10 ^ digit_count s.
Proof.
  induction s as [|c s IH]; intros prev acc n A H; simpl in H.
  - destruct prev; [|discriminate]. injection H as <-. simpl. lia.
  - cbn [digit_count]. pose proof (digit_count_nonneg s) as K.
    destruct (is_digit c) eqn:D.
    + pose proof (digit_val_range c D) as V.
      apply IH in H; [|lia]. rewrite Z.pow_add_r, Z.pow_1_r by lia.
      assert (0 < 10 ^ digit_count s) by (apply Z.pow_pos_nonneg; lia). nia.
    + destruct (Ascii.eqb c "_" && prev); [|discriminate].
      apply IH in H; [|exact A]. rewrite Z.add_0_l. exact H.
Qed.

Lemma int_digits_bound (d : string) (n : Z) :
  int_digits d = Some n -> 0 <= n < 10 ^ max_str_digits.
Proof.
  unfold int_digits. destruct (Z.ltb_spec max_str_digits (digit_count d)) as [|L];
    [discriminate|].
  intros H. apply parse_digits_bound in H; [|lia].
  pose proof (digit_count_nonneg d) as K.
  assert (10 ^ digit_count d <= 10 ^ max_str_digits)
    by (apply Z.pow_le_mono_r; [lia | exact L]).
  assert (0 < 10 ^ digit_count d) by (apply Z.pow_pos_nonneg; lia).
  split; [nia|]. eapply Z.lt_le_trans; [|eassumption]. nia.
Qed.

(** A number [int] returns has at most 4300 digits, so that [str] of it
    does not raise either. *)
Lemma py_int_bound (s : string) (n : Z) :
  py_int s = Some n -> Z.abs n < 10 ^ max_str_digits.
Proof.
  unfold py_int.
  assert (forall d v, int_digits d = Some v -> Z.abs v < 10 ^ max_str_digits) as P.
  { intros d v H. apply int_digits_bound in H. rewrite Z.abs_eq; lia. }
  assert (forall d v, Z.opp <$> int_digits d = Some v ->
                      Z.abs v < 10 ^ max_str_digits) as N.
  { intros d v H. destruct (int_digits d) as [u|] eqn:E; [|discriminate].
    injection H as <-. rewrite Z.abs_opp. eauto. }
  destruct (int_rstrip (int_lstrip s)) as [|c d]; [apply P|].
  destruct (Ascii.eqb_spec c "-") as [->|N1]; [apply N|].
  destruct (Ascii.eqb_spec c "+") as [->|N2]; [apply P|].
  intros H. apply (P (String c d)).
  destruct c as [[] [] [] [] [] [] [] []]; first [exact H | now destruct N1 | now destruct N2].
Qed.

Lemma default_port_bound : Z.abs 8080 < 10 ^ max_str_digits.
Proof.
  apply Z.lt_le_trans with (10 ^ 4); [reflexivity|].
  apply Z.pow_le_mono_r; unfold max_str_digits; lia.
Qed.

Lemma port_bound (o : option Z) :
  (forall n, o = Some n -> Z.abs n < 10 ^ max_str_digits) ->
  Z.abs (match o with Some n => n | None => 8080 end) < 10 ^ max_str_digits.
Proof. destruct o; intros H; [now apply H | apply default_port_bound]. Qed.

(** Claim C9.  [_parse_proxy] is a total function, since the only exception
    its code can meet, the [ValueError] of [int], is caught.  A string in
    which [://] does not occur gets the protocol http.  When the text after
    the protocol has no colon the port is 8080 and the whole text is the
    host; when the text after its last colon does not parse as an integer
    the port is 8080 as well, and otherwise it is that integer.  The port
    has at most 4300 digits, so writing it into the URL and the identity
    does not raise.  The identity of the result of [_check_proxy] is
    [host:port] with these values. *)
Theorem parse_proxy_defaults :
  forall proxy,
    let '(proxy_url, protocol, host, port) := ProxyChecker._parse_proxy proxy in
    (contains "://" proxy = false -> protocol = "http")
    /\ match rsplit_char ":" (host_port_of proxy) with
       | None => host = host_port_of proxy /\ port = 8080%Z
       | Some (h, port_str) =>
           host = h /\ port = match py_int port_str with
                              | Some n => n
                              | None => 8080%Z
                              end
       end
    /\ proxy_url = protocol +:+ "://" +:+ host +:+ ":" +:+ str_of_Z port
    /\ (Z.abs port < 10 ^ max_str_digits)%Z
    /\ forall net real_ip,
         Net.proxy (ProxyChecker.checked_result net real_ip proxy)
         = host +:+ ":" +:+ str_of_Z port.
Proof.
  intros proxy.
  pose proof (fun net real_ip => run_probes_spec net real_ip proxy) as R.
  unfold ProxyChecker._parse_proxy, host_port_of in *.
  pose proof (contains_strip "://" proxy) as C. unfold contains in C.
  destruct (split_first "://" (strip proxy)) as [[scheme rest]|] eqn:S.
  - destruct (rsplit_char ":" rest) as [[h ps]|] eqn:P;
      (split; [intros H; specialize (C H); discriminate|]);
      (split; [auto|]); (split; [reflexivity|]);
      (split; [first [apply default_port_bound
                     | apply port_bound; intros n; apply py_int_bound]|]);
      intros net real_ip; now destruct (R net real_ip) as (_ & _ & _ & X & _).
  - destruct (rsplit_char ":" (strip proxy)) as [[h ps]|] eqn:P;
      (split; [reflexivity|]); (split; [auto|]); (split; [reflexivity|]);
      (split; [first [apply default_port_bound
                     | apply port_bound; intros n; apply py_int_bound]|]);
      intros net real_ip; now destruct (R net real_ip) as (_ & _ & _ & X & _).
Qed.

(** A candidate with a port that is not a number. *)
Lemma parse_proxy_defaults_witness :
  contains "://" "1.2.3.4:x" = false
  /\ ProxyChecker._parse_proxy "1.2.3.4:x"
     = ("http://1.2.3.4:8080", "http", "1.2.3.4", 8080%Z).
Proof.
  split; [reflexivity|].
  pose proof (parse_proxy_defaults "1.2.3.4:x") as H.
  destruct (ProxyChecker._parse_proxy "1.2.3.4:x") as [[[u pr] h] po] eqn:E.
  destruct H as (H1 & H2 & H3 & _).
  specialize (H1 eq_refl). vm_compute in H2. destruct H2 as [-> ->].
  subst pr. rewrite H3. reflexivity.
Defined.

(** [int] rejects a port that a separator FS..US precedes, though
    [str.strip] would remove it, and a literal of 4301 digits. *)
Lemma py_int_rejects :
  py_int (String (ascii_of_nat 28) "80") = None
  /\ py_int ("80" +:+ String (ascii_of_nat 31) "") = None
  /\ py_int (string_of_list_ascii (repeat "1"%char 4301)) = None
  /\ py_int (String (ascii_of_nat 160) " +8_0" +:+ String (ascii_of_nat 133) "")
     = Some 80
  /\ ProxyChecker._parse_proxy ("1.2.3.4:" +:+ String (ascii_of_nat 28) "80")
     = ("http://1.2.3.4:8080", "http", "1.2.3.4", 8080).
Proof.
  split; [|split; [|split; [|split]]]; vm_compute; reflexivity.
Qed.

(** ** The matcher finds matches only *)

Section MatcherSound.
Context {R : Type}.

Lemma rep_loop_sound (body : nat -> string -> captures -> @cont R -> option R)
    (step : mstate -> mstate -> Prop) (k : cont) :
  (forall i s caps k' res,
      body i s caps k' = Some res ->
      exists b, step (i, s, caps) b /\ after k' b = Some res) ->
  forall rounds lo i s caps res,
    rep_loop body k rounds lo i s caps = Some res ->
    exists n b, (lo <= n <= rounds)%nat
                /\ iter_rel step n (i, s, caps) b /\ after k b = Some res.
Proof.
  intros Hbody. induction rounds as [|rounds IH]; intros lo i s caps res H.
  - simpl in H. destruct lo; [|discriminate].
    exists O, (i, s, caps). simpl. auto.
  - simpl in H.
    destruct (body i s caps _) as [x|] eqn:E.
    + injection H as ->. apply Hbody in E as ([[i' s'] caps'] & Hstep & Hk).
      unfold after in Hk. simpl in Hk.
      apply IH in Hk as (n & b & Hn & Hit & Hk).
      exists (S n), b. split; [lia|]. split; [|exact Hk].
      simpl. eauto.
    + destruct lo; [|discriminate].
      exists O, (i, s, caps). simpl. split; [lia|]. auto.
Qed.

Lemma rmatch_sound (r : regex) :
  forall i s caps (k : @cont R) res,
    rmatch r i s caps k = Some res ->
    exists b, matches r (i, s, caps) b /\ after k b = Some res.
Proof.
  induction r as [|c|p|r1 IH1 r2 IH2|r1 IH1 r2 IH2|r IH lo hi|n r IH| |];
    intros i s caps k res H; simpl in H.
  - exists (i, s, caps). simpl. auto.
  - destruct s as [|a s]; [discriminate|].
    destruct (Ascii.eqb a c) eqn:E; [|discriminate].
    apply Ascii.eqb_eq in E as ->.
    exists (S i, s, caps). split; [|exact H]. simpl. eauto.
  - destruct s as [|a s]; [discriminate|].
    destruct (p a) eqn:E; [|discriminate].
    exists (S i, s, caps). split; [|exact H]. simpl. eauto 10.
  - apply IH1 in H as ([[i1 s1] c1] & M1 & H). unfold after in H. simpl in H.
    apply IH2 in H as (b & M2 & H).
    exists b. split; [|exact H]. simpl. eauto.
  - destruct (rmatch r1 i s caps k) as [x|] eqn:E.
    + injection H as ->. apply IH1 in E as (b & M & H).
      exists b. split; [|exact H]. simpl. auto.
    + apply IH2 in H as (b & M & H).
      exists b. split; [|exact H]. simpl. auto.
  - apply (rep_loop_sound _ (matches r)) in H as (n & b & Hn & Hit & Hk);
      [|exact IH].
    exists b. split; [|exact Hk]. simpl. exists n.
    split; [lia|]. split; [|exact Hit].
    destruct hi; simpl; [lia | exact I].
  - apply IH in H as ([[i' s'] caps'] & M & H). unfold after in H. simpl in H.
    exists (i', s', (n, take (i' - i) s) :: caps'). split; [|exact H].
    simpl. eauto.
  - destruct i; [|discriminate].
    exists (O, s, caps). split; [|exact H]. simpl. auto.
  - destruct s as [|a s].
    + exists (i, "", caps). split; [|exact H]. simpl. auto.
    + destruct s as [|a' s]; [|repeat (destruct a as [[] [] [] [] [] [] [] []]; try discriminate)].
      destruct a as [[] [] [] [] [] [] [] []]; try discriminate.
      exists (i, String "010" "", caps). split; [|exact H]. simpl. auto.
Qed.

End MatcherSound.

(** What a match consumes is a word of the pattern; a pattern without
    groups leaves the captures as they were. *)
Lemma matches_consumes (r : regex) :
  forall a b, matches r a b ->
    exists w, a.1.2 = w +:+ b.1.2
              /\ b.1.1 = (a.1.1 + String.length w)%nat
              /\ lang r w
              /\ (no_groups r = true -> b.2 = a.2).
Proof.
  induction r as [|c|p|r1 IH1 r2 IH2|r1 IH1 r2 IH2|r IH lo hi|n r IH| |];
    intros a b H; simpl in H.
  - subst b. exists "". repeat split; simpl; auto with lia.
  - destruct H as (i & s & caps & -> & ->). exists (String c "").
    repeat split; simpl; auto with lia.
  - destruct H as (i & x & s & caps & Hp & -> & ->).
    exists (String x ""). repeat split; simpl; eauto with lia.
  - destruct H as (c & H1 & H2).
    apply IH1 in H1 as (u & E1 & P1 & L1 & G1).
    apply IH2 in H2 as (v & E2 & P2 & L2 & G2).
    exists (u +:+ v). rewrite append_assoc, <- E2, <- E1, length_append.
    split; [reflexivity|]. split; [lia|]. split; [simpl; eauto|].
    simpl. intros [N1 N2]%andb_prop. rewrite G2, G1; auto.
  - destruct H as [H|H]; [apply IH1 in H|apply IH2 in H];
      destruct H as (w & E & P & L & G); exists w; simpl;
      (repeat split; auto); intros [N1 N2]%andb_prop; auto.
  - destruct H as (n & Hlo & Hhi & Hit).
    assert (exists w, a.1.2 = w +:+ b.1.2
                      /\ b.1.1 = (a.1.1 + String.length w)%nat
                      /\ iter_lang (lang r) n w
                      /\ (no_groups r = true -> b.2 = a.2)) as (w & E & P & L & G).
    { clear Hlo Hhi. revert a Hit. induction n as [|n IHn]; intros a Hit; simpl in Hit.
      - subst b. exists "". repeat split; simpl; auto with lia.
      - destruct Hit as (c & H1 & H2).
        apply IH in H1 as (u & E1 & P1 & L1 & G1).
        apply IHn in H2 as (v & E2 & P2 & L2 & G2).
        exists (u +:+ v). rewrite append_assoc, <- E2, <- E1, length_append.
        split; [reflexivity|]. split; [lia|]. split; [simpl; eauto|].
        intros N. rewrite G2, G1; auto. }
    exists w. simpl. eauto 10.
  - destruct H as (i & s & caps & H & ->).
    apply IH in H as (w & E & P & L & G). simpl in *.
    exists w. repeat split; auto. discriminate.
  - destruct H as [_ ->]. exists "". repeat split; simpl; auto with lia.
  - destruct H as [_ ->]. exists "". repeat split; simpl; auto with lia.
Qed.

(** A group around a pattern without groups records the word consumed. *)
Lemma matches_group (n : nat) (r : regex) (a b : mstate) :
  no_groups r = true ->
  matches (Grp n r) a b ->
  exists w, lang r w
            /\ a.1.2 = w +:+ b.1.2
            /\ b.2 = (n, w) :: a.2.
Proof.
  intros N (i & s & caps & H & ->).
  apply matches_consumes in H as (w & E & P & L & G). simpl in *.
  exists w. split; [exact L|]. split; [exact E|].
  rewrite G by exact N. rewrite E, P.
  replace (a.1.1 + String.length w - a.1.1)%nat with (String.length w) by lia.
  now rewrite take_append.
Qed.

Lemma matches_plain (r : regex) (a b : mstate) :
  no_groups r = true -> matches r a b -> b.2 = a.2.
Proof.
  intros N H. apply matches_consumes in H as (w & _ & _ & _ & G). auto.
Qed.

(** Every entry of [findall] is the groups of a match at some offset. *)
Lemma findall_from_match (r : regex) (m : captures) :
  forall s skip i,
    In m (findall_from r skip i s) ->
    exists i' s' j, match_at r i' s' = Some (m, j).
Proof.
  induction s as [|c s IH]; intros skip i H.
  - destruct skip; simpl in H; [|contradiction].
    destruct (match_at r i "") as [[caps j]|] eqn:E; [|contradiction].
    destruct H as [->|[]]. eauto.
  - destruct skip; simpl in H; [|eauto].
    destruct (match_at r i (String c s)) as [[caps j]|] eqn:E; [|eauto].
    destruct H as [->|H]; eauto.
Qed.

Lemma match_at_sound (r : regex) (i : nat) (s : string) (m : captures) (j : nat) :
  match_at r i s = Some (m, j) ->
  exists b, matches r (i, s, []) b /\ b.2 = m.
Proof.
  intros H. apply rmatch_sound in H as (b & M & H).
  injection H as H _. eauto.
Qed.

(** ** What the two patterns capture *)

Lemma lang_alphabet (P : ascii -> Prop) (r : regex) :
  alphabet P r -> forall w, lang r w -> all_chars P w.
Proof.
  induction r as [|c|p|r1 IH1 r2 IH2|r1 IH1 r2 IH2|r IH lo hi|n r IH| |];
    simpl; intros A w L.
  - subst w. intros c [].
  - subst w. intros x [<-|[]]. exact A.
  - destruct L as (x & Hx & ->). intros y [<-|[]]. auto.
  - destruct A as [A1 A2]. destruct L as (u & v & -> & L1 & L2).
    apply all_chars_append. auto.
  - destruct A as [A1 A2]. destruct L as [L|L]; auto.
  - destruct L as (n & _ & _ & L). revert w L.
    induction n as [|n IHn]; simpl; intros w L.
    + subst w. intros c [].
    + destruct L as (u & v & -> & L1 & L2). apply all_chars_append. auto.
  - auto.
  - subst w. intros c [].
  - subst w. intros c [].
Qed.

(** A repeated character class consumes as many characters as rounds. *)
Lemma lang_class_length (p : ascii -> bool) (lo : nat) (hi : option nat) (w : string) :
  lang (Rep (Cls p) lo hi) w ->
  (lo <= String.length w)%nat /\ within (String.length w) hi.
Proof.
  intros (n & Hlo & Hhi & L).
  assert (String.length w = n) as ->; [|auto].
  clear Hlo Hhi. revert w L. induction n as [|n IH]; simpl; intros w L.
  - now subst w.
  - destruct L as (u & v & -> & (x & _ & ->) & L).
    rewrite append_cons, append_nil_l. simpl. f_equal. now apply IH.
Qed.

Lemma port_re_shape (w : string) :
  lang port_re w ->
  (2 <= String.length w <= 5)%nat /\ all_chars (fun c => is_digit c = true) w.
Proof.
  intros L. split.
  - apply lang_class_length in L as [H1 H2]. simpl in H2. lia.
  - revert L. apply lang_alphabet. simpl. auto.
Qed.

Lemma ip_re_shape (w : string) :
  lang ip_re w -> all_chars (fun c => is_digit c = true \/ c = "."%char) w.
Proof.
  apply lang_alphabet. simpl. auto.
Qed.

Lemma matches_seq (r1 r2 : regex) (a b : mstate) :
  matches (Seq r1 r2) a b -> exists c, matches r1 a c /\ matches r2 c b.
Proof. exact id. Qed.

Lemma proxy_pattern_groups (i : nat) (s : string) (m : captures) (j : nat) :
  match_at proxy_pattern i s = Some (m, j) ->
  exists ip port, m = [(2%nat, port); (1%nat, ip)]
                  /\ lang ip_re ip /\ lang port_re port.
Proof.
  intros H. apply match_at_sound in H as (b & M & <-).
  unfold proxy_pattern in M.
  apply matches_seq in M as (c1 & M1 & M).
  apply matches_seq in M as (c2 & M2 & M).
  apply matches_seq in M as (c3 & M3 & M).
  apply matches_seq in M as (c4 & M4 & M5).
  apply matches_plain in M1; [|reflexivity].
  apply matches_group in M2 as (ip & Lip & _ & C2); [|reflexivity].
  apply matches_plain in M3; [|reflexivity].
  apply matches_group in M4 as (port & Lport & _ & C4); [|reflexivity].
  apply matches_plain in M5; [|reflexivity].
  exists ip, port. rewrite M5, C4, M3, C2, M1. auto.
Qed.

Lemma protocol_pattern_groups (i : nat) (s : string) (m : captures) (j : nat) :
  match_at protocol_pattern i s = Some (m, j) ->
  exists protocol ip port,
    m = [(3%nat, port); (2%nat, ip); (1%nat, protocol)]
    /\ lang scheme_re protocol /\ lang ip_re ip /\ lang port_re port.
Proof.
  intros H. apply match_at_sound in H as (b & M & <-).
  unfold protocol_pattern in M.
  apply matches_seq in M as (c1 & M1 & M).
  apply matches_seq in M as (c2 & M2 & M).
  apply matches_seq in M as (c3 & M3 & M).
  apply matches_seq in M as (c4 & M4 & M).
  apply matches_seq in M as (c5 & M5 & M6).
  apply matches_group in M1 as (protocol & Lpr & _ & C1); [|reflexivity].
  apply matches_plain in M2; [|reflexivity].
  apply matches_plain in M3; [|reflexivity].
  apply matches_group in M4 as (ip & Lip & _ & C4); [|reflexivity].
  apply matches_plain in M5; [|reflexivity].
  apply matches_group in M6 as (port & Lport & _ & C6); [|reflexivity].
  exists protocol, ip, port. rewrite C6, M5, C4, M3, M2, C1. auto.
Qed.

(** ** Extraction *)

Lemma octet_ok_iff (part : string) :
  octet_ok part = true <-> int_between 0 255 part.
Proof.
  unfold octet_ok, int_between. destruct (py_int part) as [v|]; split.
  - intros [H1 H2]%andb_prop. exists v. split; [reflexivity|]. lia.
  - intros (n & [= <-] & H). apply andb_true_intro. split; lia.
  - discriminate.
  - intros (n & H & _). discriminate.
Qed.

Lemma is_valid_ip_iff (ip : string) :
  _is_valid_ip ip = true <-> valid_ip_text ip.
Proof.
  unfold _is_valid_ip, valid_ip_text. split.
  - destruct (split_char "." ip) as [|a [|b [|c [|d [|e l]]]]]; try discriminate.
    simpl. intros H. exists a, b, c, d. split; [reflexivity|].
    repeat (apply andb_prop in H as [?%octet_ok_iff H]).
    repeat constructor; assumption.
  - intros (a & b & c & d & -> & H). simpl.
    repeat (apply Forall_cons in H as [?%octet_ok_iff H]).
    repeat (apply andb_true_intro; split); auto.
Qed.

Lemma is_valid_port_iff (port : string) :
  _is_valid_port port = true <-> valid_port_text port.
Proof.
  unfold _is_valid_port, valid_port_text, int_between.
  destruct (py_int port) as [v|]; split.
  - intros [H1 H2]%andb_prop. exists v. split; [reflexivity|]. lia.
  - intros (n & [= <-] & H). apply andb_true_intro. split; lia.
  - discriminate.
  - intros (n & H & _). discriminate.
Qed.

Lemma foldl_add_basic (l : list captures) : forall (acc : gset string) (c : string),
  c ∈ foldl add_basic_match acc l
  <-> c ∈ acc
      \/ exists m, In m l
           /\ _is_valid_ip (group 1 m) && _is_valid_port (group 2 m) = true
           /\ c = bare (group 1 m) (group 2 m).
Proof.
  induction l as [|m l IH]; intros acc c; simpl.
  - split; [auto | intros [H|(m & [] & _)]; exact H].
  - rewrite IH. unfold add_basic_match.
    destruct (_is_valid_ip (group 1 m) && _is_valid_port (group 2 m)) eqn:V.
    + rewrite elem_of_union, elem_of_singleton. split.
      * intros [[H| ->]|(m' & H1 & H2 & H3)]; eauto 10.
      * intros [H|(m' & [<-|H1] & H2 & H3)]; eauto 10.
    + split.
      * intros [H|(m' & H1 & H2 & H3)]; eauto 10.
      * intros [H|(m' & [<-|H1] & H2 & H3)]; eauto 10. congruence.
Qed.

Lemma foldl_add_protocol (l : list captures) : forall (acc : gset string) (c : string),
  c ∈ foldl add_protocol_match acc l
  <-> c ∈ acc
      \/ exists m, In m l
           /\ _is_valid_ip (group 2 m) && _is_valid_port (group 3 m) = true
           /\ c = qualified (group 1 m) (group 2 m) (group 3 m).
Proof.
  induction l as [|m l IH]; intros acc c; simpl.
  - split; [auto | intros [H|(m & [] & _)]; exact H].
  - rewrite IH. unfold add_protocol_match.
    destruct (_is_valid_ip (group 2 m) && _is_valid_port (group 3 m)) eqn:V.
    + rewrite elem_of_union, elem_of_singleton. split.
      * intros [[H| ->]|(m' & H1 & H2 & H3)]; eauto 10.
      * intros [H|(m' & [<-|H1] & H2 & H3)]; eauto 10.
    + split.
      * intros [H|(m' & H1 & H2 & H3)]; eauto 10.
      * intros [H|(m' & [<-|H1] & H2 & H3)]; eauto 10. congruence.
Qed.

(** The candidates are the valid matches of the two passes. *)
Lemma extract_iff (text c : string) :
  c ∈ extract text
  <-> (exists m, In m (findall protocol_pattern text)
         /\ _is_valid_ip (group 2 m) && _is_valid_port (group 3 m) = true
         /\ c = qualified (group 1 m) (group 2 m) (group 3 m))
      \/ (exists m, In m (findall proxy_pattern text)
         /\ _is_valid_ip (group 1 m) && _is_valid_port (group 2 m) = true
         /\ c = bare (group 1 m) (group 2 m)).
Proof.
  unfold extract. rewrite foldl_add_basic, foldl_add_protocol.
  rewrite elem_of_empty. tauto.
Qed.

Lemma findall_proxy_pattern (text : string) (m : captures) :
  In m (findall proxy_pattern text) ->
  exists ip port, m = [(2%nat, port); (1%nat, ip)]
                  /\ lang ip_re ip /\ lang port_re port.
Proof.
  intros H. apply findall_from_match in H as (i & s & j & H).
  now apply proxy_pattern_groups in H.
Qed.

Lemma findall_protocol_pattern (text : string) (m : captures) :
  In m (findall protocol_pattern text) ->
  exists protocol ip port,
    m = [(3%nat, port); (2%nat, ip); (1%nat, protocol)]
    /\ lang scheme_re protocol /\ lang ip_re ip /\ lang port_re port.
Proof.
  intros H. apply findall_from_match in H as (i & s & j & H).
  now apply protocol_pattern_groups in H.
Qed.

(** ** Candidates as the checker reads them *)

Lemma digit_tame (c : ascii) : is_digit c = true -> tame c.
Proof.
  destruct c as [[] [] [] [] [] [] [] []]; vm_compute; intros H;
    try discriminate; auto.
Qed.

Lemma digit_not (c x : ascii) :
  is_digit x = false -> is_digit c = true -> c <> x.
Proof. congruence. Qed.

Lemma lstrip_id (w : string) : all_chars tame w -> lstrip w = w.
Proof.
  destruct w as [|c w]; [reflexivity|]. intros H. simpl.
  destruct (H c) as [-> _]; simpl; auto.
Qed.

Lemma rstrip_id (w : string) : all_chars tame w -> rstrip w = w.
Proof.
  induction w as [|c w IH]; [reflexivity|]. intros H. simpl.
  rewrite IH by (intros x Hx; apply H; simpl; auto).
  destruct w; [|reflexivity].
  destruct (H c) as [-> _]; simpl; auto.
Qed.

Lemma strip_id (w : string) : all_chars tame w -> strip w = w.
Proof.
  intros H. unfold strip. rewrite lstrip_id by exact H. now apply rstrip_id.
Qed.

Lemma lower_id (w : string) : all_chars tame w -> lower w = w.
Proof.
  induction w as [|c w IH]; [reflexivity|]. intros H. simpl.
  rewrite IH by (intros x Hx; apply H; simpl; auto).
  destruct (H c) as [_ ->]; simpl; auto.
Qed.

Lemma split_first_absent (sep w : string) (x : ascii) :
  In x (list_ascii_of_string sep) ->
  all_chars (fun c => c <> x) w -> split_first sep w = None.
Proof.
  intros Hx H. destruct (split_first sep w) as [[a b]|] eqn:E; [|reflexivity].
  apply split_first_sound in E. subst w.
  apply all_chars_append in H as [_ H]. apply all_chars_append in H as [H _].
  exfalso. now apply (H x).
Qed.

Lemma drop_append (sep b : string) : drop (String.length sep) (sep +:+ b) = b.
Proof. induction sep as [|c sep IH]; [reflexivity|]. exact IH. Qed.

Lemma split_first_at (x : ascii) (sep a b : string) :
  all_chars (fun c => c <> x) a ->
  split_first (String x sep) (a +:+ String x sep +:+ b) = Some (a, b).
Proof.
  induction a as [|c a IH]; intros H; rewrite split_first_eq.
  - rewrite append_nil_l, prefix_append. now rewrite drop_append.
  - rewrite append_cons. simpl.
    destruct (ascii_dec x c) as [->|_].
    + exfalso. apply (H c); simpl; auto.
    + rewrite IH; [reflexivity|]. intros y Hy. apply H. simpl. auto.
Qed.

Lemma lang_lit (s w : string) : lang (lit s) w -> w = s.
Proof.
  revert w. induction s as [|c s IH]; simpl; intros w H; [exact H|].
  destruct H as (u & v & -> & -> & H). apply IH in H as ->. reflexivity.
Qed.

Lemma scheme_re_words (w : string) :
  lang scheme_re w -> In w ["http"; "https"; "socks4"; "socks5"].
Proof.
  intros [(u & v & -> & ->%lang_lit & (n & _ & Hn & H))
         |(u & v & -> & ->%lang_lit & (x & Hx & ->))].
  - simpl in Hn. destruct n as [|[|n]]; [| |lia]; simpl in H.
    + subst v. simpl. auto.
    + destruct H as (a & b & -> & -> & ->). simpl. auto.
  - apply orb_prop in Hx as [->%Ascii.eqb_eq| ->%Ascii.eqb_eq]; simpl; auto.
Qed.

Lemma ip_port_chars (ip port : string) :
  lang ip_re ip -> lang port_re port ->
  all_chars (fun c => tame c /\ c <> "/"%char) (ip +:+ ":" +:+ port)
  /\ all_chars (fun c => c <> ":"%char) port
  /\ all_chars (fun c => c <> ":"%char) ip.
Proof.
  intros Hip%ip_re_shape [_ Hport]%port_re_shape.
  assert (forall c, is_digit c = true -> (tame c /\ c <> "/"%char) /\ c <> ":"%char) as D.
  { intros c Hc. split; [split|]; [now apply digit_tame| |];
      (apply digit_not; [reflexivity | exact Hc]). }
  split; [|split].
  - apply all_chars_append. split; [|apply all_chars_append; split].
    + eapply all_chars_weaken; [|exact Hip].
      intros c [Hc| ->]; [now apply D | vm_compute; auto; split; [auto|discriminate]].
    + intros c [<-|[]]. vm_compute. split; [auto|discriminate].
    + eapply all_chars_weaken; [|exact Hport]. intros c Hc. now apply D.
  - eapply all_chars_weaken; [|exact Hport]. intros c Hc. now apply D.
  - eapply all_chars_weaken; [|exact Hip].
    intros c [Hc| ->]; [now apply D | discriminate].
Qed.

(** A bare candidate is read back as its IP and its port, with the
    protocol http. *)
Lemma parse_bare (ip port : string) :
  lang ip_re ip -> lang port_re port ->
  rsplit_char ":" (bare ip port) = Some (ip, port)
  /\ exists proxy_url,
       ProxyChecker._parse_proxy (bare ip port)
       = (proxy_url, "http", ip,
          match py_int port with Some n => n | None => 8080%Z end).
Proof.
  intros Hip Hport. destruct (ip_port_chars ip port Hip Hport) as (A & P & _).
  assert (rsplit_char ":" (bare ip port) = Some (ip, port)) as RS.
  { apply rsplit_char_append, rsplit_char_absent, P. }
  split; [exact RS|].
  unfold ProxyChecker._parse_proxy.
  rewrite strip_id by (eapply all_chars_weaken; [|exact A]; cbv beta; intros; tauto).
  rewrite (split_first_absent "://" _ "/")
    by (simpl; auto || (eapply all_chars_weaken; [|exact A]; cbv beta; intros; tauto)).
  unfold bare in RS |- *. rewrite RS. eauto.
Qed.

(** A candidate with a protocol is read back as that protocol, its IP and
    its port. *)
Lemma parse_qualified (protocol ip port : string) :
  lang scheme_re protocol -> lang ip_re ip -> lang port_re port ->
  rsplit_char ":" (qualified protocol ip port)
  = Some (protocol +:+ "://" +:+ ip, port)
  /\ exists proxy_url,
       ProxyChecker._parse_proxy (qualified protocol ip port)
       = (proxy_url, protocol, ip,
          match py_int port with Some n => n | None => 8080%Z end).
Proof.
  intros Hpr%scheme_re_words Hip Hport.
  destruct (ip_port_chars ip port Hip Hport) as (A & P & _).
  assert (all_chars (fun c => tame c /\ c <> ":"%char) protocol) as T.
  { simpl in Hpr. destruct Hpr as [<-|[<-|[<-|[<-|[]]]]]; intros c Hc; simpl in Hc;
      repeat (destruct Hc as [<-|Hc]; [vm_compute; split; [auto|discriminate]|]);
      destruct Hc. }
  split.
  - replace (qualified protocol ip port)
      with ((protocol +:+ "://" +:+ ip) +:+ String ":" port)
      by (unfold qualified; now rewrite !append_assoc).
    apply rsplit_char_append, rsplit_char_absent, P.
  - unfold ProxyChecker._parse_proxy.
    assert (all_chars tame (qualified protocol ip port)) as S.
    { unfold qualified. apply all_chars_append. split.
      - eapply all_chars_weaken; [|exact T]. cbv beta; intros; tauto.
      - apply all_chars_append. split.
        + intros c Hc. simpl in Hc.
          repeat (destruct Hc as [<-|Hc]; [vm_compute; auto|]). destruct Hc.
        + eapply all_chars_weaken; [|exact A]. cbv beta; intros; tauto. }
    rewrite strip_id by exact S. unfold qualified.
    rewrite split_first_at by (eapply all_chars_weaken; [|exact T]; cbv beta; intros; tauto).
    rewrite lower_id by (eapply all_chars_weaken; [|exact T]; cbv beta; intros; tauto).
    pose proof (rsplit_char_append ":" ip port (rsplit_char_absent _ _ P)) as RS.
    change (String ":" port) with (":" +:+ port) in RS. rewrite RS. eauto.
Qed.

(** ** What extraction yields *)

(** On the text of scenario A the bare pattern also matches the address
    inside the token with a protocol, so there is a third candidate. *)
Lemma scenario_A_third_candidate :
  let out := _scrape_from_url (Response 200 scenario_A) in
  "5.6.7.8:3128" ∈ out
  /\ out <> {[ "1.2.3.4:8080"; "http://5.6.7.8:3128" ]}.
Proof.
  cbv zeta. split.
  - vm_compute. reflexivity.
  - apply (bool_decide_unpack _). vm_compute. exact I.
Qed.

(** Claim C2, as the code has it.  Extraction on the text of scenario A
    yields exactly three candidates: [1.2.3.4:8080], [http://5.6.7.8:3128]
    and [5.6.7.8:3128].  Candidates are told apart as strings, so the bare
    match for the address that was also captured with a protocol is a
    candidate of its own.  The token with the malformed IP is matched and
    rejected by the IP check; the one with the malformed port is not
    matched at all. *)
Theorem scenario_A_extraction :
  let out := _scrape_from_url (Response 200 scenario_A) in
  out = {[ "1.2.3.4:8080"; "http://5.6.7.8:3128"; "5.6.7.8:3128" ]}
  /\ size out = 3%nat
  /\ map (fun m => (group 1 m, group 2 m)) (findall proxy_pattern scenario_A)
     = [("1.2.3.4", "8080"); ("5.6.7.8", "3128"); ("999.1.1.1", "80")]
  /\ _is_valid_ip "999.1.1.1" = false
  /\ findall proxy_pattern "bad:port" = []
  /\ map (fun m => (group 1 m, group 2 m, group 3 m))
         (findall protocol_pattern scenario_A)
     = [("http", "5.6.7.8", "3128")].
Proof.
  cbv zeta. repeat split; vm_compute; reflexivity.
Qed.

(** Only a response with status 200 yields candidates. *)
Lemma scrape_from_url_extract (r : fetched) (c : string) :
  c ∈ _scrape_from_url r ->
  exists text, r = Response 200 text /\ c ∈ extract text.
Proof.
  destruct r as [status text| |]; simpl; try (intros H; now apply elem_of_empty in H).
  destruct (Z.eqb_spec status 200) as [->|_]; [eauto|].
  intros H. now apply elem_of_empty in H.
Qed.

Lemma valid_port_value (port : string) :
  _is_valid_port port = true ->
  exists n, py_int port = Some n /\ (1 <= n <= 65535)%Z.
Proof. intros H. now apply is_valid_port_iff in H. Qed.

(** A candidate determines the IP and the port it was built from. *)
Lemma candidate_components (text c : string) :
  c ∈ extract text ->
  exists ip port,
    (c = bare ip port \/ exists protocol, c = qualified protocol ip port)
    /\ _is_valid_ip ip = true /\ _is_valid_port port = true
    /\ lang port_re port
    /\ (exists h, rsplit_char ":" c = Some (h, port))
    /\ exists proxy_url protocol,
         ProxyChecker._parse_proxy c
         = (proxy_url, protocol, ip,
            match py_int port with Some n => n | None => 8080%Z end).
Proof.
  intros [(m & Hm & V & ->)|(m & Hm & V & ->)]%extract_iff.
  - apply findall_protocol_pattern in Hm as (pr & ip & port & -> & Lpr & Lip & Lport).
    simpl in *. apply andb_prop in V as [V1 V2].
    destruct (parse_qualified pr ip port Lpr Lip Lport) as (RS & url & P).
    exists ip, port. repeat split; eauto.
  - apply findall_proxy_pattern in Hm as (ip & port & -> & Lip & Lport).
    simpl in *. apply andb_prop in V as [V1 V2].
    destruct (parse_bare ip port Lip Lport) as (RS & url & P).
    exists ip, port. repeat split; eauto.
Qed.

(** Claim C8.  Every candidate extraction yields is built from an IP of
    four dot-separated octets, each in [0,255], and a port that is an
    integer in [1,65535]; read back by the checker's parser it has that IP
    as host and that integer as port.  A match of either pattern that
    fails the two checks leaves no candidate in the output. *)
Theorem extracted_candidates_valid :
  forall text,
    (forall r c, c ∈ _scrape_from_url r ->
       exists ip port,
         (c = bare ip port \/ exists protocol, c = qualified protocol ip port)
         /\ valid_ip_text ip /\ valid_port_text port
         /\ exists proxy_url protocol n,
              ProxyChecker._parse_proxy c = (proxy_url, protocol, ip, n)
              /\ py_int port = Some n /\ (1 <= n <= 65535)%Z)
    /\ (forall m, In m (findall proxy_pattern text) ->
          _is_valid_ip (group 1 m) && _is_valid_port (group 2 m) = false ->
          bare (group 1 m) (group 2 m) ∉ _scrape_from_url (Response 200 text))
    /\ (forall m, In m (findall protocol_pattern text) ->
          _is_valid_ip (group 2 m) && _is_valid_port (group 3 m) = false ->
          qualified (group 1 m) (group 2 m) (group 3 m)
          ∉ _scrape_from_url (Response 200 text)).
Proof.
  intros text. change (_scrape_from_url (Response 200 text)) with (extract text).
  split; [|split].
  - intros r c (text' & _ & Hin)%scrape_from_url_extract.
    apply candidate_components in Hin
      as (ip & port & Hc & V1 & V2 & _ & _ & url & pr & P).
    exists ip, port. split; [exact Hc|].
    split; [now apply is_valid_ip_iff|]. split; [now apply is_valid_port_iff|].
    destruct (valid_port_value port V2) as (n & Hn & Hr).
    rewrite Hn in P. eauto 10.
  - intros m Hm V Hin.
    apply findall_proxy_pattern in Hm as (ip & port & -> & Lip & Lport).
    simpl in *.
    destruct (parse_bare ip port Lip Lport) as (RS & url & P).
    apply candidate_components in Hin
      as (ip' & port' & _ & V1 & V2 & _ & (h & RS') & url' & pr' & P').
    rewrite RS in RS'. injection RS' as _ <-.
    rewrite P in P'. injection P' as _ _ <-.
    rewrite V1, V2 in V. discriminate.
  - intros m Hm V Hin.
    apply findall_protocol_pattern in Hm as (pr & ip & port & -> & Lpr & Lip & Lport).
    simpl in *.
    destruct (parse_qualified pr ip port Lpr Lip Lport) as (RS & url & P).
    apply candidate_components in Hin
      as (ip' & port' & _ & V1 & V2 & _ & (h & RS') & url' & pr' & P').
    rewrite RS in RS'. injection RS' as _ <-.
    rewrite P in P'. injection P' as _ _ <-.
    rewrite V1, V2 in V. discriminate.
Qed.

(** The first candidate of scenario A. *)
Lemma extracted_candidates_valid_witness :
  "1.2.3.4:8080" ∈ _scrape_from_url (Response 200 scenario_A)
  /\ exists ip port,
       ("1.2.3.4:8080" = bare ip port
        \/ exists protocol, "1.2.3.4:8080" = qualified protocol ip port)
       /\ valid_ip_text ip /\ valid_port_text port
       /\ exists proxy_url protocol n,
            ProxyChecker._parse_proxy "1.2.3.4:8080" = (proxy_url, protocol, ip, n)
            /\ py_int port = Some n /\ (1 <= n <= 65535)%Z.
Proof.
  assert ("1.2.3.4:8080" ∈ _scrape_from_url (Response 200 scenario_A)) as H
    by (vm_compute; reflexivity).
  split; [exact H|].
  exact (proj1 (extracted_candidates_valid scenario_A)
           (Response 200 scenario_A) "1.2.3.4:8080" H).
Defined.

(** A port written with a leading zero: the candidate is extracted, and
    its port is 1. *)
Lemma leading_zero_port :
  "1.2.3.4:01" ∈ _scrape_from_url (Response 200 "1.2.3.4:01")
  /\ port_text "1.2.3.4:01" = "01"
  /\ py_int "01" = Some 1%Z
  /\ _is_valid_port "01" = true
  /\ ProxyChecker._parse_proxy "1.2.3.4:01"
     = ("http://1.2.3.4:1", "http", "1.2.3.4", 1%Z).
Proof.
  repeat split; vm_compute; reflexivity.
Qed.

(** Claim C10, as the code has it.  Both patterns take a port of two to
    five digits, so in every candidate extraction yields the text of the
    port, after the last colon, is two to five digits long: a port written
    as a single digit never appears.  (The number it denotes can still be
    below ten when it is written with leading zeros.) *)
Theorem extracted_port_digits :
  forall r c,
    c ∈ _scrape_from_url r ->
    (2 <= String.length (port_text c) <= 5)%nat
    /\ all_chars (fun x => is_digit x = true) (port_text c).
Proof.
  intros r c (text & _ & Hin)%scrape_from_url_extract.
  apply candidate_components in Hin
    as (ip & port & _ & _ & _ & Lport & (h & RS) & _).
  unfold port_text. rewrite RS. now apply port_re_shape.
Qed.

(** The first candidate of scenario A has a port of four digits. *)
Lemma extracted_port_digits_witness :
  "1.2.3.4:8080" ∈ _scrape_from_url (Response 200 scenario_A)
  /\ (2 <= String.length (port_text "1.2.3.4:8080") <= 5)%nat.
Proof.
  assert ("1.2.3.4:8080" ∈ _scrape_from_url (Response 200 scenario_A)) as H
    by (vm_compute; reflexivity).
  split; [exact H|].
  exact (proj1 (extracted_port_digits (Response 200 scenario_A) "1.2.3.4:8080" H)).
Defined.

(** * Further properties *)

(** ** Anonymity detection *)

Lemma detect_anonymity_spec :
  forall real_ip headers text,
    let a := ProxyChecker._detect_anonymity real_ip headers text in
    In a ["transparent"; "anonymous"; "elite"]
    /\ (a = "transparent"
        <-> exists ip, real_ip = Some ip /\ ip <> ""
              /\ (contains (lower ip) (lower text) = true
                  \/ contains (lower ip) (header_str headers) = true)).
Proof.
  intros real_ip headers text. unfold ProxyChecker._detect_anonymity.
  fold (header_str headers).
  generalize (existsb (fun header => contains header (header_str headers))
                      ProxyChecker.proxy_headers) as ph.
  intros ph. destruct real_ip as [[|c ip]|]; cbn [andb default].
  - destruct ph; split; simpl; auto; split; try discriminate;
      intros (ip & [= <-] & H & _); congruence.
  - destruct (contains _ (lower text)) eqn:B.
    { split; [simpl; auto|]. split; [|reflexivity]. intros _.
      exists (String c ip). repeat split; auto; discriminate. }
    destruct (contains _ (header_str headers)) eqn:H.
    { split; [simpl; auto|]. split; [|reflexivity]. intros _.
      exists (String c ip). repeat split; auto; discriminate. }
    destruct ph; split; simpl; auto; split; try discriminate;
      intros (ip' & [= <-] & _ & [E|E]); unfold id in *; congruence.
  - destruct ph; split; simpl; auto; split; try discriminate;
      intros (ip & [=] & _).
Qed.

(** [_detect_anonymity] answers transparent, anonymous or elite, never
    unknown, and it answers transparent exactly when the checker knows its
    own address and that address, in lower case, occurs in the lower-cased
    response text or header values. *)
Theorem detect_anonymity_classes :
  forall real_ip headers text,
    let a := ProxyChecker._detect_anonymity real_ip headers text in
    In a ["transparent"; "anonymous"; "elite"]
    /\ (a = "transparent"
        <-> exists ip, real_ip = Some ip /\ ip <> ""
              /\ (contains (lower ip) (lower text) = true
                  \/ contains (lower ip) (header_str headers) = true)).
Proof. exact detect_anonymity_spec. Qed.

Lemma detect_not_unknown real_ip headers text :
  String.eqb (ProxyChecker._detect_anonymity real_ip headers text) "unknown" = false.
Proof.
  destruct (detect_anonymity_spec real_ip headers text) as [H _].
  simpl in H. destruct H as [<-|[<-|[<-|[]]]]; reflexivity.
Qed.

Section ThoroughAnonymity.
Variables (net : network) (real_ip : option string) (host : string) (port : Z).

Let step := ProxyChecker.test_protocol net real_ip host port.
Let ok (protocol : string) : bool :=
  ProxyChecker.succeeded (net (ProxyChecker.probe protocol host port)).
Let seen (protocol : string) : string :=
  detected real_ip (net (ProxyChecker.probe protocol host port)).

Lemma test_protocol_anonymity res sent protocol :
  anonymity (step (res, sent) protocol).1
  = if ok protocol && String.eqb (anonymity res) "unknown"
    then seen protocol else anonymity res.
Proof.
  unfold ok, seen, step, ProxyChecker.test_protocol, ProxyChecker.succeeded, detected.
  destruct (net _) as [| |status e h [t|]]; try reflexivity.
  destruct (status =? 200)%Z; simpl; [|reflexivity].
  destruct (String.eqb _ _); reflexivity.
Qed.

Lemma seen_not_unknown protocol :
  ok protocol = true -> String.eqb (seen protocol) "unknown" = false.
Proof.
  unfold ok, seen, ProxyChecker.succeeded, detected.
  destruct (net _) as [| |status e h [t|]]; try discriminate.
  intros _. apply detect_not_unknown.
Qed.

Lemma loop_anonymity protos : forall res sent,
  anonymity (foldl step (res, sent) protos).1
  = if String.eqb (anonymity res) "unknown"
    then match head (List.filter ok protos) with
         | Some p => seen p
         | None => anonymity res
         end
    else anonymity res.
Proof.
  induction protos as [|p protos IH]; intros res sent.
  - simpl. destruct (String.eqb _ _); reflexivity.
  - cbn [foldl List.filter].
    destruct (step (res, sent) p) as [res1 sent1] eqn:E.
    rewrite IH. pose proof (test_protocol_anonymity res sent p) as A.
    rewrite E in A. simpl in A. rewrite A. clear A.
    destruct (ok p) eqn:Ok; simpl.
    + destruct (String.eqb (anonymity res) "unknown") eqn:U.
      * now rewrite seen_not_unknown.
      * now rewrite U.
    + destruct (String.eqb (anonymity res) "unknown"); reflexivity.
Qed.
End ThoroughAnonymity.

Lemma protocols_to_test_NoDup (detected_protocol : string) :
  NoDup (ProxyChecker.protocols_to_test detected_protocol)
  /\ (length (ProxyChecker.protocols_to_test detected_protocol) <= 2)%nat.
Proof.
  unfold ProxyChecker.protocols_to_test.
  destruct (ProxyChecker.is_socks _); [|destruct (String.eqb _ _)]; simpl;
    (split; [|lia]); repeat constructor;
    rewrite ?list_elem_of_In; simpl; intuition discriminate.
Qed.

Lemma filter_length_le {A} (f : A -> bool) (l : list A) :
  (length (List.filter f l) <= length l)%nat.
Proof.
  induction l as [|x l IH]; simpl; [lia|]. destruct (f x); simpl; lia.
Qed.

Lemma filter_NoDup {A} (f : A -> bool) (l : list A) :
  NoDup l -> NoDup (List.filter f l).
Proof.
  induction 1 as [|x l Hx Hl IH]; simpl; [constructor|].
  destruct (f x); [|exact IH]. constructor; [|exact IH].
  rewrite list_elem_of_In, filter_In, <- list_elem_of_In. tauto.
Qed.

Lemma checked_anonymity (net : network) (real_ip : option string) (proxy : string) :
  let '(_, d, host, port) := ProxyChecker._parse_proxy proxy in
  anonymity (ProxyChecker.checked_result net real_ip proxy)
  = match head (List.filter
                  (fun p => ProxyChecker.succeeded (net (ProxyChecker.probe p host port)))
                  (ProxyChecker.protocols_to_test d)) with
    | Some p => detected real_ip (net (ProxyChecker.probe p host port))
    | None => "unknown"
    end.
Proof.
  unfold ProxyChecker.checked_result, ProxyChecker.run_probes.
  destruct (ProxyChecker._parse_proxy proxy) as [[[u d] host] port].
  rewrite loop_anonymity. reflexivity.
Qed.

Lemma thorough_result_spec :
  forall net real_ip proxy r,
    ProxyChecker._check_proxy net real_ip proxy = Some r ->
    let '(_, detected_protocol, host, port) := ProxyChecker._parse_proxy proxy in
    NoDup (protocols r)
    /\ (1 <= length (protocols r) <= 2)%nat
    /\ (exists t, response_time r = Some t)
    /\ (exists p, head (protocols r) = Some p
                  /\ anonymity r
                     = detected real_ip (net (ProxyChecker.probe p host port)))
    /\ In (anonymity r) ["transparent"; "anonymous"; "elite"].
Proof.
  intros net real_ip proxy r H. unfold ProxyChecker._check_proxy in H.
  destruct (working _) eqn:W; [|discriminate]. injection H as <-.
  pose proof (run_probes_spec net real_ip proxy) as S.
  pose proof (checked_anonymity net real_ip proxy) as A.
  destruct (ProxyChecker._parse_proxy proxy) as [[[u d] host] port].
  destruct S as (_ & Hp & Hw & _ & Ht).
  destruct (protocols_to_test_NoDup d) as [ND LE].
  rewrite Hw in W. apply filter_nonempty in W.
  set (ok := fun p => ProxyChecker.succeeded (net (ProxyChecker.probe p host port))) in *.
  rewrite Hp, Ht, A. clear A Hp Ht Hw.
  pose proof (filter_length_le ok (ProxyChecker.protocols_to_test d)) as FL.
  pose proof (filter_NoDup ok _ ND) as FN.
  destruct (List.filter ok (ProxyChecker.protocols_to_test d)) as [|p l] eqn:F;
    [congruence|].
  assert (ok p = true) as Okp.
  { assert (In p (List.filter ok (ProxyChecker.protocols_to_test d))) as I
      by (rewrite F; simpl; auto).
    now apply filter_In in I. }
  split; [exact FN|].
  split; [simpl in *; lia|].
  split; [destruct (last (p :: l)) eqn:L; simpl; eauto;
          now apply last_None in L|].
  split; [exists p; simpl; auto|].
  simpl. unfold ok, ProxyChecker.succeeded in Okp. unfold detected.
  destruct (net _) as [| |status e h [t|]]; try discriminate.
  apply detect_anonymity_spec.
Qed.

(** A result the thorough [_check_proxy] returns names each protocol at
    most once and at most two of them, has a response time, and carries the
    anonymity class read off the first protocol that succeeded, which is
    never unknown. *)
Theorem thorough_result_shape :
  forall net real_ip proxy r,
    ProxyChecker._check_proxy net real_ip proxy = Some r ->
    let '(_, detected_protocol, host, port) := ProxyChecker._parse_proxy proxy in
    NoDup (protocols r)
    /\ (1 <= length (protocols r) <= 2)%nat
    /\ (exists t, response_time r = Some t)
    /\ (exists p, head (protocols r) = Some p
                  /\ anonymity r
                     = detected real_ip (net (ProxyChecker.probe p host port)))
    /\ In (anonymity r) ["transparent"; "anonymous"; "elite"].
Proof. exact thorough_result_spec. Qed.

(** A bare candidate whose HTTP probe is answered. *)
Lemma thorough_result_shape_witness :
  let net : network := fun _ => Reply 200 1 [] (Some "") in
  exists r, ProxyChecker._check_proxy net None "1.2.3.4:8080" = Some r
            /\ NoDup (protocols r)
            /\ In (anonymity r) ["transparent"; "anonymous"; "elite"].
Proof.
  cbv zeta. eexists. split; [vm_compute; reflexivity|].
  pose proof (thorough_result_shape (fun _ => Reply 200 1 [] (Some "")) None
                "1.2.3.4:8080" _ eq_refl) as H.
  destruct (ProxyChecker._parse_proxy "1.2.3.4:8080") as [[[u d] host] port].
  destruct H as (H1 & _ & _ & _ & H5). split; [exact H1 | exact H5].
Defined.

(** ** A whole run of the thorough checker *)

Lemma append_to_lookup (k k' : string) (r : result) (m : gmap string (list result)) :
  ProxyChecker.append_to k r m !! k'
  = if decide (k' = k) then (fun l => (l ++ [r])%list) <$> m !! k' else m !! k'.
Proof.
  unfold ProxyChecker.append_to. destruct (decide (k' = k)) as [->|N].
  - destruct (m !! k) eqn:E; [now rewrite lookup_insert_eq | now rewrite E].
  - destruct (m !! k); [now rewrite lookup_insert_ne|reflexivity].
Qed.

Lemma fold_append_to_lookup (r : result) (ks : list string) :
  NoDup ks ->
  forall (m : gmap string (list result)) (k' : string),
    foldl (fun m k => ProxyChecker.append_to k r m) m ks !! k'
    = if decide (k' ∈ ks) then (fun l => (l ++ [r])%list) <$> m !! k' else m !! k'.
Proof.
  induction 1 as [|k ks Hk ND IH]; intros m k'; simpl.
  - destruct (decide (k' ∈ [])) as [H|_]; [now apply elem_of_nil in H | reflexivity].
  - rewrite IH, append_to_lookup.
    repeat case_decide; simplify_eq; try reflexivity; exfalso; set_solver.
Qed.

(** The names under which a result of the thorough checker is filed, next
    to [all_working]. *)
Lemma thorough_result_names net real_ip proxy r :
  ProxyChecker._check_proxy net real_ip proxy = Some r ->
  NoDup (protocols r)
  /\ ("all_working" ∉ protocols r)
  /\ (anonymity r ∉ protocols r)
  /\ anonymity r <> "all_working".
Proof.
  intros H. pose proof (thorough_result_spec net real_ip proxy r H) as S.
  unfold ProxyChecker._check_proxy in H.
  destruct (working _); [|discriminate]. injection H as <-.
  pose proof (run_probes_spec net real_ip proxy) as P.
  destruct (ProxyChecker._parse_proxy proxy) as [[[u d] host] port].
  destruct S as (ND & _ & _ & _ & A). destruct P as (_ & Hp & _).
  assert (forall k, k ∈ protocols (ProxyChecker.checked_result net real_ip proxy) ->
                    In k ["http"; "https"; "socks4"; "socks5"]) as Names.
  { intros k Hk. rewrite Hp in Hk. apply list_elem_of_In, filter_In in Hk as [Hk _].
    unfold ProxyChecker.protocols_to_test, ProxyChecker.is_socks in Hk.
    destruct (String.eqb_spec d "socks4") as [->|_];
      [simpl in Hk |- *; tauto|].
    destruct (String.eqb_spec d "socks5") as [->|_];
      [simpl in Hk |- *; tauto|].
    simpl in Hk. destruct (String.eqb d "https"); simpl in Hk |- *; tauto. }
  split; [exact ND|]. split; [|split].
  - intros I. apply Names in I. simpl in I. intuition discriminate.
  - intros I. apply Names in I. simpl in A, I.
    destruct A as [A|[A|[A|[]]]]; rewrite <- A in I; intuition discriminate.
  - simpl in A. destruct A as [A|[A|[A|[]]]]; rewrite <- A; discriminate.
Qed.

(** Where [_categorize_result] files a result. *)
Lemma categorize_lookup (r : result) (m : gmap string (list result)) (k : string) :
  NoDup (protocols r) -> "all_working" ∉ protocols r ->
  anonymity r ∉ protocols r -> anonymity r <> "all_working" ->
  ProxyChecker._categorize_result r m !! k
  = if decide (k = "all_working" \/ k ∈ protocols r \/ k = anonymity r)
    then (fun l => (l ++ [r])%list) <$> m !! k else m !! k.
Proof.
  intros ND H1 H2 H3. unfold ProxyChecker._categorize_result.
  rewrite append_to_lookup, fold_append_to_lookup by exact ND.
  rewrite append_to_lookup.
  repeat case_decide; simplify_eq; try reflexivity; exfalso; tauto.
Qed.

Section ThoroughRun.
Variables (net : network).

Let check (st : ProxyChecker.state) (p : string) : option result :=
  ProxyChecker._check_proxy net (ProxyChecker.real_ip st) p.

Lemma check_with_progress_fields st p :
  let st' := ProxyChecker._check_with_progress net st p in
  ProxyChecker.real_ip st' = ProxyChecker.real_ip st
  /\ ProxyChecker.total_count st' = ProxyChecker.total_count st
  /\ ProxyChecker.checked_count st' = (ProxyChecker.checked_count st + 1)%Z
  /\ ProxyChecker.working_count st'
     = (ProxyChecker.working_count st
        + match check st p with Some _ => 1 | None => 0 end)%Z
  /\ ProxyChecker.results st'
     = match check st p with
       | Some r => ProxyChecker._categorize_result r (ProxyChecker.results st)
       | None => ProxyChecker.results st
       end.
Proof.
  unfold check, ProxyChecker._check_with_progress. cbv zeta.
  destruct (ProxyChecker._check_proxy _ _ _);
    destruct (_ =? 0)%Z; simpl; repeat split; lia.
Qed.

(** The state after a batch of checks, in terms of the results of the
    single checks. *)
Lemma run_fields (ps : list string) : forall st,
  let st' := foldl (ProxyChecker._check_with_progress net) st ps in
  let found := omap (check st) ps in
  ProxyChecker.real_ip st' = ProxyChecker.real_ip st
  /\ ProxyChecker.total_count st' = ProxyChecker.total_count st
  /\ ProxyChecker.checked_count st'
     = (ProxyChecker.checked_count st + Z.of_nat (length ps))%Z
  /\ ProxyChecker.working_count st'
     = (ProxyChecker.working_count st + Z.of_nat (length found))%Z
  /\ forall k,
       ProxyChecker.results st' !! k
       = (fun l => (l ++ List.filter
                      (fun r => bool_decide (k = "all_working" \/ k ∈ protocols r
                                             \/ k = anonymity r)) found)%list)
           <$> ProxyChecker.results st !! k.
Proof.
  induction ps as [|p ps IH]; intros st; cbn [foldl].
  - simpl. repeat split; try lia. intros k.
    destruct (_ !! k); simpl; [now rewrite app_nil_r | reflexivity].
  - destruct (check_with_progress_fields st p) as (Hi & Ht & Hc & Hw & Hr).
    destruct (IH (ProxyChecker._check_with_progress net st p))
      as (Hi' & Ht' & Hc' & Hw' & Hr').
    cbv zeta. unfold check in *. rewrite Hi in *.
    rewrite Hi', Ht', Hc', Hw', Ht, Hc, Hw. cbn [omap list_omap].
    split; [reflexivity|]. split; [reflexivity|].
    split; [cbn [length]; lia|].
    destruct (ProxyChecker._check_proxy net (ProxyChecker.real_ip st) p)
      as [r|] eqn:E; cbn [length].
    + split; [lia|]. intros k. rewrite Hr', Hr.
      destruct (thorough_result_names _ _ _ _ E) as (N1 & N2 & N3 & N4).
      rewrite categorize_lookup by assumption. cbn [List.filter].
      destruct (decide (k = "all_working" \/ k ∈ protocols r \/ k = anonymity r))
        as [D|D].
      * rewrite bool_decide_true by exact D.
        destruct (_ !! k); simpl; [|reflexivity]. now rewrite <- app_assoc.
      * rewrite bool_decide_false by exact D. reflexivity.
    + split; [lia|]. intros k. now rewrite Hr', Hr.
Qed.
End ThoroughRun.

Lemma thorough_check_all_run net detected_ip st proxies :
  proxies <> [] ->
  ProxyChecker.check_all net detected_ip st proxies
  = let st0 :=
      {| ProxyChecker.results := (fun _ : list result => []) <$> ProxyChecker.results st;
         ProxyChecker.checked_count := 0;
         ProxyChecker.total_count := Z.of_nat (length proxies);
         ProxyChecker.working_count := 0;
         ProxyChecker.real_ip := Some detected_ip;
         ProxyChecker.reported := ProxyChecker.reported st |} in
    let st1 := foldl (ProxyChecker._check_with_progress net) st0 proxies in
    ({| ProxyChecker.results := ProxyChecker.results st1;
        ProxyChecker.checked_count := ProxyChecker.checked_count st1;
        ProxyChecker.total_count := ProxyChecker.total_count st1;
        ProxyChecker.working_count := ProxyChecker.working_count st1;
        ProxyChecker.real_ip := ProxyChecker.real_ip st1;
        ProxyChecker.reported :=
          (ProxyChecker.reported st1 ++ [ProxyChecker.report st1])%list |},
     ProxyChecker.results st1).
Proof. destruct proxies; [congruence | reflexivity]. Qed.

Lemma thorough_buckets_lookup net detected_ip st proxies k :
  proxies <> [] ->
  (ProxyChecker.check_all net detected_ip st proxies).2 !! k
  = (fun _ => List.filter
                (fun r => bool_decide (k = "all_working" \/ k ∈ protocols r
                                       \/ k = anonymity r))
                (omap (ProxyChecker._check_proxy net (Some detected_ip)) proxies))
      <$> ProxyChecker.results st !! k.
Proof.
  intros NE. rewrite thorough_check_all_run by exact NE. cbv zeta. cbn [snd].
  match goal with
  | |- context [foldl _ ?st0 proxies] =>
      destruct (run_fields net proxies st0) as (_ & _ & _ & _ & Hr)
  end.
  rewrite Hr. cbn [ProxyChecker.results ProxyChecker.real_ip].
  rewrite lookup_fmap. destruct (ProxyChecker.results st !! k); reflexivity.
Qed.

(** After the thorough [check_all] on a non-empty set, run on a checker
    that has its [all_working] bucket, every bucket that existed before
    holds exactly the working results of this run that are filed under its
    name (all of them for [all_working], those with the protocol for a
    protocol bucket, those with the class for an anonymity bucket), in the
    order the checks completed; nothing of an earlier run is left, and no
    bucket is created. *)
Theorem thorough_check_all_buckets :
  forall net detected_ip st proxies,
    proxies <> [] ->
    ProxyChecker.results st !! "all_working" <> None ->
    let out := (ProxyChecker.check_all net detected_ip st proxies).2 in
    let found := omap (ProxyChecker._check_proxy net (Some detected_ip)) proxies in
    forall k,
      out !! k
      = (fun _ => List.filter
                    (fun r => bool_decide (k = "all_working" \/ k ∈ protocols r
                                           \/ k = anonymity r)) found)
          <$> ProxyChecker.results st !! k.
Proof.
  intros net detected_ip st proxies NE _ out found k. subst out found.
  now apply thorough_buckets_lookup.
Qed.

(** One candidate on a fresh checker. *)
Lemma thorough_check_all_buckets_witness :
  let net : network := fun _ => Reply 200 1 [] (Some "") in
  length (bucket (ProxyChecker.check_all net "9.9.9.9" ProxyChecker.init
                    ["1.2.3.4:8080"]).2 "https") = 1%nat.
Proof.
  cbv zeta. unfold bucket.
  rewrite (thorough_check_all_buckets (fun _ => Reply 200 1 [] (Some "")) "9.9.9.9"
             ProxyChecker.init ["1.2.3.4:8080"]);
    [vm_compute; reflexivity | discriminate | vm_compute; discriminate].
Defined.

Lemma omap_length_le {A B} (f : A -> option B) (l : list A) :
  (length (omap f l) <= length l)%nat.
Proof.
  induction l as [|x l IH]; cbn [omap list_omap length]; [lia|].
  destruct (f x); cbn [length]; fold (omap f l); lia.
Qed.

Lemma thorough_counts_spec :
  forall net detected_ip st proxies,
    proxies <> [] ->
    let st' := (ProxyChecker.check_all net detected_ip st proxies).1 in
    ProxyChecker.checked_count st' = Z.of_nat (length proxies)
    /\ ProxyChecker.total_count st' = Z.of_nat (length proxies)
    /\ ProxyChecker.working_count st'
       = Z.of_nat (length (omap (ProxyChecker._check_proxy net (Some detected_ip))
                                proxies))
    /\ (0 <= ProxyChecker.working_count st' <= ProxyChecker.checked_count st')%Z.
Proof.
  intros net detected_ip st proxies NE st'. subst st'.
  rewrite thorough_check_all_run by exact NE. cbv zeta. cbn [fst].
  match goal with
  | |- context [foldl _ ?st0 proxies] =>
      destruct (run_fields net proxies st0) as (_ & Ht & Hc & Hw & _)
  end.
  cbn [ProxyChecker.checked_count ProxyChecker.total_count
       ProxyChecker.working_count ProxyChecker.real_ip] in *.
  rewrite Ht, Hc, Hw.
  change (omap _ proxies)
    with (omap (ProxyChecker._check_proxy net (Some detected_ip)) proxies).
  pose proof (omap_length_le (ProxyChecker._check_proxy net (Some detected_ip)) proxies).
  repeat split; lia.
Qed.

(** After the thorough [check_all] on a non-empty set, [checked_count] and
    [total_count] are the number of candidates and [working_count] is the
    number of candidates whose check returned a result. *)
Theorem thorough_check_all_counts :
  forall net detected_ip st proxies,
    proxies <> [] ->
    let st' := (ProxyChecker.check_all net detected_ip st proxies).1 in
    ProxyChecker.checked_count st' = Z.of_nat (length proxies)
    /\ ProxyChecker.total_count st' = Z.of_nat (length proxies)
    /\ ProxyChecker.working_count st'
       = Z.of_nat (length (omap (ProxyChecker._check_proxy net (Some detected_ip))
                                proxies))
    /\ (0 <= ProxyChecker.working_count st' <= ProxyChecker.checked_count st')%Z.
Proof. exact thorough_counts_spec. Qed.

(** Two candidates, of which the network answers none. *)
Lemma thorough_check_all_counts_witness :
  let net : network := fun _ => TimedOut in
  let st' := (ProxyChecker.check_all net "9.9.9.9" ProxyChecker.init
                ["1.2.3.4:8080"; "5.6.7.8:3128"]).1 in
  ProxyChecker.checked_count st' = 2%Z /\ ProxyChecker.working_count st' = 0%Z.
Proof.
  cbv zeta.
  destruct (thorough_check_all_counts (fun _ => TimedOut) "9.9.9.9" ProxyChecker.init
              ["1.2.3.4:8080"; "5.6.7.8:3128"]) as (H1 & _ & H3 & _);
    [discriminate|].
  split; [exact H1 | exact H3].
Defined.

(** ** Results and runs of the fast checker *)

Lemma Qle_bool_total (a b : Q) : Qle_bool a b = false -> (b <= a)%Q.
Proof.
  intros H. destruct (Qlt_le_dec a b) as [L|L]; [|exact L].
  apply Qlt_le_weak, Qle_bool_iff in L. congruence.
Qed.

(** [min(times)] is one of the times and none is smaller. *)
Lemma min_time_spec (ts : list Q) : forall t,
  In (min_time t ts) (t :: ts)
  /\ forall u, In u (t :: ts) -> (min_time t ts <= u)%Q.
Proof.
  induction ts as [|x ts IH]; intros t; simpl.
  - split; [auto|]. intros u [<-|[]]. apply Qle_refl.
  - destruct (Qle_bool t x) eqn:E.
    + destruct (IH t) as [I L]. split.
      * destruct I as [I|I]; auto.
      * intros u [<-|[<-|U]]; [apply L; simpl; auto| |apply L; simpl; auto].
        apply Qle_bool_iff in E. eapply Qle_trans; [|exact E]. apply L. simpl. auto.
    + destruct (IH x) as [I L]. split.
      * destruct I as [I|I]; auto.
      * intros u [<-|[<-|U]]; [|apply L; simpl; auto|apply L; simpl; auto].
        apply Qle_bool_total in E. eapply Qle_trans; [|exact E]. apply L. simpl. auto.
Qed.

Lemma process_short (names : list string) (results : list (option Q)) :
  sublist (map fst (FastProxyChecker.process names results))
          (firstn (length results) names).
Proof.
  revert results. induction names as [|n names IH]; intros [|res results]; simpl;
    try apply sublist_nil_l.
  destruct res as [t|]; [destruct (positive_time t)|]; simpl;
    [apply sublist_skip | apply sublist_cons | apply sublist_cons]; apply IH.
Qed.

Lemma fast_result_spec :
  forall net fast_mode proxy r,
    FastProxyChecker._parallel_check_proxy net fast_mode proxy = Some r ->
    anonymity r = "anonymous"
    /\ Net.proxy r = proxy
    /\ sublist (protocols r)
               (if fast_mode then ["http"; "https"]
                else ["http"; "https"; "socks4"; "socks5"])
    /\ exists t, response_time r = Some t
         /\ (0 < t)%Q
         /\ (exists rq status headers text,
               In rq (FastProxyChecker.tasks fast_mode proxy)
               /\ net rq = Reply status t headers text
               /\ In status [200; 204; 301; 302]%Z)
         /\ forall rq status elapsed headers text,
              In rq (FastProxyChecker.tasks fast_mode proxy) ->
              net rq = Reply status elapsed headers text ->
              In status [200; 204; 301; 302]%Z -> (0 < elapsed)%Q ->
              (t <= elapsed)%Q.
Proof.
  intros net fast_mode proxy r H.
  unfold FastProxyChecker._parallel_check_proxy in H.
  destruct (working _) eqn:W; [|discriminate]. injection H as <-.
  unfold FastProxyChecker.checked_result in *. cbn [working anonymity protocols
    response_time Net.proxy] in *.
  set (results := map (fun rq => FastProxyChecker.quick (net rq))
                      (FastProxyChecker.tasks fast_mode proxy)) in *.
  split; [reflexivity|]. split; [reflexivity|]. split.
  { pose proof (process_short FastProxyChecker.protocol_names results) as S.
    subst results. rewrite length_map in S.
    destruct fast_mode; exact S. }
  assert (forall name u, In (name, u) (FastProxyChecker.process
                                         FastProxyChecker.protocol_names results)
            <-> positive_time u = true
                /\ exists rq, In (name, rq) (combine FastProxyChecker.protocol_names
                                              (FastProxyChecker.tasks fast_mode proxy))
                              /\ FastProxyChecker.quick (net rq) = Some u) as Hits.
  { intros name u. rewrite process_spec. subst results.
    rewrite combine_map_snd, in_map_iff. split.
    - intros [([n rq] & [= -> E] & I) P]. eauto.
    - intros [P (rq & I & E)]. split; [|exact P]. exists (name, rq). simpl.
      rewrite E. auto. }
  destruct (FastProxyChecker.process FastProxyChecker.protocol_names results)
    as [|[name t] hits] eqn:E; [discriminate|].
  simpl. destruct (min_time_spec (map snd hits) t) as [I L].
  exists (min_time t (map snd hits)).
  assert (forall u, In u (t :: map snd hits) ->
            exists n0, In (n0, u) ((name, t) :: hits)) as Back.
  { intros u [<-|U]; [exists name; simpl; auto|].
    apply in_map_iff in U as ([n u'] & <- & U). exists n. simpl. auto. }
  split; [reflexivity|].
  destruct (Back _ I) as (n & In_hit). apply Hits in In_hit as [P (rq & Irq & Q)].
  split; [now apply positive_time_iff|]. split.
  - apply quick_iff in Q as (status & h & txt & Q & A).
    exists rq, status, h, txt. split; [|auto].
    apply in_combine_r in Irq. exact Irq.
  - intros rq' status elapsed h txt I' N A P'. apply L.
    assert (exists n', In (n', rq') (combine FastProxyChecker.protocol_names
                                       (FastProxyChecker.tasks fast_mode proxy)))
      as (n' & C).
    { clear -I'. destruct fast_mode; simpl in I' |- *;
        repeat (destruct I' as [<-|I']; [eexists; eauto 6|]); destruct I'. }
    assert (In (n', elapsed) ((name, t) :: hits)) as X.
    { apply Hits. split; [now apply positive_time_iff|].
      exists rq'. split; [exact C|]. apply quick_iff. eauto. }
    destruct X as [[= _ <-]|X]; [simpl; auto|].
    right. apply in_map_iff. exists (n', elapsed). auto.
Qed.

(** A result the fast [_parallel_check_proxy] returns has the class
    anonymous, names protocols in the order http, https, socks4, socks5 and
    only the first two in fast mode, and has as response time the least of
    the times of its accepted probes, which is above zero. *)
Theorem fast_result_shape :
  forall net fast_mode proxy r,
    FastProxyChecker._parallel_check_proxy net fast_mode proxy = Some r ->
    anonymity r = "anonymous"
    /\ Net.proxy r = proxy
    /\ sublist (protocols r)
               (if fast_mode then ["http"; "https"]
                else ["http"; "https"; "socks4"; "socks5"])
    /\ exists t, response_time r = Some t
         /\ (0 < t)%Q
         /\ (exists rq status headers text,
               In rq (FastProxyChecker.tasks fast_mode proxy)
               /\ net rq = Reply status t headers text
               /\ In status [200; 204; 301; 302]%Z)
         /\ forall rq status elapsed headers text,
              In rq (FastProxyChecker.tasks fast_mode proxy) ->
              net rq = Reply status elapsed headers text ->
              In status [200; 204; 301; 302]%Z -> (0 < elapsed)%Q ->
              (t <= elapsed)%Q.
Proof. exact fast_result_spec. Qed.

(** A candidate whose HTTP probe is redirected after a third of a second. *)
Lemma fast_result_shape_witness :
  let net : network := fun _ => Reply 301 (1 # 3) [] None in
  exists r, FastProxyChecker._parallel_check_proxy net true "1.2.3.4:8080" = Some r
            /\ anonymity r = "anonymous"
            /\ sublist (protocols r) ["http"; "https"].
Proof.
  cbv zeta. eexists. split; [vm_compute; reflexivity|].
  destruct (fast_result_shape (fun _ => Reply 301 (1 # 3) [] None) true
              "1.2.3.4:8080" _ eq_refl) as (H1 & _ & H3 & _).
  split; [exact H1 | exact H3].
Defined.

Section FastRun.
Variables (net : network).

Let check (st : FastProxyChecker.state) (p : string) : option result :=
  FastProxyChecker._parallel_check_proxy net (FastProxyChecker.FAST_MODE st) p.

(** Only [all_working] is present, and it holds [l]. *)
Let only_all_working (m : gmap string (list result)) (l : list result) : Prop :=
  m !! "all_working" = match l with [] => None | _ :: _ => Some l end
  /\ forall k, k <> "all_working" -> m !! k = None.

Lemma fold_append_present_absent (r : result) (ks : list string) :
  forall m : gmap string (list result),
    Forall (fun k => m !! k = None) ks ->
    foldl (fun m k => FastProxyChecker.append_present k r m) m ks = m.
Proof.
  induction ks as [|k ks IH]; intros m H; simpl; [reflexivity|].
  apply Forall_cons in H as [Hk H].
  unfold FastProxyChecker.append_present at 2. rewrite Hk. now apply IH.
Qed.

Lemma fast_categorize m l p r :
  only_all_working m l ->
  (exists fm, FastProxyChecker._parallel_check_proxy net fm p = Some r) ->
  only_all_working (FastProxyChecker._categorize_result r m) (l ++ [r]).
Proof.
  intros [Haw Hother] (fm & E).
  destruct (fast_result_spec net fm p r E) as (A & _ & S & _).
  assert (forall k, k ∈ protocols r -> k <> "all_working") as Names.
  { intros k Hk ->. pose proof (elem_of_sublist _ _ _ Hk S) as I.
    apply list_elem_of_In in I. destruct fm; simpl in I; intuition discriminate. }
  unfold FastProxyChecker._categorize_result.
  set (m1 := FastProxyChecker.append_default "all_working" r m).
  assert (only_all_working m1 (l ++ [r])) as [H1 H2].
  { subst m1. unfold FastProxyChecker.append_default. split.
    - rewrite lookup_insert_eq, Haw. destruct l; simpl; reflexivity.
    - intros k N. rewrite lookup_insert_ne by congruence. now apply Hother. }
  rewrite fold_append_present_absent.
  - unfold FastProxyChecker.append_present.
    rewrite (H2 (anonymity r)) by (rewrite A; discriminate).
    split; [exact H1 | exact H2].
  - apply Forall_forall. intros k Hk. apply H2, Names, Hk.
Qed.

Lemma fast_run_fields (ps : list string) : forall st l,
  only_all_working (FastProxyChecker.results st) l ->
  let st' := foldl (FastProxyChecker._check_with_progress net) st ps in
  let found := omap (check st) ps in
  FastProxyChecker.FAST_MODE st' = FastProxyChecker.FAST_MODE st
  /\ FastProxyChecker.total_count st' = FastProxyChecker.total_count st
  /\ FastProxyChecker.checked_count st'
     = (FastProxyChecker.checked_count st + Z.of_nat (length ps))%Z
  /\ FastProxyChecker.working_count st'
     = (FastProxyChecker.working_count st + Z.of_nat (length found))%Z
  /\ only_all_working (FastProxyChecker.results st') (l ++ found).
Proof.
  induction ps as [|p ps IH]; intros st l Inv; cbn [foldl].
  - cbv zeta. cbn [omap list_omap length]. rewrite app_nil_r.
    repeat split; try lia; apply Inv.
  - set (st1 := FastProxyChecker._check_with_progress net st p).
    assert (FastProxyChecker.FAST_MODE st1 = FastProxyChecker.FAST_MODE st
            /\ FastProxyChecker.total_count st1 = FastProxyChecker.total_count st
            /\ FastProxyChecker.checked_count st1
               = (FastProxyChecker.checked_count st + 1)%Z
            /\ FastProxyChecker.working_count st1
               = (FastProxyChecker.working_count st
                  + match check st p with Some _ => 1 | None => 0 end)%Z
            /\ FastProxyChecker.results st1
               = match check st p with
                 | Some r => FastProxyChecker._categorize_result r
                               (FastProxyChecker.results st)
                 | None => FastProxyChecker.results st
                 end) as (Hm & Ht & Hc & Hw & Hr).
    { subst st1. unfold check, FastProxyChecker._check_with_progress. cbv zeta.
      destruct (FastProxyChecker._parallel_check_proxy _ _ _);
        destruct (_ =? 0)%Z; simpl; repeat split; lia. }
    assert (only_all_working (FastProxyChecker.results st1)
              (l ++ match check st p with Some r => [r] | None => [] end)) as Inv1.
    { rewrite Hr. destruct (check st p) as [r|] eqn:E.
      - eapply fast_categorize; [exact Inv|]. unfold check in E. eauto.
      - now rewrite app_nil_r. }
    destruct (IH st1 _ Inv1) as (Hm' & Ht' & Hc' & Hw' & Hr').
    cbv zeta. unfold check in *. rewrite Hm in *.
    rewrite Hm', Ht', Hc', Hw', Ht, Hc, Hw. cbn [omap list_omap].
    split; [reflexivity|]. split; [reflexivity|].
    split; [cbn [length]; lia|].
    destruct (FastProxyChecker._parallel_check_proxy net
                (FastProxyChecker.FAST_MODE st) p) as [r|] eqn:E; cbn [length].
    + split; [lia|]. rewrite <- app_assoc in Hr'. exact Hr'.
    + split; [lia|]. rewrite app_nil_r in Hr'. exact Hr'.
Qed.
End FastRun.

Lemma fast_check_all_spec :
  forall net st proxies fast_mode,
    let out := (FastProxyChecker.check_all net st proxies fast_mode).2 in
    let st' := (FastProxyChecker.check_all net st proxies fast_mode).1 in
    let found :=
      omap (FastProxyChecker._parallel_check_proxy net fast_mode) proxies in
    out !! "all_working" = match found with [] => None | _ :: _ => Some found end
    /\ (forall k, k <> "all_working" -> out !! k = None)
    /\ (forall k, k <> "all_working" -> bucket out k = [])
    /\ FastProxyChecker.checked_count st' = Z.of_nat (length proxies)
    /\ FastProxyChecker.total_count st' = Z.of_nat (length proxies)
    /\ FastProxyChecker.working_count st' = Z.of_nat (length found).
Proof.
  intros net st proxies fast_mode. cbv zeta.
  unfold FastProxyChecker.check_all. cbv zeta. cbn [fst snd].
  match goal with
  | |- context [foldl _ ?st0 proxies] =>
      destruct (fast_run_fields net proxies st0 []) as (_ & Ht & Hc & Hw & Ha & Ho)
  end.
  { split; [reflexivity|]. intros k _. apply lookup_empty. }
  cbn [FastProxyChecker.results FastProxyChecker.checked_count
       FastProxyChecker.total_count FastProxyChecker.working_count
       FastProxyChecker.FAST_MODE app] in *.
  change (omap _ proxies)
    with (omap (FastProxyChecker._parallel_check_proxy net fast_mode) proxies) in *.
  split; [exact Ha|]. split; [exact Ho|].
  split; [intros k N; unfold bucket; now rewrite Ho|].
  rewrite Ht, Hc, Hw. repeat split; lia.
Qed.

(** What the fast [check_all] returns never has a bucket other than
    [all_working]: the protocol and anonymity buckets are never created, so
    they read as empty whatever was found.  [all_working] is present when
    some candidate works and then lists the working results in the order the
    checks completed.  The counters are the number of candidates and the
    number of working ones. *)
Theorem fast_check_all_buckets :
  forall net st proxies fast_mode,
    let out := (FastProxyChecker.check_all net st proxies fast_mode).2 in
    let st' := (FastProxyChecker.check_all net st proxies fast_mode).1 in
    let found :=
      omap (FastProxyChecker._parallel_check_proxy net fast_mode) proxies in
    out !! "all_working" = match found with [] => None | _ :: _ => Some found end
    /\ (forall k, k <> "all_working" -> out !! k = None)
    /\ (forall k, k <> "all_working" -> bucket out k = [])
    /\ FastProxyChecker.checked_count st' = Z.of_nat (length proxies)
    /\ FastProxyChecker.total_count st' = Z.of_nat (length proxies)
    /\ FastProxyChecker.working_count st' = Z.of_nat (length found).
Proof. exact fast_check_all_spec. Qed.

(** ** Keys of the proxy cache *)

Section CacheKeys.
Import Database.

Lemma has_proxy_iff p r : has_proxy p r = true <-> proxy r = p.
Proof. unfold has_proxy. apply String.eqb_eq. Qed.

Lemma existsb_has_proxy p l :
  existsb (has_proxy p) l = true <-> In p (map proxy l).
Proof.
  rewrite existsb_exists, in_map_iff. split.
  - intros (r & I & H). apply has_proxy_iff in H. eauto.
  - intros (r & H & I). exists r. split; [exact I | now apply has_proxy_iff].
Qed.

Lemma map_same_keys {A} (key : cache_row -> A) (f : cache_row -> cache_row)
    (c : cache_row -> bool) (l : list cache_row) :
  (forall r, key (f r) = key r) ->
  map key (map (fun r => if c r then f r else r) l) = map key l.
Proof.
  intros H. rewrite map_map. apply map_ext. intros r.
  destruct (c r); [apply H | reflexivity].
Qed.

Lemma NoDup_map_filter {A} (key : cache_row -> A) (P : cache_row -> Prop)
    `{!forall r, Decision (P r)} (l : list cache_row) :
  NoDup (map key l) -> NoDup (map key (filter P l)).
Proof.
  induction l as [|r l IH]; simpl; [constructor|].
  intros ND. apply NoDup_cons in ND as [Hr ND].
  rewrite filter_cons. destruct (decide (P r)); [|auto].
  simpl. apply NoDup_cons. split; [|auto].
  intros I. apply Hr. apply list_elem_of_In in I. apply list_elem_of_In.
  apply in_map_iff in I as (x & E & I). apply in_map_iff. exists x.
  split; [exact E|]. apply list_elem_of_In. apply list_elem_of_In in I.
  now apply list_elem_of_filter in I as [_ I].
Qed.

Lemma run_keys_ok db c : keys_ok db -> keys_ok (run db c).
Proof.
  intros (Hp & Hi & Hl & H0).
  destruct c as [[[p protos anon rt | p | days] now] ok]; simpl.
  - unfold cache_working_proxy. destruct ok; simpl; [|repeat split; assumption].
    destruct (existsb (has_proxy p) (rows db)) eqn:E; unfold keys_ok; simpl.
    + rewrite !map_same_keys by reflexivity.
      split; [exact Hp|]. split; [exact Hi|]. split; [|lia].
      rewrite List.Forall_map. eapply Forall_impl; [exact Hl|].
      intros r Hr. simpl in *. destruct (has_proxy p r); simpl; lia.
    + rewrite !map_app. simpl. split; [|split; [|split]].
      * apply NoDup_app. repeat split; [exact Hp| |repeat constructor; set_solver].
        intros x Hx [<-|[]]%list_elem_of_In. apply list_elem_of_In in Hx.
        apply existsb_has_proxy in Hx. congruence.
      * apply NoDup_app. repeat split; [exact Hi| |repeat constructor; set_solver].
        intros x Hx [<-|[]]%list_elem_of_In.
        apply list_elem_of_In, in_map_iff in Hx as (r & E' & I).
        rewrite Forall_forall in Hl. apply list_elem_of_In, Hl in I. lia.
      * apply Forall_app. split.
        -- eapply Forall_impl; [exact Hl|]. intros r Hr. simpl in *. lia.
        -- constructor; [simpl; lia | constructor].
      * lia.
  - unfold mark_proxy_dead. destruct ok; simpl; [|repeat split; assumption].
    unfold keys_ok. simpl. rewrite !map_same_keys by reflexivity.
    repeat split; try assumption.
    rewrite List.Forall_map. eapply Forall_impl; [exact Hl|].
    intros r Hr. simpl. now destruct (has_proxy p r).
  - unfold cleanup_old_cached_proxies.
    destruct (minus_seconds _ _); simpl; [|repeat split; assumption].
    destruct ok; simpl; [|repeat split; assumption].
    unfold keys_ok. simpl. split; [|split; [|split]].
    + now apply NoDup_map_filter.
    + now apply NoDup_map_filter.
    + rewrite Forall_forall in Hl. apply Forall_forall. intros r Hr.
      apply list_elem_of_filter in Hr as [_ Hr]. auto.
    + exact H0.
Qed.

Lemma run_last_id db c :
  last_id (run db c) = (last_id db + (if uses_id c then 1 else 0))%Z.
Proof.
  destruct c as [[[p protos anon rt | p | days] now] ok]; cbn [run uses_id].
  - unfold cache_working_proxy. destruct ok; cbn [negb]; [|lia].
    destruct (existsb (has_proxy p) (rows db)); cbn [last_id]; lia.
  - unfold mark_proxy_dead. destruct ok; cbn [negb last_id]; lia.
  - unfold cleanup_old_cached_proxies.
    destruct (minus_seconds _ _); cbn [default from_option Datatypes.id]; [|lia].
    destruct ok; cbn [negb last_id]; lia.
Qed.

Lemma run_all_last_id cs : forall db,
  last_id (run_all db cs)
  = (last_id db + Z.of_nat (length (List.filter uses_id cs)))%Z.
Proof.
  unfold run_all. induction cs as [|c cs IH]; intros db; simpl; [lia|].
  rewrite IH, run_last_id. destruct (uses_id c); simpl length; lia.
Qed.
End CacheKeys.

(** After any sequence of calls on the proxy cache, committed or rolled
    back, no two rows have the same proxy or the same id, and every id lies
    between 1 and the counter of the table, so a swept id is not given out
    again.  The counter is the number of committed [cache_working_proxy]
    calls: one that refreshes a row uses up an id like one that inserts. *)
Theorem cache_keys_unique :
  forall cs,
    let db := Database.run_all Database.empty cs in
    keys_ok db
    /\ Database.last_id db = Z.of_nat (length (List.filter uses_id cs)).
Proof.
  intros cs db. split; [|apply (run_all_last_id cs Database.empty)].
  subst db. unfold Database.run_all.
  assert (keys_ok Database.empty) as H
    by (repeat split; simpl; try constructor; lia).
  revert H. generalize Database.empty.
  induction cs as [|c cs IH]; intros db H; simpl; [exact H|].
  apply IH, run_keys_ok, H.
Qed.

(** Three upserts of one proxy, then one of another: the rows have the ids
    1 and 4. *)
Lemma upserts_use_ids :
  let t := {| year := 2026; month := 11; day := 3;
              hour := 12; minute := 0; second := 0; microsecond := 0 |} in
  let a := Database.Upsert "1.2.3.4:80" ["http"] "elite" (1 # 2) in
  let b := Database.Upsert "5.6.7.8:80" ["http"] "elite" (1 # 2) in
  let db := Database.run_all Database.empty
              [(a, t, true); (a, t, true); (a, t, true);
               (Database.MarkDead "1.2.3.4:80", t, true); (b, t, true)] in
  map Database.id (Database.rows db) = [1; 4]%Z /\ Database.last_id db = 4%Z.
Proof. vm_compute. split; reflexivity. Qed.

(** ** Dates as SQLite and [isoformat] write them *)

Lemma compare_app (a : string) : forall (b s t : string),
  String.length a = String.length b ->
  String.compare (a +:+ s) (b +:+ t)
  = match String.compare a b with Eq => String.compare s t | c => c end.
Proof.
  induction a as [|x a IH]; intros [|y b] s t L; try discriminate; [reflexivity|].
  change (String x a +:+ s) with (String x (a +:+ s)).
  change (String y b +:+ t) with (String y (b +:+ t)).
  cbn [String.compare]. destruct (Ascii.compare x y); try reflexivity.
  apply IH. simpl in L. congruence.
Qed.

Lemma length_app_string (a b : string) :
  String.length (a +:+ b) = (String.length a + String.length b)%nat.
Proof.
  induction a as [|x a IH]; [reflexivity|].
  change (String x a +:+ b) with (String x (a +:+ b)). simpl. now rewrite IH.
Qed.

Lemma pad_length (w : nat) : forall n, String.length (pad w n) = w.
Proof.
  induction w as [|w IH]; intros n; [reflexivity|].
  cbn [pad]. rewrite length_app_string, IH. simpl. lia.
Qed.

Lemma compare_digit (a b : Z) :
  0 <= a < 10 -> 0 <= b < 10 ->
  Ascii.compare (ascii_of_N (Z.to_N (48 + a))) (ascii_of_N (Z.to_N (48 + b)))
  = (a ?= b).
Proof.
  intros Ha Hb. unfold Ascii.compare.
  rewrite !N_ascii_embedding by lia.
  rewrite Z2N.inj_compare by lia.
  destruct (Z.compare_spec a b), (Z.compare_spec (48 + a) (48 + b)); try reflexivity; lia.
Qed.

Lemma compare_pad (w : nat) : forall a b,
  0 <= a < 10 ^ Z.of_nat w -> 0 <= b < 10 ^ Z.of_nat w ->
  String.compare (pad w a) (pad w b) = (a ?= b).
Proof.
  induction w as [|w IH]; intros a b Ha Hb.
  - simpl in *. assert (a = 0) by lia. assert (b = 0) by lia. now subst.
  - cbn [pad]. rewrite compare_app by now rewrite !pad_length.
    rewrite Nat2Z.inj_succ, Z.pow_succ_r in Ha, Hb by lia.
    pose proof (Z.div_mod a 10 ltac:(lia)). pose proof (Z.div_mod b 10 ltac:(lia)).
    pose proof (Z.mod_pos_bound a 10 ltac:(lia)).
    pose proof (Z.mod_pos_bound b 10 ltac:(lia)).
    rewrite IH by (split; [apply Z.div_pos; lia | apply Z.div_lt_upper_bound; lia]).
    cbn [String.compare]. rewrite compare_digit by lia.
    destruct (Z.compare_spec (a / 10) (b / 10)), (Z.compare_spec (a mod 10) (b mod 10)),
      (Z.compare_spec a b); try reflexivity; lia.
Qed.

Lemma compare_date (c t : datetime) :
  calendar c -> calendar t ->
  String.compare (date_text c) (date_text t) = Lt <-> day_before c t.
Proof.
  intros (Cy & Cm & Cd) (Ty & Tm & Td). unfold date_text, day_before.
  rewrite compare_app by now rewrite !pad_length.
  rewrite (compare_app "-" "-") by reflexivity.
  rewrite compare_app by now rewrite !pad_length.
  rewrite (compare_app "-" "-") by reflexivity.
  rewrite !compare_pad by (simpl; lia).
  change (String.compare "-" "-") with Eq. cbv iota.
  destruct (Z.compare_spec (year c) (year t)), (Z.compare_spec (month c) (month t)),
      (Z.compare_spec (day c) (day t)); split; intros; try discriminate; try reflexivity; lia.
Qed.

Lemma text_lt_stamp_iso (c t : datetime) :
  calendar c -> calendar t ->
  Database.text_lt (isoformat c) (current_timestamp t) = true <-> day_before c t.
Proof.
  intros Hc Ht. rewrite <- (compare_date c t Hc Ht).
  unfold Database.text_lt, String.ltb, isoformat, current_timestamp.
  rewrite compare_app.
  2:{ unfold date_text. rewrite !length_app_string, !pad_length. reflexivity. }
  destruct (String.compare (date_text c) (date_text t)); split; try discriminate; try reflexivity.
Qed.

Lemma text_lt_iso_stamp (c t : datetime) :
  calendar c -> calendar t ->
  Database.text_lt (current_timestamp t) (isoformat c) = false <-> day_before c t.
Proof.
  intros Hc Ht. rewrite <- (compare_date c t Hc Ht).
  unfold Database.text_lt, String.ltb, isoformat, current_timestamp.
  rewrite compare_app.
  2:{ unfold date_text. rewrite !length_app_string, !pad_length. reflexivity. }
  rewrite String.compare_antisym.
  destruct (String.compare (date_text c) (date_text t)); split; try discriminate; try reflexivity.
Qed.

Lemma civil_from_days_calendar (z y m d : Z) :
  civil_from_days z = (y, m, d) -> 1 <= m <= 12 /\ 1 <= d <= 31.
Proof.
  unfold civil_from_days. intros [= _ <- <-].
  set (z' := z + 719468).
  set (era := z' / 146097).
  set (doe := z' - era * 146097).
  assert (0 <= doe <= 146096) as Hdoe.
  { unfold doe, era. pose proof (Z.div_mod z' 146097 ltac:(lia)).
    pose proof (Z.mod_pos_bound z' 146097 ltac:(lia)). lia. }
  clearbody doe. clear era z' z y.
  set (yoe := (doe - doe / 1460 + doe / 36524 - doe / 146096) / 365).
  set (doy := doe - (365 * yoe + yoe / 4 - yoe / 100)).
  assert (0 <= doy <= 365) as Hdoy.
  { unfold doy, yoe. Z.div_mod_to_equations. lia. }
  clearbody doy. clear yoe doe Hdoe.
  set (mp := (5 * doy + 2) / 153).
  assert (0 <= mp <= 11) by (unfold mp; Z.div_mod_to_equations; lia).
  split.
  - destruct (Z.ltb_spec mp 10); lia.
  - unfold mp. Z.div_mod_to_equations. lia.
Qed.

Lemma minus_seconds_calendar (t : datetime) (n : Z) (c : datetime) :
  minus_seconds t n = Some c -> calendar c.
Proof.
  unfold minus_seconds.
  destruct (civil_from_days _) as [[y m] d] eqn:E.
  apply civil_from_days_calendar in E.
  destruct (Z.leb_spec 1 y), (Z.leb_spec y 9999); simpl; try discriminate.
  intros [= <-]. unfold calendar. simpl. lia.
Qed.

Section CacheQuery.
Import Database.

Lemma insert_row_perm (r : cache_row) (l : list cache_row) :
  insert_row r l ≡ₚ r :: l.
Proof.
  induction l as [|x l IH]; simpl; [reflexivity|].
  destruct (negb _); [|reflexivity].
  rewrite IH. apply Permutation_swap.
Qed.

Lemma order_by_perm (l : list cache_row) : order_by_response_time l ≡ₚ l.
Proof.
  induction l as [|x l IH]; simpl; [reflexivity|].
  rewrite insert_row_perm. now rewrite IH.
Qed.

Lemma insert_row_sorted (r : cache_row) (l : list cache_row) :
  StronglySorted by_time l -> StronglySorted by_time (insert_row r l).
Proof.
  induction 1 as [|x l S IH F]; simpl; [repeat constructor|].
  destruct (Qle_bool (response_time r) (response_time x)) eqn:E; simpl.
  - apply Qle_bool_iff in E. constructor; [now constructor|].
    constructor; [exact E|].
    eapply Forall_impl; [exact F|]. intros y Hy. unfold by_time in *.
    eapply Qle_trans; eauto.
  - apply Qle_bool_total in E. constructor; [exact IH|].
    apply Forall_forall. intros y Hy.
    apply list_elem_of_In in Hy.
    apply (Permutation_in _ (insert_row_perm r l)) in Hy as [<-|Hy]; [exact E|].
    rewrite Forall_forall in F. apply F. now apply list_elem_of_In.
Qed.

Lemma order_by_sorted (l : list cache_row) :
  StronglySorted by_time (order_by_response_time l).
Proof.
  induction l as [|x l IH]; simpl; [constructor|]. now apply insert_row_sorted.
Qed.

Lemma in_filter_bool (f : cache_row -> bool) (l : list cache_row) (r : cache_row) :
  In r (filter f l) <-> In r l /\ f r = true.
Proof.
  rewrite <- !list_elem_of_In, list_elem_of_filter.
  rewrite Is_true_true. tauto.
Qed.

Lemma selected_iff (cutoff : string) (protocol anonymity : option string) (r : cache_row) :
  selected cutoff protocol anonymity r = true
  <-> is_working r = true
      /\ text_lt cutoff (last_checked r) = true
      /\ (forall p, given protocol = Some p ->
            sql_like ("%" +:+ p +:+ "%") (protocols r) = true)
      /\ (forall a, given anonymity = Some a -> Database.anonymity r = a).
Proof.
  unfold selected. rewrite !andb_true_iff. split.
  - intros [[[H1 H2] H3] H4]. split; [|split; [|split]]; auto.
    + intros p E. now rewrite E in H3.
    + intros a E. rewrite E in H4. now apply String.eqb_eq.
  - intros (H1 & H2 & H3 & H4). repeat split; auto.
    + destruct (given protocol); auto.
    + destruct (given anonymity); auto. apply String.eqb_eq. auto.
Qed.

Lemma query_result (now : datetime) (db : table) (protocol anonymity : option string)
    (h : Z) (l : list cache_row) :
  get_cached_proxies now db protocol anonymity h = Some l ->
  exists cutoff, minus_seconds now (h * 3600) = Some cutoff
    /\ l = order_by_response_time
             (filter (selected (isoformat cutoff) protocol anonymity) (rows db)).
Proof.
  unfold get_cached_proxies. destruct (minus_seconds _ _) as [c|]; [|discriminate].
  intros [= <-]. eauto.
Qed.

Lemma row_of_map (p q : string) (f : cache_row -> cache_row) (l : list cache_row) :
  (forall r, proxy (f r) = proxy r) -> q <> p ->
  List.find (has_proxy q) (map (fun r => if has_proxy p r then f r else r) l)
  = List.find (has_proxy q) l.
Proof.
  intros Hf Hq. induction l as [|x l IH]; [reflexivity|]. simpl.
  destruct (has_proxy p x) eqn:P.
  - apply has_proxy_iff in P.
    assert (has_proxy q (f x) = false) as ->.
    { apply not_true_is_false. rewrite has_proxy_iff, Hf. congruence. }
    assert (has_proxy q x = false) as ->.
    { apply not_true_is_false. rewrite has_proxy_iff. congruence. }
    exact IH.
  - now rewrite IH.
Qed.

Lemma row_of_map_hit (p : string) (f : cache_row -> cache_row) (l : list cache_row) :
  (forall r, proxy (f r) = proxy r) ->
  List.find (has_proxy p) (map (fun r => if has_proxy p r then f r else r) l)
  = f <$> List.find (has_proxy p) l.
Proof.
  intros Hf. induction l as [|x l IH]; [reflexivity|]. simpl.
  destruct (has_proxy p x) eqn:P.
  - assert (has_proxy p (f x) = true) as ->; [|reflexivity].
    apply has_proxy_iff. rewrite Hf. now apply has_proxy_iff.
  - now rewrite P.
Qed.

Lemma find_none_existsb (p : string) (l : list cache_row) :
  List.find (has_proxy p) l = None <-> existsb (has_proxy p) l = false.
Proof.
  induction l as [|x l IH]; simpl; [tauto|].
  destruct (has_proxy p x); simpl; [split; discriminate | exact IH].
Qed.

Lemma find_app_none (p : string) (l : list cache_row) (x : cache_row) :
  List.find (has_proxy p) l = None ->
  List.find (has_proxy p) (l ++ [x])%list
  = if has_proxy p x then Some x else None.
Proof.
  induction l as [|y l IH]; simpl; [reflexivity|].
  destruct (has_proxy p y); [discriminate | exact IH].
Qed.

Lemma find_app_other (q : string) (l : list cache_row) (x : cache_row) :
  has_proxy q x = false ->
  List.find (has_proxy q) (l ++ [x])%list = List.find (has_proxy q) l.
Proof.
  intros H. induction l as [|y l IH]; simpl; [now rewrite H|].
  destruct (has_proxy q y); [reflexivity | exact IH].
Qed.

End CacheQuery.

(** A query of the cache returns working rows of the table, each as often
    as the table holds it, in ascending order of response time. *)
Theorem cached_query_sorted :
  forall now db protocol anonymity max_age_hours l,
    Database.get_cached_proxies now db protocol anonymity max_age_hours = Some l ->
    StronglySorted by_time l
    /\ (exists cutoff,
          minus_seconds now (max_age_hours * 3600) = Some cutoff
          /\ l ≡ₚ filter (Database.selected (isoformat cutoff) protocol anonymity)
                         (Database.rows db))
    /\ forall r, In r l ->
         In r (Database.rows db) /\ Database.is_working r = true
         /\ forall a, Database.given anonymity = Some a -> Database.anonymity r = a.
Proof.
  intros now db protocol anonymity h l (c & Hc & ->)%query_result.
  split; [apply order_by_sorted|]. split.
  - exists c. split; [exact Hc | apply order_by_perm].
  - intros r Hr. apply (Permutation_in _ (order_by_perm _)) in Hr.
    apply in_filter_bool in Hr as [I S]. apply selected_iff in S as (W & _ & _ & A).
    auto.
Qed.

(** Freshness is decided by calendar day: a row stamped by
    [CURRENT_TIMESTAMP] at the UTC time [t] is returned by a query without
    filters exactly when it is working and the day of the cutoff (the local
    time less [max_age_hours]) is before the day of [t]; the time of day
    plays no part. *)
Theorem cached_query_by_calendar_day :
  forall now db max_age_hours l t r,
    calendar t ->
    In r (Database.rows db) ->
    Database.last_checked r = current_timestamp t ->
    Database.get_cached_proxies now db None None max_age_hours = Some l ->
    exists cutoff,
      minus_seconds now (max_age_hours * 3600) = Some cutoff
      /\ (In r l <-> Database.is_working r = true /\ day_before cutoff t).
Proof.
  intros now db h l t r Ht Hr Hs (c & Hc & ->)%query_result.
  exists c. split; [exact Hc|].
  pose proof (minus_seconds_calendar _ _ _ Hc) as Cc.
  rewrite <- (text_lt_stamp_iso c t Cc Ht), <- Hs.
  split.
  - intros I. apply (Permutation_in _ (order_by_perm _)) in I.
    apply in_filter_bool in I as [_ S]. apply selected_iff in S. tauto.
  - intros [W F]. apply (Permutation_in _ (Permutation_sym (order_by_perm _))).
    apply in_filter_bool. split; [exact Hr|]. apply selected_iff.
    repeat split; auto; discriminate.
Qed.

(** The sweep deletes by calendar day as well: a row stamped at the UTC
    time [t] survives [cleanup_old_cached_proxies(days)] exactly when the
    day of the cutoff is before the day of [t], whether it works or not;
    the rows that stay are unchanged and in their order, and ids are not
    given back. *)
Theorem sweep_by_calendar_day :
  forall now db days db' t r,
    calendar t ->
    In r (Database.rows db) ->
    Database.last_checked r = current_timestamp t ->
    Database.cleanup_old_cached_proxies now true db days = Some db' ->
    exists cutoff,
      minus_seconds now (days * 86400) = Some cutoff
      /\ (In r (Database.rows db') <-> day_before cutoff t)
      /\ sublist (Database.rows db') (Database.rows db)
      /\ Database.last_id db' = Database.last_id db.
Proof.
  intros now db days db' t r Ht Hr Hs. unfold Database.cleanup_old_cached_proxies.
  destruct (minus_seconds _ _) as [c|] eqn:Hc; [|discriminate].
  intros [= <-]. exists c. split; [reflexivity|]. simpl.
  pose proof (minus_seconds_calendar _ _ _ Hc) as Cc.
  split; [|split; [apply sublist_filter | reflexivity]].
  rewrite in_filter_bool, negb_true_iff, Hs, (text_lt_iso_stamp c t Cc Ht). tauto.
Qed.

Lemma upsert_row_spec :
  forall now db p protos anon rt,
    let db' := Database.cache_working_proxy now true db p protos anon rt in
    (exists r,
       row_of db' p = Some r
       /\ Database.proxy r = p
       /\ Database.protocols r = join "," protos
       /\ Database.anonymity r = anon
       /\ Database.response_time r = rt
       /\ Database.last_checked r = current_timestamp now
       /\ Database.is_working r = true
       /\ match row_of db p with
          | Some old =>
              Database.id r = Database.id old
              /\ Database.check_count r = (Database.check_count old + 1)%Z
              /\ Database.success_count r = (Database.success_count old + 1)%Z
              /\ Database.country r = Database.country old
              /\ length (Database.rows db') = length (Database.rows db)
          | None =>
              Database.id r = (Database.last_id db + 1)%Z
              /\ Database.check_count r = 1%Z
              /\ Database.success_count r = 1%Z
              /\ Database.country r = None
              /\ length (Database.rows db') = S (length (Database.rows db))
          end)
    /\ forall q, q <> p -> row_of db' q = row_of db q.
Proof.
  intros now db p protos anon rt db'. subst db'.
  unfold Database.cache_working_proxy, row_of. cbn [negb].
  destruct (existsb (Database.has_proxy p) (Database.rows db)) eqn:E; cbn [Database.rows].
  - split.
    + rewrite row_of_map_hit by reflexivity.
      destruct (List.find _ _) as [old|] eqn:F.
      * apply find_some in F as [_ F%has_proxy_iff].
        eexists. split; [reflexivity|]. simpl. rewrite length_map.
        repeat split; auto.
      * apply find_none_existsb in F. congruence.
    + intros q Hq. now apply row_of_map.
  - apply find_none_existsb in E. split.
    + rewrite find_app_none by exact E. rewrite E.
      assert (Database.has_proxy p
                {| Database.id := (Database.last_id db + 1)%Z; Database.proxy := p;
                   Database.protocols := join "," protos; Database.anonymity := anon;
                   Database.response_time := rt;
                   Database.last_checked := current_timestamp now;
                   Database.check_count := 1; Database.success_count := 1;
                   Database.country := None; Database.is_working := true |} = true) as ->
        by now apply has_proxy_iff.
      eexists. split; [reflexivity|]. simpl. rewrite length_app. simpl.
      repeat split; auto; lia.
    + intros q Hq. apply find_app_other.
      apply not_true_is_false. rewrite has_proxy_iff. simpl. congruence.
Qed.

(** Insert and look up: after a committed [cache_working_proxy] the proxy
    has one first row, which holds the arguments of the call, is stamped
    with the time of the call and is working; its counters are those of
    the row it replaces plus one, or 1 in a new row with the next id; the
    row of every other proxy is as before. *)
Theorem cache_upsert_lookup :
  forall now db p protos anon rt,
    let db' := Database.cache_working_proxy now true db p protos anon rt in
    (exists r,
       row_of db' p = Some r
       /\ Database.proxy r = p
       /\ Database.protocols r = join "," protos
       /\ Database.anonymity r = anon
       /\ Database.response_time r = rt
       /\ Database.last_checked r = current_timestamp now
       /\ Database.is_working r = true
       /\ match row_of db p with
          | Some old =>
              Database.id r = Database.id old
              /\ Database.check_count r = (Database.check_count old + 1)%Z
              /\ Database.success_count r = (Database.success_count old + 1)%Z
              /\ Database.country r = Database.country old
              /\ length (Database.rows db') = length (Database.rows db)
          | None =>
              Database.id r = (Database.last_id db + 1)%Z
              /\ Database.check_count r = 1%Z
              /\ Database.success_count r = 1%Z
              /\ Database.country r = None
              /\ length (Database.rows db') = S (length (Database.rows db))
          end)
    /\ forall q, q <> p -> row_of db' q = row_of db q.
Proof. exact upsert_row_spec. Qed.

(** A committed [mark_proxy_dead] hides the proxy from every later query,
    whatever its filters and its age limit; it adds no row, leaves the rows
    of the other proxies as they are, and leaves the table as it is when
    the proxy has no row. *)
Theorem mark_dead_hides :
  forall now db p,
    let db' := Database.mark_proxy_dead now true db p in
    length (Database.rows db') = length (Database.rows db)
    /\ Database.last_id db' = Database.last_id db
    /\ (forall q, q <> p -> row_of db' q = row_of db q)
    /\ (row_of db p = None <-> row_of db' p = None)
    /\ (row_of db p = None -> db' = db)
    /\ forall now' protocol anonymity max_age_hours,
         Forall (fun r => Database.proxy r <> p)
           (default [] (Database.get_cached_proxies now' db' protocol anonymity
                                                    max_age_hours)).
Proof.
  intros now db p db'. subst db'. unfold Database.mark_proxy_dead, row_of.
  cbn [negb Database.rows Database.last_id].
  split; [apply length_map|]. split; [reflexivity|].
  split; [intros q Hq; now apply row_of_map|].
  split; [|split].
  - rewrite row_of_map_hit by reflexivity.
    destruct (List.find _ _); simpl; split; congruence.
  - intros N. destruct db as [rows last]. simpl in *. f_equal.
    induction rows as [|x rows IH]; [reflexivity|]. simpl in *.
    destruct (Database.has_proxy p x); [discriminate|]. f_equal. auto.
  - intros now' protocol anonymity h.
    destruct (Database.get_cached_proxies _ _ _ _ _) as [l|] eqn:Q; [|constructor].
    apply query_result in Q as (c & _ & ->). simpl.
    apply Forall_forall. intros r Hr%list_elem_of_In.
    apply (Permutation_in _ (order_by_perm _)) in Hr.
    apply in_filter_bool in Hr as [I S]. apply selected_iff in S as (W & _).
    simpl in I. apply in_map_iff in I as (x & <- & _).
    destruct (Database.has_proxy p x) eqn:P.
    + discriminate W.
    + intros Hp. apply has_proxy_iff in Hp. congruence.
Qed.

Section CacheLike.
Import Database.

Lemma like_any (pat s : string) :
  sql_like (String "%" pat) s
  = sql_like pat s
    || match s with "" => false | String _ s' => sql_like (String "%" pat) s' end.
Proof. destruct s; reflexivity. Qed.

Lemma like_underscore (pat : string) (a : ascii) (s : string) :
  sql_like (String "_" pat) (String a s) = sql_like pat s.
Proof. reflexivity. Qed.

Lemma like_cons (c : ascii) (pat : string) (a : ascii) (s : string) :
  c <> "%"%char -> c <> "_"%char ->
  sql_like (String c pat) (String a s)
  = Ascii.eqb (like_fold c) (like_fold a) && sql_like pat s.
Proof.
  intros H1 H2.
  destruct c as [[] [] [] [] [] [] [] []];
    first [reflexivity | now destruct H1 | now destruct H2].
Qed.

Lemma like_here (pat s : string) :
  sql_like pat s = true -> sql_like (String "%" pat) s = true.
Proof. intros H. now rewrite like_any, H. Qed.

Lemma like_skip (pat a : string) : forall s,
  sql_like (String "%" pat) s = true -> sql_like (String "%" pat) (a +:+ s) = true.
Proof.
  induction a as [|x a IH]; intros s H; [exact H|].
  rewrite append_cons, like_any, IH by exact H. apply orb_true_r.
Qed.

Lemma like_all (s : string) : sql_like "%" s = true.
Proof.
  induction s as [|x s IH]; [reflexivity|]. rewrite like_any, IH. apply orb_true_r.
Qed.

Lemma like_prefix (p : string) : forall b, sql_like (p +:+ "%") (p +:+ b) = true.
Proof.
  induction p as [|c p IH]; intros b; [apply like_all|].
  rewrite !append_cons.
  destruct (Ascii.eqb_spec c "%") as [->|H1].
  - rewrite like_any. rewrite (like_here _ _ (IH b)). apply orb_true_r.
  - destruct (Ascii.eqb_spec c "_") as [->|H2].
    + rewrite like_underscore. apply IH.
    + rewrite like_cons by assumption. now rewrite Ascii.eqb_refl, IH.
Qed.

Lemma like_substring (p a b : string) :
  sql_like ("%" +:+ p +:+ "%") (a +:+ p +:+ b) = true.
Proof.
  change ("%" +:+ p +:+ "%") with (String "%" (p +:+ "%")).
  apply like_skip, like_here, like_prefix.
Qed.

Lemma join_contains (sep q : string) (l : list string) :
  In q l -> exists a b, join sep l = a +:+ q +:+ b.
Proof.
  induction l as [|x l IH]; [contradiction|]. intros [->|I].
  - destruct l as [|y l].
    + exists "", "". simpl. now rewrite append_nil_r.
    + exists "", (sep +:+ join sep (y :: l)). reflexivity.
  - destruct (IH I) as (a & b & E). destruct l as [|y l]; [contradiction|].
    exists (x +:+ sep +:+ a), b.
    change (join sep (x :: y :: l)) with (x +:+ sep +:+ join sep (y :: l)).
    rewrite E. now rewrite !append_assoc.
Qed.

End CacheLike.

(** The protocol filter finds every protocol a row was cached with: for a
    row whose protocols were stored by [cache_working_proxy] from a list
    that holds [q], a query for the protocol [q] selects the row exactly
    when the query without a protocol does. *)
Theorem protocol_filter_finds_listed :
  forall cutoff q anonymity r protos,
    In q protos ->
    Database.protocols r = join "," protos ->
    Database.selected cutoff (Some q) anonymity r
    = Database.selected cutoff None anonymity r.
Proof.
  intros cutoff q anonymity r protos I E. unfold Database.selected.
  destruct q as [|c q]; [reflexivity|]. cbn [Database.given].
  destruct (join_contains "," _ _ I) as (a & b & J).
  now rewrite E, J, like_substring.
Qed.

Lemma protocol_filter_finds_listed_witness :
  let r := {| Database.id := 1; Database.proxy := "1.2.3.4:8080";
              Database.protocols := "http,https"; Database.anonymity := "elite";
              Database.response_time := 1 # 2;
              Database.last_checked := "2026-11-03 09:00:00";
              Database.check_count := 1; Database.success_count := 1;
              Database.country := None; Database.is_working := true |} in
  Database.selected "2026-11-02T10:00:00" (Some "https") None r
  = Database.selected "2026-11-02T10:00:00" None None r.
Proof.
  cbv zeta.
  apply (protocol_filter_finds_listed _ "https" None _ ["http"; "https"]);
    [simpl; auto | reflexivity].
Defined.

Lemma cached_query_sorted_witness :
  let t1 := {| year := 2026; month := 11; day := 4;
               hour := 7; minute := 0; second := 0; microsecond := 0 |} in
  let now := {| year := 2026; month := 11; day := 4;
                hour := 8; minute := 0; second := 0; microsecond := 0 |} in
  let db := Database.run_all Database.empty
              [(Database.Upsert "1.2.3.4:8080" ["http"] "elite" (3 # 4), t1, true);
               (Database.Upsert "5.6.7.8:3128" ["http"] "elite" (1 # 4), t1, true)] in
  exists l,
    Database.get_cached_proxies now db None None 24 = Some l
    /\ map Database.proxy l = ["5.6.7.8:3128"; "1.2.3.4:8080"]
    /\ StronglySorted by_time l.
Proof.
  intros t1 now db.
  destruct (Database.get_cached_proxies now db None None 24) as [l|] eqn:E;
    [|vm_compute in E; discriminate].
  exists l. split; [reflexivity|]. split.
  - vm_compute in E. injection E as <-. reflexivity.
  - exact (proj1 (cached_query_sorted now db None None 24 l E)).
Defined.

Lemma cached_query_by_calendar_day_witness :
  let t := {| year := 2026; month := 11; day := 4;
              hour := 7; minute := 0; second := 0; microsecond := 0 |} in
  let now := {| year := 2026; month := 11; day := 4;
                hour := 8; minute := 0; second := 0; microsecond := 0 |} in
  let db := Database.cache_working_proxy t true Database.empty
              "1.2.3.4:8080" ["http"] "elite" (3 # 4) in
  let r := {| Database.id := 1; Database.proxy := "1.2.3.4:8080";
              Database.protocols := "http"; Database.anonymity := "elite";
              Database.response_time := 3 # 4;
              Database.last_checked := "2026-11-04 07:00:00";
              Database.check_count := 1; Database.success_count := 1;
              Database.country := None; Database.is_working := true |} in
  exists cutoff,
    minus_seconds now (24 * 3600) = Some cutoff
    /\ (In r [r] <-> Database.is_working r = true /\ day_before cutoff t).
Proof.
  intros t now db r.
  apply (cached_query_by_calendar_day now db 24 [r] t r);
    [unfold calendar; simpl; lia | left; reflexivity | reflexivity
    | vm_compute; reflexivity].
Defined.

Lemma sweep_by_calendar_day_witness :
  let t := {| year := 2026; month := 11; day := 4;
              hour := 7; minute := 0; second := 0; microsecond := 0 |} in
  let now := {| year := 2026; month := 11; day := 10;
                hour := 8; minute := 0; second := 0; microsecond := 0 |} in
  let db := Database.cache_working_proxy t true Database.empty
              "1.2.3.4:8080" ["http"] "elite" (3 # 4) in
  let r := {| Database.id := 1; Database.proxy := "1.2.3.4:8080";
              Database.protocols := "http"; Database.anonymity := "elite";
              Database.response_time := 3 # 4;
              Database.last_checked := "2026-11-04 07:00:00";
              Database.check_count := 1; Database.success_count := 1;
              Database.country := None; Database.is_working := true |} in
  exists cutoff,
    minus_seconds now (7 * 86400) = Some cutoff
    /\ (In r (Database.rows db) <-> day_before cutoff t)
    /\ sublist (Database.rows db) (Database.rows db)
    /\ Database.last_id db = Database.last_id db.
Proof.
  intros t now db r.
  apply (sweep_by_calendar_day now db 7 db t r);
    [unfold calendar; simpl; lia | left; reflexivity | reflexivity
    | vm_compute; reflexivity].
Defined.

(** ** Loading the sources *)

Lemma rstrip_idem (s : string) : rstrip (rstrip s) = rstrip s.
Proof.
  induction s as [|c s IH]; [reflexivity|]. simpl.
  destruct (rstrip s) as [|a r] eqn:E.
  - destruct (is_space c) eqn:S; [reflexivity|]. simpl. now rewrite S.
  - cbn [rstrip]. cbn [rstrip] in IH. rewrite IH. reflexivity.
Qed.

Lemma lstrip_first (s : string) (c : ascii) (r : string) :
  lstrip s = String c r -> is_space c = false.
Proof.
  induction s as [|a s IH]; [discriminate|]. simpl.
  destruct (is_space a) eqn:S; [exact IH|]. now intros [= <- <-].
Qed.

Lemma rstrip_first (c : ascii) (r : string) :
  is_space c = false -> exists r', rstrip (String c r) = String c r'.
Proof.
  intros S. simpl. destruct (rstrip r); [rewrite S|]; eauto.
Qed.

Lemma strip_idem (s : string) : strip (strip s) = strip s.
Proof.
  unfold strip. destruct (lstrip s) as [|c r] eqn:E; [reflexivity|].
  pose proof (lstrip_first _ _ _ E) as S.
  destruct (rstrip_first c r S) as [r' R]. rewrite R.
  assert (lstrip (String c r') = String c r') as -> by (simpl; now rewrite S).
  rewrite <- R. apply rstrip_idem.
Qed.

Lemma strip_first (s : string) (c : ascii) (r : string) :
  strip s = String c r -> is_space c = false.
Proof.
  unfold strip. destruct (lstrip s) as [|a q] eqn:E; [discriminate|].
  pose proof (lstrip_first _ _ _ E) as S.
  destruct (rstrip_first a q S) as [r' R]. rewrite R. now intros [= <- _].
Qed.

(** [load_sources_from_file] replaces the list of sources, also the
    sources [add_sources] added, by the lines of the file in their order,
    stripped, without the empty lines and the lines that start with [#]
    once stripped; a loaded source has no white space around it.  It
    returns their number, or 0 when reading raises, and then the sources
    read before the exception stay loaded. *)
Theorem load_sources_normal_form :
  forall st f,
    let st' := (ScraperRun.load_sources_from_file st f).1 in
    let n := (ScraperRun.load_sources_from_file st f).2 in
    Forall (fun s => s <> "" /\ strip s = s /\ forall r, s <> String "#" r)
           (ScraperRun.web_sources st')
    /\ sublist (ScraperRun.web_sources st') (map strip (lines_of f))
    /\ (forall line, In line (lines_of f) ->
          strip line <> "" -> (forall r, strip line <> String "#" r) ->
          In (strip line) (ScraperRun.web_sources st'))
    /\ n = match f with
           | ScraperRun.ReadAll _ => Z.of_nat (length (ScraperRun.web_sources st'))
           | ScraperRun.ReadFailed _ => 0%Z
           end
    /\ (forall extra,
          ScraperRun.load_sources_from_file (ScraperRun.add_sources st extra) f
          = ScraperRun.load_sources_from_file st f)
    /\ ScraperRun.scraped_proxies st' = ScraperRun.scraped_proxies st.
Proof.
  intros st f. cbv zeta.
  assert (ScraperRun.web_sources (ScraperRun.load_sources_from_file st f).1
          = ScraperRun.kept_lines (lines_of f)) as W by now destruct f.
  rewrite W. unfold ScraperRun.kept_lines.
  split; [|split; [|split; [|split; [|split]]]].
  - apply Forall_forall. intros s Hs%list_elem_of_In.
    apply filter_In in Hs as [Hs I]. apply in_map_iff in Hs as (line & <- & _).
    split; [|split].
    + intros E. now rewrite E in I.
    + apply strip_idem.
    + intros r E. rewrite E in I. discriminate.
  - induction (map strip (lines_of f)) as [|x l IH]; simpl; [constructor|].
    destruct (ScraperRun.is_source x); [now apply sublist_skip | now apply sublist_cons].
  - intros line I N P. apply filter_In. split; [now apply in_map|].
    destruct (strip line) as [|c r]; [contradiction|]. simpl.
    destruct (Ascii.eqb_spec c "#") as [->|_]; [now destruct (P r) | reflexivity].
  - now destruct f.
  - intros extra. now destruct f.
  - now destruct f.
Qed.

(** ** Scraping all sources *)

Lemma mod10_shift (j : nat) :
  (10 <= j)%nat -> (j mod 10 = 0)%nat -> ((j - 10) mod 10 = 0)%nat.
Proof.
  intros L H. apply Nat.Div0.div_exact in H. rewrite H.
  replace (10 * (j / 10) - 10)%nat with ((j / 10 - 1) * 10)%nat by lia.
  apply Nat.Div0.mod_mul.
Qed.

Lemma mod10_add (k : nat) : (k mod 10 = 0)%nat -> ((10 + k) mod 10 = 0)%nat.
Proof.
  intros H. apply Nat.Div0.div_exact in H. rewrite H.
  replace (10 + 10 * (k / 10))%nat with ((1 + k / 10) * 10)%nat by lia.
  apply Nat.Div0.mod_mul.
Qed.

Section ScrapeLoop.
Import ScraperRun.
Variables (parses : string -> bool) (fetch : nat -> fetched)
  (max_proxies : option Z).

Lemma union_of_app (l1 l2 : list (nat * string)) :
  union_of parses fetch (l1 ++ l2)%list
  = union_of parses fetch l1 ∪ union_of parses fetch l2.
Proof. unfold union_of. now rewrite map_app, union_list_app_L. Qed.

Lemma union_of_perm (l1 l2 : list (nat * string)) :
  l1 ≡ₚ l2 -> union_of parses fetch l1 = union_of parses fetch l2.
Proof.
  unfold union_of. induction 1; simpl; [reflexivity | | | congruence].
  - now f_equal.
  - set_solver.
Qed.

Lemma elem_of_union_of (l : list (nat * string)) (p : string) :
  p ∈ union_of parses fetch l
  <-> exists t, In t l /\ parses t.2 = true /\ p ∈ _scrape_from_url (fetch t.1).
Proof.
  unfold union_of. rewrite elem_of_union_list. split.
  - intros (X & HX & Hp).
    apply list_elem_of_In, in_map_iff in HX as (t & <- & Ht).
    exists t. destruct (parses t.2); [auto | now apply elem_of_empty in Hp].
  - intros (t & Ht & P & Hp). exists (_scrape_from_url (fetch t.1)).
    split; [|exact Hp]. apply list_elem_of_In, in_map_iff.
    exists t. rewrite P. auto.
Qed.

Lemma counted_app (l1 l2 : list (nat * string)) :
  counted parses (l1 ++ l2)%list = (counted parses l1 ++ counted parses l2)%list.
Proof. apply List.filter_app. Qed.

Lemma counted_perm (l1 l2 : list (nat * string)) :
  l1 ≡ₚ l2 -> length (counted parses l1) = length (counted parses l2).
Proof.
  unfold counted. induction 1 as [|x l l' _ IH|x y l|l l' l'' _ IH1 _ IH2]; simpl.
  - reflexivity.
  - destruct (parses x.2); simpl; congruence.
  - destruct (parses x.2), (parses y.2); reflexivity.
  - congruence.
Qed.

Lemma counted_all (l : list (nat * string)) :
  (forall t, In t l -> parses t.2 = true) -> counted parses l = l.
Proof.
  unfold counted. induction l as [|t l IH]; intros H; simpl; [reflexivity|].
  rewrite (H t) by now left. f_equal. apply IH. intros t' I. apply H. now right.
Qed.

Lemma parsed_perm (l1 l2 : list (nat * string)) :
  l1 ≡ₚ l2 ->
  existsb (fun t => parses t.2) l1 = existsb (fun t => parses t.2) l2.
Proof.
  induction 1 as [|x l l' _ IH|x y l|l l' l'' _ IH1 _ IH2]; simpl.
  - reflexivity.
  - now f_equal.
  - destruct (parses x.2), (parses y.2); reflexivity.
  - congruence.
Qed.

Lemma gather_cons (t : nat * string) (tasks : list (nat * string)) (st : state) :
  gather parses fetch (t :: tasks) st
  = gather parses fetch tasks (_scrape_with_progress parses st t.2 (fetch t.1)).
Proof. reflexivity. Qed.

Lemma gather_spec (tasks : list (nat * string)) : forall st,
  let st' := gather parses fetch tasks st in
  scraped_proxies st' = scraped_proxies st ∪ union_of parses fetch tasks
  /\ sources_completed st'
     = (sources_completed st + Z.of_nat (length (counted parses tasks)))%Z
  /\ web_sources st' = web_sources st
  /\ (scraped_count st = Z.of_nat (size (scraped_proxies st)) ->
      scraped_count st' = Z.of_nat (size (scraped_proxies st')))
  /\ (existsb (fun t => parses t.2) tasks = true ->
      scraped_count st' = Z.of_nat (size (scraped_proxies st')))
  /\ (existsb (fun t => parses t.2) tasks = false -> st' = st).
Proof.
  induction tasks as [|t tasks IH]; intros st; cbv zeta.
  - simpl. repeat split; [unfold union_of; simpl; set_solver | lia | auto | discriminate].
  - rewrite gather_cons. unfold _scrape_with_progress, union_of, counted.
    cbn [map List.filter existsb union_list].
    fold (union_of parses fetch tasks). fold (counted parses tasks).
    destruct (parses t.2); cbv beta iota; cbn [orb].
    + match goal with
      | |- context [gather parses fetch tasks ?s] =>
          destruct (IH s) as (H1 & H2 & H3 & H4 & _)
      end.
      cbn [scraped_proxies sources_completed web_sources scraped_count] in H1, H2, H3, H4.
      split; [rewrite H1; set_solver|].
      split; [rewrite H2; cbn [length]; lia|].
      split; [exact H3|].
      split; [intros _; now apply H4|].
      split; [intros _; now apply H4 | discriminate].
    + destruct (IH st) as (H1 & H2 & H3 & H4 & H5 & H6).
      split; [rewrite H1; set_solver|].
      split; [exact H2|]. split; [exact H3|]. split; [exact H4|].
      split; [exact H5 | exact H6].
Qed.

Lemma limit_reached_iff (st : state) :
  scraped_count st = Z.of_nat (size (scraped_proxies st)) ->
  limit_reached max_proxies st = true
  <-> exists n, limit_given max_proxies = Some n
                /\ (n <= Z.of_nat (size (scraped_proxies st)))%Z.
Proof.
  intros C. unfold limit_reached. destruct (limit_given max_proxies) as [n|].
  - rewrite Z.leb_le, C. split; [eauto | now intros (? & [= <-] & ?)].
  - split; [discriminate | now intros (? & ? & _)].
Qed.

Lemma scrape_loop_spec (sources : list (nat * string)) : forall tasks st,
  (length tasks < 10)%nat ->
  scraped_count st = Z.of_nat (size (scraped_proxies st)) ->
  let all := (tasks ++ sources)%list in
  let st' := scrape_loop parses fetch max_proxies tasks sources st in
  exists k,
    (k <= length all)%nat
    /\ scraped_proxies st'
       = scraped_proxies st ∪ union_of parses fetch (firstn k all)
    /\ sources_completed st'
       = (sources_completed st
          + Z.of_nat (length (counted parses (firstn k all))))%Z
    /\ web_sources st' = web_sources st
    /\ (all <> [] -> k <> 0%nat)
    /\ scraped_count st' = Z.of_nat (size (scraped_proxies st'))
    /\ (k = length all
        \/ (k mod 10 = 0)%nat /\ limit_reached max_proxies st' = true)
    /\ forall j n, (0 < j < k)%nat -> (j mod 10 = 0)%nat ->
         limit_given max_proxies = Some n ->
         (Z.of_nat (size (scraped_proxies st
                          ∪ union_of parses fetch (firstn j all))) < n)%Z.
Proof.
  induction sources as [|i rest IH]; intros tasks st L C; cbv zeta.
  - cbn [scrape_loop]. rewrite app_nil_r.
    destruct (gather_spec tasks st) as (H1 & H2 & H3 & H4 & _).
    exists (length tasks). rewrite firstn_all.
    split; [lia|]. split; [exact H1|]. split; [exact H2|]. split; [exact H3|].
    split; [intros NE; now destruct tasks|].
    split; [exact (H4 C)|]. split; [now left|].
    intros j n Hj Hm. exfalso.
    assert (j mod 10 = j)%nat by (apply Nat.mod_small; lia). lia.
  - cbn [scrape_loop].
    assert ((tasks ++ i :: rest) = ((tasks ++ [i]) ++ rest))%list as A
      by now rewrite <- app_assoc.
    rewrite A.
    destruct (10 <=? length (tasks ++ [i])%list)%nat eqn:B.
    + apply Nat.leb_le in B.
      assert (length (tasks ++ [i])%list = 10%nat) as L10
        by (rewrite length_app in *; simpl in *; lia).
      destruct (gather_spec (tasks ++ [i])%list st) as (H1 & H2 & H3 & H4 & _).
      specialize (H4 C).
      set (st1 := gather parses fetch (tasks ++ [i])%list st) in *.
      destruct (limit_reached max_proxies st1) eqn:R.
      * exists 10%nat. rewrite (take_app_length' _ _ 10) by now symmetry.
        rewrite length_app, L10.
        split; [lia|]. split; [exact H1|]. split; [exact H2|].
        split; [exact H3|]. split; [lia|]. split; [exact H4|].
        split; [right; split; [reflexivity | exact R]|].
        intros j n Hj Hm. exfalso.
        assert (j mod 10 = j)%nat by (apply Nat.mod_small; lia). lia.
      * destruct (IH [] st1 ltac:(simpl; lia) H4)
          as (k & K1 & K2 & K3 & K4 & K5 & K6 & K7 & K8).
        cbn [app] in *.
        exists (10 + k)%nat. rewrite (take_app_add' _ _ 10) by now symmetry.
        rewrite length_app, L10.
        split; [lia|]. split.
        { rewrite K2, H1, (union_of_app (tasks ++ [i])). now rewrite (assoc_L (∪)). }
        split; [rewrite (counted_app (tasks ++ [i])), length_app, K3, H2; lia|].
        split; [congruence|].
        split; [lia|].
        split; [exact K6|].
        split.
        { destruct K7 as [->|[K7 K7']]; [left; lia | right].
          split; [|exact K7'].
          now apply mod10_add. }
        intros j n Hj Hm G.
        destruct (Nat.lt_ge_cases j 10%nat) as [Lj|Lj].
        { exfalso. assert (j mod 10 = j)%nat by (apply Nat.mod_small; lia). lia. }
        destruct (Nat.eq_dec j 10%nat) as [->|Nj].
        { rewrite (take_app_length' _ _ 10) by now symmetry. rewrite <- H1.
          destruct (limit_reached_iff st1 H4) as [_ Q].
          destruct (Z.lt_ge_cases (Z.of_nat (size (scraped_proxies st1))) n); [assumption|].
          rewrite Q in R; [discriminate | eauto]. }
        replace j with (10 + (j - 10))%nat at 1 by lia.
        rewrite (take_app_add' _ _ 10) by now symmetry.
        rewrite (union_of_app (tasks ++ [i])), (assoc_L (∪)), <- H1.
        apply K8; [| |exact G].
        -- lia.
        -- now apply mod10_shift.
    + apply Nat.leb_gt in B.
      destruct (IH (tasks ++ [i])%list st B C) as (k & K).
      exists k. cbv zeta in K. destruct K as (K1 & K2 & K3 & K4 & K5 & K6 & K7 & K8).
      split; [exact K1|]. split; [exact K2|]. split; [exact K3|].
      split; [exact K4|]. split; [intros _; apply K5; now destruct tasks|].
      split; [exact K6|]. split; [exact K7 | exact K8].
Qed.

End ScrapeLoop.

Section ScrapeAll.
Import ScraperRun.
Variables (parses : string -> bool) (fetch : nat -> fetched)
  (listing : gset string -> list string).
Hypothesis listing_ok : forall s : gset string, listing s ≡ₚ elements s.

Lemma scrape_all_eq (st : state) (max_proxies : option Z) :
  web_sources st <> [] ->
  scrape_all parses fetch listing st max_proxies
  = let st0 :=
      {| scraped_proxies := ∅; web_sources := web_sources st;
         scraped_count := 0; sources_completed := 0;
         reported := reported st |} in
    let st1 := scrape_loop parses fetch max_proxies []
                 (numbered (web_sources st0)) st0 in
    let st2 :=
      match limit_given max_proxies with
      | Some n =>
          if (n <? Z.of_nat (size (scraped_proxies st1)))%Z then
            let cut : gset string :=
              list_to_set (slice_to n (listing (scraped_proxies st1))) in
            {| scraped_proxies := cut; web_sources := web_sources st1;
               scraped_count := Z.of_nat (size cut);
               sources_completed := sources_completed st1;
               reported := reported st1 |}
          else st1
      | None => st1
      end in
    (st2, scraped_proxies st2).
Proof.
  intros W. unfold scrape_all. destruct (web_sources st); [contradiction|reflexivity].
Qed.

Lemma slice_to_sublist (n : Z) (l : list string) : sublist (slice_to n l) l.
Proof. unfold slice_to. destruct (0 <=? n)%Z; apply sublist_take. Qed.

Lemma cut_subseteq (n : Z) (s : gset string) :
  (list_to_set (slice_to n (listing s)) : gset string) ⊆ s.
Proof.
  intros x Hx. apply elem_of_list_to_set in Hx.
  pose proof (elem_of_sublist _ _ _ Hx (slice_to_sublist n (listing s))) as Hy.
  rewrite (listing_ok s) in Hy. now apply elem_of_elements in Hy.
Qed.

Lemma cut_size (n : Z) (s : gset string) :
  (0 < n < Z.of_nat (size s))%Z ->
  Z.of_nat (size (list_to_set (slice_to n (listing s)) : gset string)) = n.
Proof.
  intros Hn. unfold slice_to.
  destruct (Z.leb_spec 0 n) as [_|]; [|lia].
  assert (NoDup (listing s)) as ND by (rewrite (listing_ok s); apply NoDup_elements).
  rewrite size_list_to_set by (eapply sublist_NoDup; [exact ND | apply sublist_take]).
  rewrite length_take, (Permutation_length (listing_ok s)).
  change (length (elements s)) with (size s). lia.
Qed.

Lemma numbered_length (l : list string) : length (numbered l) = length l.
Proof. apply length_imap. Qed.

Lemma numbered_lookup (l : list string) (k : nat) (t : nat * string) :
  In t (firstn k (numbered l)) -> (t.1 < k)%nat /\ l !! t.1 = Some t.2.
Proof.
  intros I. apply list_elem_of_In, elem_of_take in I as (j & I & Hj).
  unfold numbered in I. rewrite list_lookup_imap in I.
  destruct (l !! j) as [u|] eqn:E; [|discriminate].
  injection I as <-. simpl. auto.
Qed.

End ScrapeAll.

(** A batch of tasks gives the same candidates and counters whatever the
    order in which its fetches complete. *)
Theorem gather_order_irrelevant :
  forall parses fetch tasks tasks' st,
    tasks ≡ₚ tasks' ->
    let a := ScraperRun.gather parses fetch tasks st in
    let b := ScraperRun.gather parses fetch tasks' st in
    ScraperRun.scraped_proxies a = ScraperRun.scraped_proxies b
    /\ ScraperRun.scraped_count a = ScraperRun.scraped_count b
    /\ ScraperRun.sources_completed a = ScraperRun.sources_completed b
    /\ ScraperRun.web_sources a = ScraperRun.web_sources b.
Proof.
  intros parses fetch tasks tasks' st P. cbv zeta.
  destruct (gather_spec parses fetch tasks st) as (A1 & A2 & A3 & _ & A5 & A6).
  destruct (gather_spec parses fetch tasks' st) as (B1 & B2 & B3 & _ & B5 & B6).
  assert (ScraperRun.scraped_proxies (ScraperRun.gather parses fetch tasks st)
          = ScraperRun.scraped_proxies (ScraperRun.gather parses fetch tasks' st)) as E
    by now rewrite A1, B1, (union_of_perm parses fetch _ _ P).
  split; [exact E|]. split; [|split].
  - pose proof (parsed_perm parses _ _ P) as X.
    destruct (existsb (fun t => parses t.2) tasks).
    + rewrite A5, B5, E; auto.
    + rewrite A6, B6; auto.
  - rewrite A2, B2. now rewrite (counted_perm parses _ _ P).
  - congruence.
Qed.

Lemma gather_order_irrelevant_witness :
  let parses := fun url : string => negb (String.eqb url "http://[x") in
  let fetch := fun i : nat =>
    match i with
    | O => Response 200 "1.2.3.4:8080"
    | _ => Response 200 "5.6.7.8:3128"
    end in
  let tasks := [(0%nat, "http://a.example/list"); (1%nat, "http://b.example/list");
                (2%nat, "http://[x")] in
  let tasks' := [(2%nat, "http://[x"); (1%nat, "http://b.example/list");
                 (0%nat, "http://a.example/list")] in
  ScraperRun.scraped_proxies (ScraperRun.gather parses fetch tasks ScraperRun.init)
  = ScraperRun.scraped_proxies (ScraperRun.gather parses fetch tasks' ScraperRun.init)
  /\ ScraperRun.sources_completed
       (ScraperRun.gather parses fetch tasks ScraperRun.init)
     = ScraperRun.sources_completed
         (ScraperRun.gather parses fetch tasks' ScraperRun.init).
Proof.
  intros parses fetch tasks tasks'.
  destruct (gather_order_irrelevant parses fetch tasks tasks' ScraperRun.init)
    as (H1 & _ & H3 & _).
  - symmetry. apply Permutation_rev.
  - split; [exact H1 | exact H3].
Defined.

(** [scrape_all] on a scraper with sources starts their tasks in batches of
    ten and stops after the first batch that brings the number of candidates
    to the limit; it returns the candidates of the sources it fetched, cut
    down to the limit when there are more.  Without a limit (None or 0) it
    goes through every source and returns all their candidates.  A source
    whose URL [urlparse] refuses is not fetched and not counted:
    [sources_completed] is the number of the other sources among those gone
    through, which is all of them when every URL parses. *)
Theorem scrape_all_result :
  forall parses fetch listing st max_proxies,
    ScraperRun.web_sources st <> [] ->
    (forall s : gset string, listing s ≡ₚ elements s) ->
    let st' := (ScraperRun.scrape_all parses fetch listing st max_proxies).1 in
    let out := (ScraperRun.scrape_all parses fetch listing st max_proxies).2 in
    let total := length (ScraperRun.web_sources st) in
    let all := ScraperRun.numbered (ScraperRun.web_sources st) in
    let found := fun k : nat =>
      Z.of_nat (size (union_of parses fetch (firstn k all))) in
    exists k,
      (0 < k <= total)%nat
      /\ ScraperRun.sources_completed st'
         = Z.of_nat (length (counted parses (firstn k all)))
      /\ ((forall url, In url (ScraperRun.web_sources st) -> parses url = true) ->
          ScraperRun.sources_completed st' = Z.of_nat k)
      /\ ScraperRun.scraped_proxies st' = out
      /\ ScraperRun.scraped_count st' = Z.of_nat (size out)
      /\ ScraperRun.web_sources st' = ScraperRun.web_sources st
      /\ out ⊆ union_of parses fetch (firstn k all)
      /\ match ScraperRun.limit_given max_proxies with
         | None => k = total /\ out = union_of parses fetch all
         | Some n =>
             (k = total \/ (k mod 10 = 0)%nat /\ (n <= found k)%Z)
             /\ (forall j, (0 < j < k)%nat -> (j mod 10 = 0)%nat -> (found j < n)%Z)
             /\ ((0 < n)%Z -> Z.of_nat (size out) = Z.min n (found k))
         end.
Proof.
  intros parses fetch listing st max_proxies W listing_ok. cbv zeta.
  rewrite (scrape_all_eq parses fetch listing st max_proxies W). cbv zeta.
  cbn [fst snd ScraperRun.web_sources].
  set (st0 := {| ScraperRun.scraped_proxies := ∅;
                 ScraperRun.web_sources := ScraperRun.web_sources st;
                 ScraperRun.scraped_count := 0;
                 ScraperRun.sources_completed := 0;
                 ScraperRun.reported := ScraperRun.reported st |}).
  set (total := length (ScraperRun.web_sources st)).
  set (all := ScraperRun.numbered (ScraperRun.web_sources st)).
  assert (total <> 0%nat) as T by (subst total; now destruct (ScraperRun.web_sources st)).
  assert (length all = total) as LA by apply numbered_length.
  destruct (scrape_loop_spec parses fetch max_proxies all [] st0
              ltac:(simpl; lia) eq_refl)
    as (k & K1 & K2 & K3 & K4 & K0 & K5 & K6 & K7).
  cbn [app] in *. rewrite LA in *.
  set (st1 := ScraperRun.scrape_loop parses fetch max_proxies [] all st0) in *.
  cbn [ScraperRun.scraped_proxies ScraperRun.sources_completed
       ScraperRun.web_sources st0] in K2, K3, K4, K7.
  rewrite (left_id_L ∅ (∪)) in K2.
  assert (k <> 0%nat) as K0'.
  { apply K0. intros E. rewrite E in LA. simpl in LA. lia. }
  assert (ScraperRun.sources_completed st1
          = Z.of_nat (length (counted parses (firstn k all)))) as S by (rewrite K3; lia).
  assert ((forall url, In url (ScraperRun.web_sources st) -> parses url = true) ->
          ScraperRun.sources_completed st1 = Z.of_nat k) as S'.
  { intros A. rewrite S, counted_all, length_take; [lia|].
    intros t I. apply numbered_lookup in I as [_ I].
    apply A, list_elem_of_In. eapply list_elem_of_lookup_2, I. }
  exists k. split; [lia|].
  destruct (ScraperRun.limit_given max_proxies) as [n|] eqn:G.
  - assert ((k = total \/ (k mod 10 = 0)%nat
                          /\ (n <= Z.of_nat (size (union_of parses fetch (firstn k all))))%Z)
            /\ (forall j, (0 < j < k)%nat -> (j mod 10 = 0)%nat ->
                  (Z.of_nat (size (union_of parses fetch (firstn j all))) < n)%Z)) as [L M].
    { split.
      - destruct K6 as [->|[K6 R]]; [now left | right]. split; [exact K6|].
        apply (limit_reached_iff max_proxies st1 K5) in R as (n' & G' & R).
        rewrite G in G'. injection G' as <-. now rewrite <- K2.
      - intros j Hj Hm. specialize (K7 j n Hj Hm eq_refl).
        now rewrite (left_id_L ∅ (∪)) in K7. }
    destruct (Z.ltb_spec n (Z.of_nat (size (ScraperRun.scraped_proxies st1)))) as [C|C];
      cbn [ScraperRun.scraped_proxies ScraperRun.sources_completed
           ScraperRun.scraped_count ScraperRun.web_sources].
    + split; [exact S|]. split; [exact S'|].
      split; [reflexivity|]. split; [reflexivity|].
      split; [exact K4|]. split.
      { rewrite <- K2. now apply cut_subseteq. }
      split; [exact L|]. split; [exact M|].
      intros Hn. rewrite (cut_size listing listing_ok) by lia.
      rewrite <- K2. lia.
    + split; [exact S|]. split; [exact S'|].
      split; [reflexivity|]. split; [exact K5|].
      split; [exact K4|]. split; [now rewrite K2|].
      split; [exact L|]. split; [exact M|].
      intros Hn. rewrite <- K2. lia.
  - split; [exact S|]. split; [exact S'|].
    split; [reflexivity|]. split; [exact K5|].
    split; [exact K4|]. split; [now rewrite K2|].
    assert (k = total) as ->.
    { destruct K6 as [->|[_ R]]; [reflexivity|].
      unfold ScraperRun.limit_reached in R. rewrite G in R. discriminate. }
    split; [reflexivity|]. rewrite K2, <- LA. now rewrite firstn_all.
Qed.

Lemma scrape_all_result_witness :
  let parses := fun url : string => negb (String.eqb url "http://[x") in
  let fetch := fun i : nat =>
    match i with
    | O => Response 200 "1.2.3.4:8080 5.6.7.8:3128"
    | _ => Response 404 ""
    end in
  let st := (ScraperRun.load_sources_from_file ScraperRun.init
               (ScraperRun.ReadAll ["# sources"; " http://a.example/list "; "";
                                    "http://[x"; "http://b.example/list"])).1 in
  let st' := (ScraperRun.scrape_all parses fetch elements st (Some 1%Z)).1 in
  let out := (ScraperRun.scrape_all parses fetch elements st (Some 1%Z)).2 in
  ScraperRun.web_sources st
  = ["http://a.example/list"; "http://[x"; "http://b.example/list"]
  /\ ScraperRun.sources_completed st' = 2%Z
  /\ Z.of_nat (size out) = 1%Z.
Proof.
  intros parses fetch st st' out. split; [reflexivity|].
  destruct (scrape_all_result parses fetch elements st (Some 1%Z))
    as (k & K1 & K2 & _ & _ & _ & _ & _ & K7); [discriminate | reflexivity |].
  cbn [ScraperRun.limit_given Z.eqb] in K7. destruct K7 as (K7 & _ & K9).
  assert (k = 3%nat) as ->.
  { destruct K7 as [->|[K7 _]]; [reflexivity|]. exfalso.
    assert (0 < k <= 3)%nat as U by exact K1.
    clear - K7 U.
    destruct k as [|[|[|[|k]]]];
      [lia | discriminate K7 | discriminate K7 | discriminate K7 | lia]. }
  split.
  - etransitivity; [exact K2|]. vm_compute. reflexivity.
  - etransitivity; [apply K9; lia|]. vm_compute. reflexivity.
Defined.

(** Every candidate [scrape_all] returns was extracted from the text of a
    source of the list whose URL parses and that answered with status 200,
    and is an IP and a port that pass both validators. *)
Theorem scrape_all_candidates :
  forall parses fetch listing st max_proxies p,
    (forall s : gset string, listing s ≡ₚ elements s) ->
    p ∈ (ScraperRun.scrape_all parses fetch listing st max_proxies).2 ->
    exists i url text ip port,
      (i < length (ScraperRun.web_sources st))%nat
      /\ ScraperRun.web_sources st !! i = Some url
      /\ parses url = true
      /\ fetch i = Response 200 text
      /\ p ∈ extract text
      /\ (p = bare ip port \/ exists protocol, p = qualified protocol ip port)
      /\ _is_valid_ip ip = true /\ _is_valid_port port = true.
Proof.
  intros parses fetch listing st max_proxies p listing_ok Hp.
  destruct (ScraperRun.web_sources st) as [|u us] eqn:W.
  { unfold ScraperRun.scrape_all in Hp. rewrite W in Hp. simpl in Hp.
    now apply elem_of_empty in Hp. }
  assert (ScraperRun.web_sources st <> []) as NE by (rewrite W; discriminate).
  rewrite <- W.
  rewrite (scrape_all_eq parses fetch listing st max_proxies NE) in Hp. cbv zeta in Hp.
  cbn [fst snd ScraperRun.web_sources] in Hp.
  set (st0 := {| ScraperRun.scraped_proxies := ∅;
                 ScraperRun.web_sources := ScraperRun.web_sources st;
                 ScraperRun.scraped_count := 0;
                 ScraperRun.sources_completed := 0;
                 ScraperRun.reported := ScraperRun.reported st |}) in Hp.
  set (all := ScraperRun.numbered (ScraperRun.web_sources st)) in *.
  destruct (scrape_loop_spec parses fetch max_proxies all [] st0
              ltac:(simpl; lia) eq_refl)
    as (k & K1 & K2 & _).
  cbn [app] in *.
  set (st1 := ScraperRun.scrape_loop parses fetch max_proxies [] all st0) in *.
  assert (p ∈ ScraperRun.scraped_proxies st1) as H1.
  { destruct (ScraperRun.limit_given max_proxies) as [n|]; [|exact Hp].
    destruct (n <? _)%Z; [|exact Hp].
    cbn [ScraperRun.scraped_proxies] in Hp. revert Hp. apply cut_subseteq, listing_ok. }
  rewrite K2 in H1. cbn [ScraperRun.scraped_proxies st0] in H1.
  rewrite (left_id_L ∅ (∪)) in H1.
  apply elem_of_union_of in H1 as ([i url] & Hi & P & H1).
  apply numbered_lookup in Hi as [_ Hi]. simpl in Hi, P, H1.
  apply scrape_from_url_extract in H1 as (text & R & E).
  destruct (candidate_components _ _ E) as (ip & port & C & V1 & V2 & _).
  exists i, url, text, ip, port.
  split; [now apply lookup_lt_Some in Hi|]. split; [exact Hi|]. split; [exact P|].
  split; [exact R|]. split; [exact E|].
  split; [exact C|]. split; assumption.
Qed.

Lemma scrape_all_candidates_witness :
  let parses := fun url : string => negb (String.eqb url "http://[x") in
  let fetch := fun i : nat =>
    match i with
    | O => Response 200 "1.2.3.4:8080"
    | _ => Response 404 ""
    end in
  let st := ScraperRun.add_sources ScraperRun.init ["http://a.example/list"] in
  exists i url text ip port,
    (i < length (ScraperRun.web_sources st))%nat
    /\ ScraperRun.web_sources st !! i = Some url
    /\ parses url = true
    /\ fetch i = Response 200 text
    /\ "1.2.3.4:8080" ∈ extract text
    /\ ("1.2.3.4:8080" = bare ip port
        \/ exists protocol, "1.2.3.4:8080" = qualified protocol ip port)
    /\ _is_valid_ip ip = true /\ _is_valid_port port = true.
Proof.
  intros parses fetch st.
  apply (scrape_all_candidates parses fetch elements st None "1.2.3.4:8080");
    [reflexivity | vm_compute; reflexivity].
Defined.

(** ** The step-by-step check against the parallel one *)

Lemma parallel_hit (net : network) (fast_mode : bool) (proxy name : string)
    (rq : request) (t : Q) :
  In (name, rq) (combine FastProxyChecker.protocol_names
                         (FastProxyChecker.tasks fast_mode proxy)) ->
  FastProxyChecker.quick (net rq) = Some t -> (0 < t)%Q ->
  exists r',
    FastProxyChecker._parallel_check_proxy net fast_mode proxy = Some r'
    /\ In name (protocols r')
    /\ anonymity r' = "anonymous" /\ Net.proxy r' = proxy
    /\ exists t', response_time r' = Some t' /\ (t' <= t)%Q.
Proof.
  intros I Q P.
  unfold FastProxyChecker._parallel_check_proxy, FastProxyChecker.checked_result.
  cbn [working].
  set (results := map (fun rq => FastProxyChecker.quick (net rq))
                      (FastProxyChecker.tasks fast_mode proxy)).
  assert (In (name, t) (FastProxyChecker.process FastProxyChecker.protocol_names results))
    as Hit.
  { apply process_spec. split; [|now apply positive_time_iff].
    subst results. rewrite combine_map_snd, in_map_iff.
    exists (name, rq). simpl. now rewrite Q. }
  destruct (FastProxyChecker.process FastProxyChecker.protocol_names results)
    as [|[n0 t0] hits] eqn:E; [destruct Hit|].
  cbn [map snd fst]. eexists. split; [reflexivity|].
  cbn [protocols anonymity Net.proxy response_time map fst snd].
  split; [|split; [reflexivity|split; [reflexivity|]]].
  - change (In name (map fst ((n0, t0) :: hits))). apply in_map_iff.
    exists (name, t). auto.
  - eexists. split; [reflexivity|].
    destruct (min_time_spec (map snd hits) t0) as [_ L]. apply L.
    change (In t (map snd ((n0, t0) :: hits))). apply in_map_iff.
    exists (name, t). auto.
Qed.

Lemma truthy_positive (net : network) (rq : request) (t : Q) :
  (forall rq, (0 <= elapsed_of (net rq))%Q) ->
  FastFallback.truthy (FastProxyChecker.quick (net rq)) = Some t ->
  FastProxyChecker.quick (net rq) = Some t /\ (0 < t)%Q.
Proof.
  intros H. specialize (H rq). unfold FastFallback.truthy.
  destruct (FastProxyChecker.quick (net rq)) as [q|] eqn:Q; [|discriminate].
  destruct (Z.eqb_spec (Qnum q) 0) as [|N]; [discriminate|]. intros [= <-].
  split; [reflexivity|].
  apply quick_iff in Q as (status & h & txt & Q & _). rewrite Q in H. simpl in H.
  unfold Qle, Qlt in *. simpl in *. lia.
Qed.

(** With response times that are not negative, what the step-by-step
    [_fast_check_proxy] finds, the parallel check finds as well: it returns
    a result for the same proxy with at least the same protocols and a
    response time that is not larger.  The step-by-step check makes only
    requests the parallel check makes, and in fast mode only the HTTP
    one. *)
Theorem fast_fallback_agrees :
  forall net fast_mode proxy r reqs,
    (forall rq, (0 <= elapsed_of (net rq))%Q) ->
    FastFallback._fast_check_proxy net fast_mode proxy = (Some r, reqs) ->
    incl reqs (FastProxyChecker.tasks fast_mode proxy)
    /\ (fast_mode = true ->
        reqs = [FastProxyChecker.http_request proxy] /\ protocols r = ["http"])
    /\ exists r',
         FastProxyChecker._parallel_check_proxy net fast_mode proxy = Some r'
         /\ incl (protocols r) (protocols r')
         /\ anonymity r = anonymity r'
         /\ Net.proxy r = Net.proxy r'
         /\ exists t t', response_time r = Some t /\ response_time r' = Some t'
                         /\ (t' <= t)%Q.
Proof.
  intros net fast_mode proxy r reqs NN H.
  unfold FastFallback._fast_check_proxy in H.
  assert (forall name rq t,
            In (name, rq) (combine FastProxyChecker.protocol_names
                                   (FastProxyChecker.tasks fast_mode proxy)) ->
            FastFallback.truthy (FastProxyChecker.quick (net rq)) = Some t ->
            exists r',
              FastProxyChecker._parallel_check_proxy net fast_mode proxy = Some r'
              /\ In name (protocols r')
              /\ anonymity r' = "anonymous" /\ Net.proxy r' = proxy
              /\ exists t', response_time r' = Some t' /\ (t' <= t)%Q) as Hit.
  { intros name rq t I T. apply (truthy_positive net rq t NN) in T as [Q P].
    eapply parallel_hit; eauto. }
  destruct (FastFallback.truthy (FastProxyChecker.quick
              (net (FastProxyChecker.http_request proxy)))) as [ht|] eqn:Th.
  - destruct (Hit "http" _ ht ltac:(destruct fast_mode; simpl; auto) Th)
      as (r1 & R1 & P1 & A1 & X1 & t1 & T1 & L1).
    destruct fast_mode; cbn [negb] in H.
    + injection H as <- <-. split; [intros x [<-|[]]; simpl; auto|].
      split; [auto|]. exists r1. split; [exact R1|].
      split; [intros x [<-|[]]; exact P1|]. simpl. rewrite A1, X1.
      split; [reflexivity|]. split; [reflexivity|]. eauto.
    + cbv zeta in H.
      destruct (FastFallback.truthy (FastProxyChecker.quick
                  (net (FastProxyChecker.https_request proxy)))) as [st|] eqn:Ts;
        injection H as <- <-;
        (split; [intros x [<-|[<-|[]]]; simpl; auto|]);
        (split; [discriminate|]).
      * destruct (Hit "https" _ st ltac:(simpl; auto) Ts)
          as (r2 & R2 & P2 & _ & _ & t2 & T2 & L2).
        rewrite R1 in R2. injection R2 as <-. rewrite T1 in T2. injection T2 as <-.
        exists r1. split; [exact R1|].
        split; [intros x [<-|[<-|[]]]; assumption|]. simpl. rewrite A1, X1.
        split; [reflexivity|]. split; [reflexivity|].
        exists (FastFallback.min2 ht st), t1. split; [reflexivity|]. split; [exact T1|].
        unfold FastFallback.min2. now destruct (Qle_bool ht st).
      * exists r1. split; [exact R1|].
        split; [intros x [<-|[]]; exact P1|]. simpl. rewrite A1, X1.
        split; [reflexivity|]. split; [reflexivity|]. eauto.
  - destruct fast_mode; cbn [negb] in H; [discriminate|].
    cbv zeta in H.
    destruct (FastFallback.truthy (FastProxyChecker.quick
                (net (FastProxyChecker.socks_request proxy "5")))) as [s5|] eqn:T5.
    + injection H as <- <-.
      split; [intros x [<-|[<-|[]]]; simpl; auto 6|]. split; [discriminate|].
      destruct (Hit "socks5" _ s5 ltac:(simpl; auto 6) T5)
        as (r1 & R1 & P1 & A1 & X1 & t1 & T1 & L1).
      exists r1. split; [exact R1|].
      split; [intros x [<-|[]]; exact P1|]. simpl. rewrite A1, X1.
      split; [reflexivity|]. split; [reflexivity|]. eauto.
    + destruct (FastFallback.truthy (FastProxyChecker.quick
                  (net (FastProxyChecker.socks_request proxy "4")))) as [s4|] eqn:T4;
        [|discriminate].
      injection H as <- <-.
      split; [intros x [<-|[<-|[<-|[]]]]; simpl; auto 6|]. split; [discriminate|].
      destruct (Hit "socks4" _ s4 ltac:(simpl; auto 6) T4)
        as (r1 & R1 & P1 & A1 & X1 & t1 & T1 & L1).
      exists r1. split; [exact R1|].
      split; [intros x [<-|[]]; exact P1|]. simpl. rewrite A1, X1.
      split; [reflexivity|]. split; [reflexivity|]. eauto.
Qed.

Lemma fast_fallback_agrees_witness :
  let net : network := fun _ => Reply 204 (1 # 4) [] None in
  exists r',
    FastProxyChecker._parallel_check_proxy net false "1.2.3.4:8080" = Some r'
    /\ incl ["http"; "https"] (protocols r').
Proof.
  intros net.
  destruct (fast_fallback_agrees net false "1.2.3.4:8080"
              (FastFallback.found "1.2.3.4:8080" ["http"; "https"] (1 # 4))
              [FastProxyChecker.http_request "1.2.3.4:8080";
               FastProxyChecker.https_request "1.2.3.4:8080"])
    as (_ & _ & r' & R & I & _).
  - intros rq. simpl. unfold Qle. simpl. lia.
  - reflexivity.
  - exists r'. split; [exact R | exact I].
Defined.

(** ** The check history of a run *)

Lemma sum_times_some (l : list result) :
  Forall (fun r => response_time r <> None) l ->
  exists s, History.sum_times l = Some s.
Proof.
  unfold History.sum_times. generalize 0%Q as acc.
  induction l as [|r l IH]; intros acc F; simpl; [eauto|].
  inversion F as [|? ? Hr Hl]; subst.
  destruct (response_time r) as [t|]; [|contradiction]. now apply IH.
Qed.

Lemma history_record (results : gmap string (list result)) :
  results !! "total_checked" = None ->
  Forall (fun r => response_time r <> None) (bucket results "all_working") ->
  exists rec,
    History.add_check_history results = Some rec
    /\ History.total_checked rec = 0%Z
    /\ History.success_rate rec = 0%Q
    /\ History.total_working rec = History.count results "all_working"
    /\ History.http_count rec = History.count results "http"
    /\ History.https_count rec = History.count results "https"
    /\ History.socks4_count rec = History.count results "socks4"
    /\ History.socks5_count rec = History.count results "socks5"
    /\ History.elite_count rec = History.count results "elite"
    /\ History.anonymous_count rec = History.count results "anonymous"
    /\ History.transparent_count rec = History.count results "transparent".
Proof.
  intros N F. unfold History.add_check_history. rewrite N. cbv zeta.
  assert ((0 <? History.count results "all_working"
                + (0 - History.count results "all_working"))%Z = false) as Z0
    by (apply Z.ltb_ge; lia).
  destruct (bucket results "all_working") as [|r l] eqn:B.
  - eexists. split; [reflexivity|]. cbn. rewrite Z0.
    repeat split; lia.
  - destruct (sum_times_some (r :: l) F) as [s ->].
    eexists. split; [reflexivity|]. cbn. rewrite Z0.
    repeat split; lia.
Qed.

Lemma thorough_found (net : network) (ip : string) (proxies : list string) (r : result) :
  In r (omap (ProxyChecker._check_proxy net (Some ip)) proxies) ->
  exists p, ProxyChecker._check_proxy net (Some ip) p = Some r.
Proof.
  intros H. apply list_elem_of_In, list_elem_of_omap in H as (p & _ & H). eauto.
Qed.

Lemma thorough_protocol_names net real_ip proxy r :
  ProxyChecker._check_proxy net real_ip proxy = Some r ->
  forall k, In k (protocols r) -> In k ["http"; "https"; "socks4"; "socks5"].
Proof.
  intros H. unfold ProxyChecker._check_proxy in H.
  destruct (working _); [|discriminate]. injection H as <-.
  pose proof (run_probes_spec net real_ip proxy) as P.
  destruct (ProxyChecker._parse_proxy proxy) as [[[u d] host] port].
  destruct P as (_ & Hp & _). intros k Hk. rewrite Hp in Hk.
  apply filter_In in Hk as [Hk _].
  unfold ProxyChecker.protocols_to_test, ProxyChecker.is_socks in Hk.
  destruct (String.eqb_spec d "socks4") as [->|_];
    [simpl in Hk |- *; tauto|].
  destruct (String.eqb_spec d "socks5") as [->|_];
    [simpl in Hk |- *; tauto|].
  simpl in Hk. destruct (String.eqb d "https"); simpl in Hk |- *; tauto.
Qed.

Lemma filed_all_working (l : list result) :
  List.filter (filed "all_working") l = l.
Proof.
  induction l as [|r l IH]; [reflexivity|]. cbn [List.filter]. unfold filed at 1.
  rewrite bool_decide_eq_true_2 by auto. now rewrite IH.
Qed.

Lemma filed_classes (l : list result) :
  Forall (fun r => In (anonymity r) ["transparent"; "anonymous"; "elite"]
                   /\ forall k, In k (protocols r) ->
                                In k ["http"; "https"; "socks4"; "socks5"]) l ->
  (length (List.filter (filed "elite") l)
   + length (List.filter (filed "anonymous") l)
   + length (List.filter (filed "transparent") l) = length l)%nat
  /\ List.filter (filed "all_working") l = l.
Proof.
  induction 1 as [|r l [A P] F [IH1 IH2]]; [split; reflexivity|].
  assert (forall k, In k ["transparent"; "anonymous"; "elite"] ->
            filed k r = bool_decide (k = anonymity r)) as E.
  { intros k Hk. unfold filed. apply bool_decide_ext. split; [|tauto].
    intros [H|[H|H]]; [| |exact H].
    - subst k. simpl in Hk. intuition discriminate.
    - apply list_elem_of_In, P in H. simpl in Hk, H. intuition (subst; discriminate). }
  split.
  - cbn [List.filter]. rewrite !E by (simpl; auto).
    simpl in A. destruct A as [A|[A|[A|[]]]]; rewrite <- A; simpl; lia.
  - cbn [List.filter]. unfold filed at 1.
    rewrite bool_decide_eq_true_2 by auto. now rewrite IH2.
Qed.

(** The history record of a thorough run, on a checker that has its eight
    buckets: [add_check_history] records 0 proxies checked and a success
    rate of 0 whatever the run (no key [total_checked] is ever in the
    results), so the user's [total_proxies_checked] never grows; the number
    of working proxies is that of the run, the three anonymity counts add up
    to it, and no protocol count exceeds it. *)
Theorem thorough_run_history :
  forall net detected_ip st proxies,
    proxies <> [] ->
    (forall k, In k ProxyChecker.categories -> ProxyChecker.results st !! k <> None) ->
    ProxyChecker.results st !! "total_checked" = None ->
    let run := ProxyChecker.check_all net detected_ip st proxies in
    exists rec,
      History.add_check_history run.2 = Some rec
      /\ History.total_checked rec = 0%Z
      /\ History.success_rate rec = 0%Q
      /\ History.user_increment rec = (1%Z, 0%Z, ProxyChecker.working_count run.1)
      /\ History.total_working rec = ProxyChecker.working_count run.1
      /\ ProxyChecker.checked_count run.1 = Z.of_nat (length proxies)
      /\ (History.elite_count rec + History.anonymous_count rec
          + History.transparent_count rec = History.total_working rec)%Z
      /\ Forall (fun c => (0 <= c <= History.total_working rec)%Z)
                [History.http_count rec; History.https_count rec;
                 History.socks4_count rec; History.socks5_count rec].
Proof.
  intros net ip st proxies NE Cat NT run. subst run.
  set (found := omap (ProxyChecker._check_proxy net (Some ip)) proxies).
  assert (forall k, In k ProxyChecker.categories ->
            bucket (ProxyChecker.check_all net ip st proxies).2 k
            = List.filter (filed k) found) as B.
  { intros k Hk. unfold bucket. rewrite thorough_buckets_lookup by exact NE.
    specialize (Cat k Hk). destruct (ProxyChecker.results st !! k); [reflexivity|].
    contradiction. }
  assert (Forall (fun r => In (anonymity r) ["transparent"; "anonymous"; "elite"]
                           /\ forall k, In k (protocols r) ->
                                In k ["http"; "https"; "socks4"; "socks5"]) found) as Good.
  { apply Forall_forall. intros r Hr%list_elem_of_In.
    apply thorough_found in Hr as (p & Hp). split.
    - pose proof (thorough_result_spec net (Some ip) p r Hp) as S.
      destruct (ProxyChecker._parse_proxy p) as [[[u d] host] port]. apply S.
    - now apply (thorough_protocol_names net (Some ip) p). }
  destruct (filed_classes found Good) as [Sum All].
  destruct (history_record (ProxyChecker.check_all net ip st proxies).2)
    as (rec & R & H0 & H1 & H2 & H3 & H4 & H5 & H6 & H7 & H8 & H9).
  { rewrite thorough_buckets_lookup by exact NE. now rewrite NT. }
  { rewrite B by (simpl; auto 10). rewrite All.
    apply Forall_forall. intros r Hr%list_elem_of_In.
    apply thorough_found in Hr as (p & Hp).
    pose proof (thorough_result_spec net (Some ip) p r Hp) as S.
    destruct (ProxyChecker._parse_proxy p) as [[[u d] host] port].
    destruct S as (_ & _ & (t & ->) & _). discriminate. }
  destruct (thorough_counts_spec net ip st proxies NE) as (C1 & _ & C3 & _).
  cbv zeta in C1, C3. fold found in C3.
  assert (History.total_working rec = Z.of_nat (length found)) as TW.
  { rewrite H2. unfold History.count. rewrite B by (simpl; auto 10). now rewrite All. }
  exists rec. split; [exact R|]. split; [exact H0|]. split; [exact H1|].
  split; [unfold History.user_increment; rewrite H0, TW, C3; reflexivity|].
  split; [now rewrite TW, C3|]. split; [exact C1|]. split.
  - rewrite H7, H8, H9, TW. unfold History.count.
    rewrite !B by (simpl; auto 10). lia.
  - rewrite H3, H4, H5, H6, TW. unfold History.count.
    rewrite !B by (simpl; auto 10).
    repeat constructor; try lia; apply inj_le, filter_length_le.
Qed.

Lemma thorough_run_history_witness :
  let net : network := fun _ => Reply 200 1 [] (Some "") in
  exists rec,
    History.add_check_history
      (ProxyChecker.check_all net "9.9.9.9" ProxyChecker.init ["1.2.3.4:8080"]).2
    = Some rec
    /\ History.total_checked rec = 0%Z.
Proof.
  intros net.
  destruct (thorough_run_history net "9.9.9.9" ProxyChecker.init ["1.2.3.4:8080"])
    as (rec & R & H0 & _).
  - discriminate.
  - intros k Hk. simpl in Hk.
    repeat (destruct Hk as [<-|Hk]; [vm_compute; discriminate|]). destruct Hk.
  - vm_compute. reflexivity.
  - exists rec. split; [exact R | exact H0].
Defined.

(** The history record of a fast run: 0 proxies checked and a success rate
    of 0 as well, the number of working proxies of the run, and 0 for every
    protocol and anonymity count, since the fast checker files its results
    under [all_working] only. *)
Theorem fast_run_history :
  forall net st proxies fast_mode,
    let run := FastProxyChecker.check_all net st proxies fast_mode in
    exists rec,
      History.add_check_history run.2 = Some rec
      /\ History.total_checked rec = 0%Z
      /\ History.success_rate rec = 0%Q
      /\ History.user_increment rec = (1%Z, 0%Z, FastProxyChecker.working_count run.1)
      /\ History.total_working rec = FastProxyChecker.working_count run.1
      /\ FastProxyChecker.checked_count run.1 = Z.of_nat (length proxies)
      /\ Forall (fun c => c = 0%Z)
                [History.http_count rec; History.https_count rec;
                 History.socks4_count rec; History.socks5_count rec;
                 History.elite_count rec; History.anonymous_count rec;
                 History.transparent_count rec].
Proof.
  intros net st proxies fm run. subst run.
  destruct (fast_check_all_spec net st proxies fm) as (A & N & E & C1 & _ & C3).
  cbv zeta in *.
  set (found := omap (FastProxyChecker._parallel_check_proxy net fm) proxies) in *.
  assert (bucket (FastProxyChecker.check_all net st proxies fm).2 "all_working" = found)
    as B.
  { unfold bucket. rewrite A. now destruct found. }
  destruct (history_record (FastProxyChecker.check_all net st proxies fm).2)
    as (rec & R & H0 & H1 & H2 & H3 & H4 & H5 & H6 & H7 & H8 & H9).
  { apply N. discriminate. }
  { rewrite B. apply Forall_forall. intros r Hr.
    apply list_elem_of_omap in Hr as (p & _ & Hp).
    destruct (fast_result_spec net fm p r Hp) as (_ & _ & _ & t & -> & _).
    discriminate. }
  assert (History.total_working rec = Z.of_nat (length found)) as TW.
  { rewrite H2. unfold History.count. now rewrite B. }
  exists rec. split; [exact R|]. split; [exact H0|]. split; [exact H1|].
  split; [unfold History.user_increment; rewrite H0, TW, C3; reflexivity|].
  split; [now rewrite TW, C3|]. split; [exact C1|].
  rewrite H3, H4, H5, H6, H7, H8, H9. unfold History.count.
  rewrite !E by discriminate. repeat constructor.
Qed.

(** ** Caching what a check found *)

Lemma mapM_cons {A B} (f : A -> option B) (x : A) (l : list A) :
  mapM f (x :: l)
  = match f x, mapM f l with
    | Some y, Some k => Some (y :: k)
    | _, _ => None
    end.
Proof. simpl. destruct (f x); simpl; [destruct (mapM f l)|]; reflexivity. Qed.

Section CacheRun.
Import Database.

Lemma cache_working_rows (found : list result) : forall clock db,
  Forall (fun r => Net.response_time r <> None) found ->
  exists calls,
    mapM Bot.cache_call found = Some calls
    /\ let db' := run_all db (imap (fun i c => (c, clock i, true)) calls) in
       (forall r, In r found ->
          exists row r',
            row_of db' (Net.proxy r) = Some row
            /\ In r' found /\ Net.proxy r' = Net.proxy r
            /\ Database.proxy row = Net.proxy r
            /\ is_working row = true
            /\ Database.protocols row = join "," (Net.protocols r')
            /\ Database.anonymity row = Net.anonymity r'
            /\ Net.response_time r' = Some (Database.response_time row))
       /\ (forall q, ~ In q (map Net.proxy found) -> row_of db' q = row_of db q)
       /\ (keys_ok db -> keys_ok db').
Proof.
  induction found as [|r found IH]; intros clock db F.
  - exists []. split; [reflexivity|]. cbv zeta. simpl.
    split; [intros r []|]. split; auto.
  - inversion F as [|? ? Hr Hf]; subst.
    destruct (Net.response_time r) as [t|] eqn:T; [|contradiction].
    set (db1 := cache_working_proxy (clock 0%nat) true db (Net.proxy r)
                  (Net.protocols r) (Net.anonymity r) t).
    destruct (IH (fun i => clock (S i)) db1 Hf) as (calls & M & Rows & Others & Keys).
    exists (Upsert (Net.proxy r) (Net.protocols r) (Net.anonymity r) t :: calls).
    split.
    { rewrite mapM_cons, M. unfold Bot.cache_call. now rewrite T. }
    cbv zeta in *. cbn [imap]. unfold run_all in *. cbn [foldl run].
    change (imap ((fun i c => (c, clock i, true)) ∘ S) calls)
      with (imap (fun i c => (c, clock (S i), true)) calls).
    fold db1.
    destruct (upsert_row_spec (clock 0%nat) db (Net.proxy r) (Net.protocols r)
                (Net.anonymity r) t) as [(row & R & P & Pr & A & Rt & _ & W & _) O].
    fold db1 in R, O.
    split; [|split].
    + intros r0 H0.
      destruct (in_dec string_dec (Net.proxy r0) (map Net.proxy found)) as [I|N].
      * apply in_map_iff in I as (r1 & E1 & I1).
        destruct (Rows r1 I1) as (row1 & r' & H1 & H2 & H3 & H4 & H5).
        exists row1, r'. rewrite <- E1.
        split; [exact H1|]. split; [now right|]. split; [exact H3|].
        split; [exact H4 | exact H5].
      * destruct H0 as [<-|H0]; [|exfalso; apply N; now apply in_map].
        exists row, r. rewrite (Others _ N).
        split; [exact R|]. split; [now left|]. split; [reflexivity|].
        split; [exact P|]. split; [exact W|]. split; [exact Pr|].
        split; [exact A|]. now rewrite T, Rt.
    + intros q Nq. rewrite Others by (intros I; apply Nq; now right).
      apply O. intros ->. apply Nq. now left.
    + intros K. apply Keys.
      apply (run_keys_ok db (Upsert (Net.proxy r) (Net.protocols r) (Net.anonymity r) t,
                             clock 0%nat, true) K).
Qed.

End CacheRun.

(** After [perform_checking] has cached the results of a check, of either
    checker, with every call committed, each working proxy of the run has a
    row in the cache that is marked working and holds the protocols, the
    anonymity class and the response time of a result of the run for that
    proxy; the rows of other proxies are as before, and the keys of the
    table stay unique. *)
Theorem checked_proxies_cached :
  forall results found clock db,
    ((exists net detected_ip st proxies,
        proxies <> []
        /\ ProxyChecker.results st !! "all_working" <> None
        /\ results = (ProxyChecker.check_all net detected_ip st proxies).2
        /\ found = omap (ProxyChecker._check_proxy net (Some detected_ip)) proxies)
     \/ (exists net st proxies fast_mode,
           results = (FastProxyChecker.check_all net st proxies fast_mode).2
           /\ found = omap (FastProxyChecker._parallel_check_proxy net fast_mode)
                           proxies)) ->
    exists db',
      Bot.cache_working clock (fun _ => true) db results = Some db'
      /\ (forall r, In r found ->
            exists row r',
              row_of db' (Net.proxy r) = Some row
              /\ In r' found /\ Net.proxy r' = Net.proxy r
              /\ Database.proxy row = Net.proxy r
              /\ Database.is_working row = true
              /\ Database.protocols row = join "," (Net.protocols r')
              /\ Database.anonymity row = Net.anonymity r'
              /\ Net.response_time r' = Some (Database.response_time row))
      /\ (forall q, ~ In q (map Net.proxy found) -> row_of db' q = row_of db q)
      /\ (keys_ok db -> keys_ok db').
Proof.
  intros results found clock db H.
  assert (bucket results "all_working" = found
          /\ Forall (fun r => response_time r <> None) found) as [B F].
  { destruct H as [(net & ip & st & proxies & NE & AW & -> & ->)
                  |(net & st & proxies & fm & -> & ->)].
    - split.
      + unfold bucket. rewrite thorough_buckets_lookup by exact NE.
        destruct (ProxyChecker.results st !! "all_working"); [|contradiction].
        apply filed_all_working.
      + apply Forall_forall. intros r Hr.
        apply list_elem_of_omap in Hr as (p & _ & Hp).
        pose proof (thorough_result_spec net (Some ip) p r Hp) as S.
        destruct (ProxyChecker._parse_proxy p) as [[[u d] host] port].
        destruct S as (_ & _ & (t & ->) & _). discriminate.
    - destruct (fast_check_all_spec net st proxies fm) as (A & _).
      cbv zeta in A. split.
      + unfold bucket. rewrite A. now destruct (omap _ proxies).
      + apply Forall_forall. intros r Hr.
        apply list_elem_of_omap in Hr as (p & _ & Hp).
        destruct (fast_result_spec net fm p r Hp) as (_ & _ & _ & t & -> & _).
        discriminate. }
  destruct (cache_working_rows found clock db F) as (calls & M & Rows).
  unfold Bot.cache_working. rewrite B, M. eexists. split; [reflexivity|].
  exact Rows.
Qed.

Lemma checked_proxies_cached_witness :
  let net : network := fun _ => Reply 204 (1 # 4) [] None in
  let clock := fun _ : nat =>
    {| year := 2026; month := 11; day := 4;
       hour := 7; minute := 0; second := 0; microsecond := 0 |} in
  let results :=
    (FastProxyChecker.check_all net FastProxyChecker.init ["1.2.3.4:8080"] true).2 in
  exists db' row,
    Bot.cache_working clock (fun _ => true) Database.empty results = Some db'
    /\ row_of db' "1.2.3.4:8080" = Some row
    /\ Database.is_working row = true.
Proof.
  intros net clock results.
  destruct (checked_proxies_cached results
              (omap (FastProxyChecker._parallel_check_proxy net true) ["1.2.3.4:8080"])
              clock Database.empty) as (db' & C & Rows & _).
  - right. exists net, FastProxyChecker.init, ["1.2.3.4:8080"], true. split; reflexivity.
  - destruct (Rows (FastProxyChecker.checked_result net true "1.2.3.4:8080"))
      as (row & r' & R & _ & _ & _ & W & _); [left; reflexivity|].
    exists db', row. split; [exact C|]. split; [exact R | exact W].
Defined.

(** ** Users and their history *)

Section UserTotals.
Import Users.

Lemma update_user_ids (uid : Z) (f : user -> user) (l : list user) :
  (forall u, user_id (f u) = user_id u) ->
  map user_id (update_user uid f l) = map user_id l.
Proof.
  intros H. unfold update_user. rewrite map_map. apply map_ext. intros u.
  destruct (is_user uid u); [apply H | reflexivity].
Qed.

Lemma existsb_is_user (uid : Z) (l : list user) :
  existsb (is_user uid) l = true <-> In uid (map user_id l).
Proof.
  rewrite existsb_exists, in_map_iff. unfold is_user. split.
  - intros (u & I & E%Z.eqb_eq). eauto.
  - intros (u & E & I). exists u. split; [exact I | now apply Z.eqb_eq].
Qed.

Lemma working_sum_nonneg (l : list check_row) :
  Forall (fun h => (0 <= History.total_working (recorded h))%Z) l ->
  (0 <= working_sum l)%Z.
Proof. induction 1; simpl; lia. Qed.

Lemma working_sum_app (l1 l2 : list check_row) :
  working_sum (l1 ++ l2)%list = (working_sum l1 + working_sum l2)%Z.
Proof. induction l1 as [|h l1 IH]; simpl; [reflexivity|]. rewrite IH. lia. Qed.

Lemma history_total_checked (results : gmap string (list result)) rec :
  History.add_check_history results = Some rec ->
  History.total_checked rec = 0%Z /\ (0 <= History.total_working rec)%Z
  /\ History.success_rate rec = 0%Q.
Proof.
  unfold History.add_check_history.
  destruct (results !! "total_checked"); [discriminate|]. cbv zeta.
  assert ((0 <? History.count results "all_working"
                + (0 - History.count results "all_working"))%Z = false) as Z0
    by (apply Z.ltb_ge; lia).
  destruct (bucket results "all_working") as [|r l];
    [|destruct (History.sum_times (r :: l)); [|discriminate]];
    intros [= <-]; cbn; rewrite Z0; unfold History.count; repeat split; lia.
Qed.

Lemma run_stats_ok (st : store) (c : call * datetime * bool) :
  stats_ok st -> stats_ok (run st c).
Proof.
  intros (ND & HC & HU).
  destruct c as [[[uid name first last | uid | uid sources scraped duration limit file
                  | uid results duration] now] ok]; cbn [run].
  - unfold add_user. destruct ok; cbn [negb]; [|repeat split; assumption].
    destruct (existsb (is_user uid) (users st)) eqn:E; unfold stats_ok, with_users;
      cbn [users check_history].
    + rewrite update_user_ids by reflexivity. split; [exact ND|]. split; [exact HC|].
      unfold update_user. rewrite List.Forall_map. eapply Forall_impl; [exact HU|].
      intros u Hu. destruct (is_user uid u); exact Hu.
    + split; [|split; [exact HC|]].
      * rewrite map_app. apply NoDup_app. repeat split; [exact ND| |repeat constructor; set_solver].
        intros x Hx [<-|[]]%list_elem_of_In. apply list_elem_of_In in Hx.
        apply existsb_is_user in Hx. simpl in Hx. congruence.
      * apply Forall_app. split; [exact HU|].
        constructor; [|constructor]. unfold totals_ok. cbn.
        repeat split; try lia.
        apply working_sum_nonneg. apply Forall_forall. intros h Hh.
        apply list_elem_of_In, filter_In in Hh as [Hh _].
        rewrite Forall_forall in HC. now apply HC, list_elem_of_In.
  - unfold update_user_activity. destruct ok; cbn [negb]; [|repeat split; assumption].
    unfold stats_ok, with_users; cbn [users check_history].
    rewrite update_user_ids by reflexivity. split; [exact ND|]. split; [exact HC|].
    unfold update_user. rewrite List.Forall_map. eapply Forall_impl; [exact HU|].
    intros u Hu. destruct (is_user uid u); exact Hu.
  - unfold add_scrape_history. destruct ok; cbn [negb]; [|repeat split; assumption].
    unfold stats_ok; cbn [users check_history].
    rewrite update_user_ids by reflexivity. split; [exact ND|]. split; [exact HC|].
    unfold update_user. rewrite List.Forall_map. eapply Forall_impl; [exact HU|].
    intros u (H1 & H2 & H3 & H4). unfold totals_ok, scrapes_of, checks_of in *.
    cbn [scrape_history check_history]. rewrite List.filter_app, length_app.
    unfold is_user. destruct (Z.eqb_spec (user_id u) uid) as [E|NE];
      cbn [user_id total_proxies_checked total_scrapes total_checks
           total_working_found List.filter scrape_user length].
    + subst uid. rewrite Z.eqb_refl. cbn [length]. repeat split; try lia; try tauto.
    + assert ((uid =? user_id u)%Z = false) as -> by (apply Z.eqb_neq; congruence).
      cbn [length]. repeat split; try lia; try tauto.
  - unfold add_check_history.
    destruct (History.add_check_history results) as [rec|] eqn:R;
      [|repeat split; assumption].
    destruct ok; cbn [negb]; [|repeat split; assumption].
    destruct (history_total_checked _ _ R) as (T0 & W0 & _).
    unfold stats_ok; cbn [users check_history].
    rewrite update_user_ids by reflexivity. split; [exact ND|]. split.
    { apply Forall_app. split; [exact HC|]. constructor; [|constructor]. cbn. auto. }
    unfold update_user. rewrite List.Forall_map. eapply Forall_impl; [exact HU|].
    intros u (H1 & H2 & H3 & H4). unfold totals_ok, scrapes_of, checks_of in *.
    cbn [scrape_history check_history].
    rewrite List.filter_app, length_app, working_sum_app.
    unfold is_user. destruct (Z.eqb_spec (user_id u) uid) as [E|NE];
      cbn [user_id total_proxies_checked total_scrapes total_checks
           total_working_found List.filter check_user length].
    + subst uid. rewrite Z.eqb_refl. cbn [length working_sum foldr recorded].
      repeat split; try lia; try tauto.
    + assert ((uid =? user_id u)%Z = false) as -> by (apply Z.eqb_neq; congruence).
      cbn [length working_sum foldr]. repeat split; try lia; try tauto.
Qed.

End UserTotals.

(** After any sequence of [add_user], [update_user_activity],
    [add_scrape_history] and [add_check_history] calls on an empty
    database, committed or rolled back: user ids are unique; every check
    recorded has 0 proxies checked; and for every user
    [total_proxies_checked] is 0, [total_scrapes] and [total_checks] are at
    most the numbers of scrapes and checks recorded for the user, and
    [total_working_found] is at most the working proxies of those checks
    (history recorded before the user existed is not counted). *)
Theorem user_totals_invariant :
  forall cs, stats_ok (Users.run_all Users.empty cs).
Proof.
  intros cs. unfold Users.run_all.
  assert (stats_ok Users.empty) as H
    by (repeat split; simpl; constructor).
  revert H. generalize Users.empty.
  induction cs as [|c cs IH]; intros st H; simpl; [exact H|].
  apply IH, run_stats_ok, H.
Qed.

(** A committed [add_scrape_history] appends one history row with the next
    id, stamped with the time of the call; for a user who exists it adds 1
    to [total_scrapes] and the number scraped to [total_proxies_scraped]
    and leaves the other statistics as they are; for a user id that has no
    row the history row is written all the same and no user is created.
    The statistics of other users do not change. *)
Theorem scrape_history_recorded :
  forall now st uid sources scraped duration limit file,
    let st' := Users.add_scrape_history now true st uid sources scraped
                 duration limit file in
    Users.scrape_history st'
    = (Users.scrape_history st ++
       [{| Users.scrape_id := (Users.last_scrape_id st + 1)%Z;
           Users.scrape_user := uid;
           Users.scrape_timestamp := current_timestamp now;
           Users.sources_count := sources; Users.proxies_scraped := scraped;
           Users.scrape_duration := duration; Users.max_proxies := limit;
           Users.output_file := file |}])%list
    /\ Users.get_user_stats st' uid
       = match Users.get_user st uid with
         | Some u =>
             Some ((Users.total_scrapes u + 1)%Z, Users.total_checks u,
                   (Users.total_proxies_scraped u + scraped)%Z,
                   Users.total_proxies_checked u, Users.total_working_found u,
                   Users.created_at u)
         | None => None
         end
    /\ length (Users.users st') = length (Users.users st)
    /\ forall other, other <> uid ->
         Users.get_user st' other = Users.get_user st other.
Proof.
  intros now st uid sources scraped duration limit file st'. subst st'.
  unfold Users.add_scrape_history, Users.get_user_stats, Users.get_user.
  cbn [negb Users.scrape_history Users.users]. split; [reflexivity|].
  unfold Users.update_user. split; [|split; [apply length_map|]].
  - induction (Users.users st) as [|u l IH]; [reflexivity|]. cbn [map List.find].
    destruct (Users.is_user uid u) eqn:E.
    + unfold Users.is_user in *. cbn [Users.user_id]. rewrite E. reflexivity.
    + rewrite E. exact IH.
  - intros other N. induction (Users.users st) as [|u l IH]; [reflexivity|].
    cbn [map List.find]. destruct (Users.is_user uid u) eqn:E.
    + unfold Users.is_user in *. cbn [Users.user_id].
      apply Z.eqb_eq in E. rewrite E.
      destruct (Z.eqb_spec uid other) as [->|_]; [contradiction | exact IH].
    + destruct (Users.is_user other u); [reflexivity | exact IH].
Qed.

(** ** A run without the checker's own address *)

(** When [_get_real_ip] returns the empty string, as it does when its
    request fails, is not answered with status 200 or names no origin, no
    proxy of the run is classified as transparent: every working result is
    anonymous or elite and the transparent bucket is empty. *)
Theorem no_real_ip_no_transparent :
  forall net reply st proxies,
    proxies <> [] ->
    RealIp._get_real_ip reply = "" ->
    let out := (ProxyChecker.check_all net (RealIp._get_real_ip reply) st proxies).2 in
    bucket out "transparent" = []
    /\ (forall r, In r (bucket out "all_working") ->
          anonymity r = "anonymous" \/ anonymity r = "elite").
Proof.
  intros net reply st proxies NE E out. subst out. rewrite E.
  set (found := omap (ProxyChecker._check_proxy net (Some "")) proxies).
  assert (forall r, In r found ->
            (anonymity r = "anonymous" \/ anonymity r = "elite")
            /\ filed "transparent" r = false) as Good.
  { intros r Hr. apply thorough_found in Hr as (p & Hp).
    pose proof (thorough_result_spec net (Some "") p r Hp) as S.
    pose proof (thorough_protocol_names net (Some "") p r Hp) as P.
    destruct (ProxyChecker._parse_proxy p) as [[[u d] host] port].
    destruct S as (_ & _ & _ & (q & Hq & A) & C).
    assert (anonymity r <> "transparent") as NT.
    { rewrite A. unfold detected.
      destruct (net _) as [| |status e h [t|]]; try discriminate.
      intros T. apply detect_anonymity_spec in T as (ip & [= <-] & N & _).
      now apply N. }
    split.
    - simpl in C. destruct C as [C|[C|[C|[]]]]; auto. congruence.
    - unfold filed. apply bool_decide_eq_false. intros [H|[H|H]].
      + discriminate.
      + apply list_elem_of_In, P in H. simpl in H. intuition discriminate.
      + congruence. }
  split.
  - unfold bucket. rewrite thorough_buckets_lookup by exact NE.
    destruct (ProxyChecker.results st !! "transparent"); [|reflexivity].
    cbn [fmap option_fmap option_map default].
    fold found. change (List.filter (filed "transparent") found = []).
    induction found as [|r0 l0 IH]; [reflexivity|]. cbn [List.filter].
    destruct (Good r0 ltac:(now left)) as [_ ->]. apply IH.
    intros r' Hr'. apply Good. now right.
  - intros r. unfold bucket. rewrite thorough_buckets_lookup by exact NE.
    destruct (ProxyChecker.results st !! "all_working"); [|intros []].
    cbn [fmap option_fmap option_map default]. fold found.
    intros Hr%filter_In. apply Good, Hr.
Qed.

Lemma no_real_ip_no_transparent_witness :
  let net : network :=
    fun _ => Reply 200 1 [("Via", "9.9.9.9")] (Some "origin 9.9.9.9") in
  bucket (ProxyChecker.check_all net (RealIp._get_real_ip RealIp.IpFailed)
            ProxyChecker.init ["1.2.3.4:8080"]).2 "transparent" = [].
Proof.
  intros net.
  apply (no_real_ip_no_transparent net RealIp.IpFailed ProxyChecker.init
           ["1.2.3.4:8080"]); [discriminate | reflexivity].
Defined.

(** ** The web sources of a user *)

Section WebSourceRows.
Import WebSources.

Lemma ws_insert_perm (r : source_row) (l : list source_row) :
  insert_row r l ≡ₚ r :: l.
Proof.
  induction l as [|x l IH]; simpl; [reflexivity|].
  destruct (_ <? _)%Z; [|reflexivity]. rewrite IH. apply Permutation_swap.
Qed.

Lemma ws_insert_sorted (r : source_row) (l : list source_row) :
  StronglySorted (fun a b => (times_used b <= times_used a)%Z) l ->
  StronglySorted (fun a b => (times_used b <= times_used a)%Z) (insert_row r l).
Proof.
  induction 1 as [|x l S IH F]; simpl; [repeat constructor|].
  destruct (Z.ltb_spec (times_used r) (times_used x)).
  - constructor; [exact IH|]. apply Forall_forall. intros y Hy.
    apply list_elem_of_In in Hy.
    apply (Permutation_in _ (ws_insert_perm r l)) in Hy as [<-|Hy]; [lia|].
    rewrite Forall_forall in F. apply F. now apply list_elem_of_In.
  - constructor; [now constructor|]. constructor; [lia|].
    eapply Forall_impl; [exact F|]. intros y Hy. simpl in *. lia.
Qed.

Lemma ws_run_rows (uid : Z) (u : string) (cs : list (call * datetime * bool)) :
  forall t,
    Forall (fun r => is_active r = true) (rows t) ->
    let t' := run_all t cs in
    Forall (fun r => is_active r = true) (rows t')
    /\ length (List.filter (is_source uid u) (rows t'))
       = (length (List.filter (is_source uid u) (rows t))
          + length (List.filter (adds uid u) cs))%nat.
Proof.
  induction cs as [|[[c now] ok] cs IH]; intros t A; cbv zeta.
  - simpl. split; [exact A | lia].
  - unfold run_all. cbn [foldl]. fold (run_all (run t (c, now, ok)) cs).
    assert (Forall (fun r => is_active r = true) (rows (run t (c, now, ok)))
            /\ length (List.filter (is_source uid u) (rows (run t (c, now, ok))))
               = (length (List.filter (is_source uid u) (rows t))
                  + (if adds uid u (c, now, ok) then 1 else 0))%nat) as [A1 L1].
    { destruct c as [uid' u'|uid' u' n]; cbn [run adds].
      - unfold add_web_source. destruct ok; cbn [negb andb rows].
        + split.
          * apply Forall_app. split; [exact A|]. repeat constructor.
          * rewrite List.filter_app, length_app. cbn [List.filter].
            unfold is_source at 2. cbn [source_user url].
            destruct ((uid' =? uid)%Z && String.eqb u' u); simpl; lia.
        + split; [exact A | lia].
      - unfold update_web_source_usage. destruct ok; cbn [negb rows].
        + split.
          * rewrite List.Forall_map. eapply Forall_impl; [exact A|].
            intros r Hr. now destruct (is_source uid' u' r).
          * rewrite Nat.add_0_r. clear A. induction (rows t) as [|r l IHl]; [reflexivity|].
            cbn [map List.filter].
            assert (is_source uid u
                      (if is_source uid' u' r
                       then {| source_id := source_id r; source_user := source_user r;
                               url := url r; added_at := added_at r;
                               last_used := Some (current_timestamp now);
                               times_used := (times_used r + 1)%Z;
                               last_proxy_count := n; is_active := is_active r |}
                       else r) = is_source uid u r) as ->
              by now destruct (is_source uid' u' r).
            destruct (is_source uid u r); simpl; now rewrite IHl.
        + split; [exact A | lia]. }
    destruct (IH _ A1) as [A2 L2]. split; [exact A2|].
    rewrite L2, L1. cbn [List.filter].
    destruct (adds uid u (c, now, ok)); simpl; lia.
Qed.

End WebSourceRows.

(** [add_web_source] never merges: after any sequence of calls on an empty
    table, the rows of a user for a URL are as many as the committed
    [add_web_source] calls for that user and URL, so a source added twice is
    listed twice.  [get_user_web_sources] returns all rows of the user (none
    is ever made inactive), most used first. *)
Theorem web_sources_not_merged :
  forall cs uid u,
    let t := WebSources.run_all WebSources.empty cs in
    length (List.filter (WebSources.is_source uid u) (WebSources.rows t))
    = length (List.filter (WebSources.adds uid u) cs)
    /\ WebSources.get_user_web_sources t uid
       ≡ₚ List.filter (fun r => (WebSources.source_user r =? uid)%Z)
                      (WebSources.rows t)
    /\ StronglySorted
         (fun a b => (WebSources.times_used b <= WebSources.times_used a)%Z)
         (WebSources.get_user_web_sources t uid).
Proof.
  intros cs uid u t. subst t.
  destruct (ws_run_rows uid u cs WebSources.empty) as [A L]; [constructor|].
  cbv zeta in *. split; [exact L|]. unfold WebSources.get_user_web_sources.
  set (rs := WebSources.rows (WebSources.run_all WebSources.empty cs)) in *.
  assert (List.filter (fun r => (WebSources.source_user r =? uid)%Z
                                && WebSources.is_active r) rs
          = List.filter (fun r => (WebSources.source_user r =? uid)%Z) rs) as ->.
  { clear L. induction rs as [|r l IH]; [reflexivity|].
    inversion A as [|? ? Hr Hl]; subst. cbn [List.filter]. rewrite Hr, andb_true_r.
    now rewrite (IH Hl). }
  generalize (List.filter (fun r => (WebSources.source_user r =? uid)%Z) rs) as l.
  intros l. split.
  - induction l as [|x l IH]; simpl; [reflexivity|].
    rewrite ws_insert_perm. now rewrite IH.
  - induction l as [|x l IH]; simpl; [constructor|]. now apply ws_insert_sorted.
Qed.

(** ** Candidates occur in the text *)

Lemma findall_from_suffix (r : regex) (m : captures) :
  forall s skip i,
    In m (findall_from r skip i s) ->
    exists pre s' i' j, s = pre +:+ s' /\ match_at r i' s' = Some (m, j).
Proof.
  induction s as [|c s IH]; intros skip i H.
  - destruct skip; simpl in H; [|contradiction].
    destruct (match_at r i "") as [[caps j]|] eqn:E; [|contradiction].
    destruct H as [->|[]]. exists "", "", i, j. auto.
  - assert (forall skip' i', In m (findall_from r skip' i' s) ->
              exists pre s' i' j,
                String c s = pre +:+ s' /\ match_at r i' s' = Some (m, j)) as Tail.
    { intros skip' i' H'. destruct (IH _ _ H') as (pre & s' & i0 & j & -> & M).
      exists (String c pre), s', i0, j. auto. }
    destruct skip; simpl in H; [|eauto].
    destruct (match_at r i (String c s)) as [[caps j]|] eqn:E; [|eauto].
    destruct H as [->|H]; [|eauto]. exists "", (String c s), i, j. auto.
Qed.

Lemma matches_chr (c : ascii) (a b : mstate) :
  matches (Chr c) a b -> a.1.2 = String c b.1.2.
Proof. intros (i & s & caps & -> & ->). reflexivity. Qed.

Lemma proxy_pattern_text (i : nat) (s : string) (m : captures) (j : nat) :
  match_at proxy_pattern i s = Some (m, j) ->
  exists ip port w rest,
    m = [(2%nat, port); (1%nat, ip)]
    /\ s = w +:+ bare ip port +:+ rest.
Proof.
  intros H. apply match_at_sound in H as (b & M & <-).
  unfold proxy_pattern in M.
  apply matches_seq in M as (c1 & M1 & M).
  apply matches_seq in M as (c2 & M2 & M).
  apply matches_seq in M as (c3 & M3 & M).
  apply matches_seq in M as (c4 & M4 & M5).
  apply matches_consumes in M1 as (w & E1 & _ & _ & G1).
  specialize (G1 eq_refl).
  apply matches_group in M2 as (ip & _ & E2 & C2); [|reflexivity].
  pose proof (matches_plain (Chr ":") _ _ eq_refl M3) as C3.
  apply matches_chr in M3.
  apply matches_group in M4 as (port & _ & E4 & C4); [|reflexivity].
  apply matches_plain in M5; [|reflexivity].
  exists ip, port, w, c4.1.2. simpl in *. split.
  - rewrite M5, C4, C3, C2, G1. reflexivity.
  - rewrite E1, E2, M3, E4. unfold bare.
    change (String ":" (port +:+ c4.1.2)) with (":" +:+ port +:+ c4.1.2).
    now rewrite !append_assoc.
Qed.

Lemma protocol_pattern_text (i : nat) (s : string) (m : captures) (j : nat) :
  match_at protocol_pattern i s = Some (m, j) ->
  exists protocol ip port w rest,
    m = [(3%nat, port); (2%nat, ip); (1%nat, protocol)]
    /\ s = (protocol +:+ "://") +:+ w +:+ bare ip port +:+ rest.
Proof.
  intros H. apply match_at_sound in H as (b & M & <-).
  unfold protocol_pattern in M.
  apply matches_seq in M as (c1 & M1 & M).
  apply matches_seq in M as (c2 & M2 & M).
  apply matches_seq in M as (c3 & M3 & M).
  apply matches_seq in M as (c4 & M4 & M).
  apply matches_seq in M as (c5 & M5 & M6).
  apply matches_group in M1 as (protocol & _ & E1 & C1); [|reflexivity].
  apply matches_consumes in M2 as (sep & E2 & _ & L2 & G2).
  specialize (G2 eq_refl). apply lang_lit in L2.
  apply matches_consumes in M3 as (w & E3 & _ & _ & G3).
  specialize (G3 eq_refl).
  apply matches_group in M4 as (ip & _ & E4 & C4); [|reflexivity].
  pose proof (matches_plain (Chr ":") _ _ eq_refl M5) as C5.
  apply matches_chr in M5.
  apply matches_group in M6 as (port & _ & E6 & C6); [|reflexivity].
  exists protocol, ip, port, w, b.1.2. simpl in *. split.
  - rewrite C6, C5, C4, G3, G2, C1. reflexivity.
  - rewrite E1, E2, E3, E4, M5, E6, L2. unfold bare.
    change (String ":" (port +:+ b.1.2)) with (":" +:+ port +:+ b.1.2).
    now rewrite !append_assoc.
Qed.

(** Extraction invents nothing: the [ip:port] of every candidate occurs in
    the source text as it stands, and so does the [protocol://] of a
    candidate with a protocol (credentials between the two are dropped).
    A text without a colon, the empty text among them, yields no
    candidate. *)
Theorem candidates_occur_in_text :
  forall text,
    (forall c, c ∈ extract text ->
       exists ip port,
         contains (bare ip port) text = true
         /\ (c = bare ip port
             \/ exists protocol,
                  c = qualified protocol ip port
                  /\ contains (protocol +:+ "://") text = true))
    /\ (contains ":" text = false -> extract text = ∅).
Proof.
  intros text.
  assert (forall c, c ∈ extract text ->
            exists ip port,
              contains (bare ip port) text = true
              /\ (c = bare ip port
                  \/ exists protocol,
                       c = qualified protocol ip port
                       /\ contains (protocol +:+ "://") text = true)) as Occ.
  { intros c [(m & Hm & _ & ->)|(m & Hm & _ & ->)]%extract_iff.
    - apply findall_from_suffix in Hm as (pre & s' & i & j & E & Hm).
      apply protocol_pattern_text in Hm as (pr & ip & port & w & rest & -> & S).
      exists ip, port. simpl. split.
      + apply contains_iff. exists (pre +:+ (pr +:+ "://") +:+ w), rest.
        rewrite E, S. now rewrite !append_assoc.
      + right. exists pr. split; [reflexivity|].
        apply contains_iff. exists pre, (w +:+ bare ip port +:+ rest).
        rewrite E, S. now rewrite !append_assoc.
    - apply findall_from_suffix in Hm as (pre & s' & i & j & E & Hm).
      apply proxy_pattern_text in Hm as (ip & port & w & rest & -> & S).
      exists ip, port. simpl. split; [|now left].
      apply contains_iff. exists (pre +:+ w), rest.
      rewrite E, S. now rewrite !append_assoc. }
  split; [exact Occ|].
  intros N. apply set_eq. intros c. split; [|intros H; now apply elem_of_empty in H].
  intros H. exfalso. destruct (Occ c H) as (ip & port & C & _).
  apply contains_iff in C as (a & b & E).
  assert (contains ":" text = true) as T; [|congruence].
  apply contains_iff. exists (a +:+ ip), (port +:+ b).
  rewrite E. unfold bare. now rewrite !append_assoc.
Qed.
